(** * BlindTest-auto: excerpt selection and assembly pipeline

    A shallow embedding of [blindtest/clipper.py], [blindtest/assembler.py],
    [blindtest/video_sources.py] and [blindtest/main.py], and the properties
    of the pipeline that the specification states about them.

    Modelling choices.
    - Python [float]s are IEEE-754 binary64 values: [spec_float] with
      precision 53 and maximal exponent 1024.  The integer literal [0] that
      the code mixes with floats is the float [+0.0], which is what Python
      converts it to in every comparison and sum written in these files.
    - A [pathlib.Path] is its string form; [dir / name] is [dir +:+ "/" +:+ name].
    - Everything outside the repository (moviepy, the file system, the
      random generator, the network) is an [Engine]: a record of oracles
      that say how each external call answers.  Theorems quantify over all
      engines.
    - Effects are explicit: a computation maps a [World] to a result or a
      raised exception, and a new [World].  The world records every
      external call, in order, in its [trace].
    - The arithmetic of the random start is proved on the floats
      themselves: [Rounding] states round-to-nearest-even on integers and
      [RoundingFacts] shows that it is what [SFadd], [SFsub] and [SFmul]
      compute. *)

From Stdlib Require Import ZArith List String Ascii Bool Lia Permutation.
From Stdlib Require Import Floats.SpecFloat.
From stdpp Require Import base decidable gmap strings pretty.
Import ListNotations.
Local Open Scope string_scope.
Local Open Scope list_scope.

(** ** Python floats *)

Module PyFloat.

Definition prec : Z := 53.
Definition emax : Z := 1024.

Definition zero : spec_float := S754_zero false.

Definition add : spec_float -> spec_float -> spec_float := SFadd prec emax.
Definition sub : spec_float -> spec_float -> spec_float := SFsub prec emax.
Definition mul : spec_float -> spec_float -> spec_float := SFmul prec emax.

(** [x < y], [x <= y], [x == y]; every comparison with a NaN is false. *)
Definition ltb : spec_float -> spec_float -> bool := SFltb.
Definition leb : spec_float -> spec_float -> bool := SFleb.
Definition eqb : spec_float -> spec_float -> bool := SFeqb.

(** [bool(x)], the test of [if x:] : true unless [x == 0.0]. *)
Definition truthy (x : spec_float) : bool := negb (eqb x zero).

(** [max(0, x)]: the builtin keeps its first argument unless a later one
    is strictly greater. *)
Definition max0 (x : spec_float) : spec_float :=
  if ltb zero x then x else zero.

(** A float that Python can hold: NaN, an infinity, a zero, or a finite
    number in canonical binary64 form. *)
Definition valid (x : spec_float) : bool := valid_binary prec emax x.

Definition is_finite (x : spec_float) : bool :=
  match x with
  | S754_zero _ | S754_finite _ _ _ => true
  | _ => false
  end.

(** [random.uniform(a, b)] is [a + (b - a) * random()] in CPython's
    [random.py]; [r] is the value drawn by [random()]. *)
Definition uniform (a b r : spec_float) : spec_float :=
  add a (mul (sub b a) r).

(** Some constants, for examples. *)
Definition one : spec_float := S754_finite false 4503599627370496 (-52).
Definition half : spec_float := S754_finite false 4503599627370496 (-53).
Definition of_pos (n : positive) : spec_float :=
  binary_normalize prec emax (Zpos n) 0 false.

End PyFloat.

(** ** Rounding, on integers

    What [SFadd], [SFsub] and [SFmul] compute on non-negative floats, stated
    on integers: the exact result, rounded to the nearest float. *)

Module Rounding.

Local Open Scope Z_scope.

(** Values are counted in units of [2^-K], so that every number that
    occurs (differences, sums and products of binary64 floats) is an
    integer. *)
Definition K : Z := 2148.

(** The exponent of the smallest positive float, [2^-1074], in these units. *)
Definition gmin : Z := 1074.

(** The value of a non-negative finite float, in units of [2^-K]. *)
Definition V (x : spec_float) : Z :=
  match x with
  | S754_finite false m e => Zpos m * 2 ^ (e + K)
  | _ => 0
  end.

(** The exponent of the spacing of the floats around [X]: 53 significant
    bits, but never finer than the subnormal spacing. *)
Definition grid (X : Z) : Z := Z.max (Z.log2 X + 1 - 53) gmin.

(** Round to nearest, ties to even: [q * G + rho] goes up to [(q+1) * G]
    when [rho] is more than half of [G], or half of it with [q] odd. *)
Definition round_up (G q rho : Z) : bool :=
  (G <? 2 * rho) || ((G =? 2 * rho) && Z.odd q).

(** The float nearest to [X] (ties to even), as a value. *)
Definition RNZ (X : Z) : Z :=
  let G := 2 ^ grid X in
  G * (X / G + (if round_up G (X / G) (X mod G) then 1 else 0)).

(** The round and sticky bits say where the dropped part [rho] lies in
    [0, G). *)
Definition loc_ok (r s : bool) (rho G : Z) : Prop :=
  match r, s with
  | false, false => rho = 0
  | false, true => 0 < rho /\ 2 * rho < G
  | true, false => 2 * rho = G
  | true, true => G < 2 * rho /\ rho < G
  end.

(** [mrs] is [m] after [k] shifts to the right by [shr_1]. *)
Definition shifted (m : Z) (k : Z) (mrs : shr_record) : Prop :=
  0 <= shr_m mrs /\
  0 <= m - shr_m mrs * 2 ^ k < 2 ^ k /\
  loc_ok (shr_r mrs) (shr_s mrs) (m - shr_m mrs * 2 ^ k) (2 ^ k).

(** A zero, or a positive finite float in canonical form. *)
Definition nonneg (x : spec_float) : bool :=
  match x with
  | S754_zero _ => true
  | S754_finite false m e => bounded PyFloat.prec PyFloat.emax m e
  | _ => false
  end.

(** The largest finite value. *)
Definition Vmax : Z := (2 ^ 53 - 1) * 2 ^ (971 + K).

(** The last step of [binary_round_aux]: renormalise the rounded mantissa
    and check for overflow. *)
Definition finish (q e : Z) : spec_float :=
  let '(mrs, e') := shr_fexp PyFloat.prec PyFloat.emax q e loc_Exact in
  match shr_m mrs with
  | Z0 => S754_zero false
  | Zpos m =>
      if e' <=? PyFloat.emax - PyFloat.prec then S754_finite false m e' else S754_infinity false
  | Zneg _ => S754_nan
  end.

End Rounding.

(** ** Paths *)

Module PyPath.

(** Position of the last occurrence of [c] in [s] ([str.rfind]). *)
Fixpoint rfind (c : ascii) (s : string) : option nat :=
  match s with
  | EmptyString => None
  | String a s' =>
      match rfind c s' with
      | Some i => Some (S i)
      | None => if Ascii.eqb a c then Some 0%nat else None
      end
  end.

Fixpoint drop (n : nat) (s : string) : string :=
  match n, s with
  | O, _ => s
  | S n', String _ s' => drop n' s'
  | S _, EmptyString => EmptyString
  end.

Fixpoint take (n : nat) (s : string) : string :=
  match n, s with
  | O, _ => EmptyString
  | S n', String a s' => String a (take n' s')
  | S _, EmptyString => EmptyString
  end.

(** [dir / name], for a [dir] in the form in which pathlib prints it
    (not ["."], no final ["/"]) and a relative [name]: pathlib drops a
    leading ["./"] of [name] and ignores [dir] when [name] starts with
    ["/"], which this concatenation does not. *)
Definition join (dir name : string) : string := dir +:+ "/" +:+ name.

(** [p.name]: the final component. *)
Definition name (p : string) : string :=
  match rfind "/" p with
  | Some i => drop (S i) p
  | None => p
  end.

(** [p.parent]: everything before the final component, ["."] if there is
    nothing before it. *)
Definition parent (p : string) : string :=
  match rfind "/" p with
  | Some O => "/"
  | Some i => take i p
  | None => "."
  end.

(** [p.suffix]: from the last dot of the name, unless that dot starts or
    ends the name. *)
Definition suffix (p : string) : string :=
  let n := name p in
  match rfind "." n with
  | Some i =>
      if (0 <? i)%nat && (i <? String.length n - 1)%nat
      then drop i n else EmptyString
  | None => EmptyString
  end.

(** [p.with_suffix(s)]: [None] stands for the [ValueError] that pathlib
    raises on a path with an empty name. *)
Definition with_suffix (p s : string) : option string :=
  if String.eqb (name p) EmptyString then None
  else Some (take (String.length p - String.length (suffix p)) p +:+ s).

End PyPath.

(** ** Data model *)

(** [video_sources.VideoClip] *)
Record VideoClip := {
  video_id : string;
  title : string;
  url : string;
  file_path : string
}.

(** How a moviepy clip object came to be. *)
Inductive Origin :=
| FromAudioFile (path : string)                       (* AudioFileClip(path) *)
| FromVideoFile (path : string)                       (* VideoFileClip(path) *)
| SubclipOf (parent : nat) (t_start t_end : spec_float)
| SilentAudio (d : spec_float)                        (* AudioClip(lambda t: 0, duration=d) *)
| Color (size : Z * Z) (d : spec_float)               (* ColorClip(size, (0,0,0), d) *)
| ColorWithAudio (size : Z * Z) (d : spec_float) (base audio : nat)
| Concatenated (audio : bool) (parts : list nat).

(** A moviepy clip object: [m_handle] identifies the object, the other
    fields are the attributes the code reads. *)
Record MediaClip := {
  m_handle : nat;
  m_origin : Origin;
  m_duration : option spec_float;
  m_size : Z * Z
}.

(** What the media engine reports about a file it opened. *)
Record MediaInfo := {
  mi_duration : option spec_float;
  mi_size : Z * Z
}.

(** The exceptions of the three modules; [OtherError] is any exception
    that is none of theirs (an [OSError] of moviepy, a [ValueError], ...). *)
Inductive exn :=
| VideoRetrievalError (msg : string)
| ClipGenerationError (msg : string)
| AssemblyError (msg : string)
| OtherError (name : string).

(** External calls, as they are recorded in the trace. *)
Inductive event :=
| EvMkdir (p : string)
| EvRmtree (p : string)
| EvAudioFileClip (h : nat) (p : string)
| EvVideoFileClip (h : nat) (p : string)
| EvSubclip (h parent : nat) (t_start t_end : spec_float)
| EvAudioClip (h : nat) (d : spec_float)
| EvColorClip (h : nat) (size : Z * Z) (d : spec_float)
| EvSetAudio (h base audio : nat)
| EvConcatenateAudioclips (h : nat) (parts : list nat)
| EvConcatenateVideoclips (h : nat) (parts : list nat)
| EvWriteAudiofile (h : nat) (p : string)
| EvWriteVideofile (h : nat) (p : string)
| EvClose (h : nat)
| EvFailed (call : string)
| EvHttpGet (q : string)
| EvDownload (id : string)
| EvSleep.

(** ** The YouTube search API, as [video_sources] reads it *)

Record SearchParams := {
  sp_part : string;
  sp_q : string;
  sp_maxResults : Z;
  sp_type : string;
  sp_key : string;
  sp_videoEmbeddable : string;
  sp_publishedAfter : option string
}.

Record Item := {
  item_videoId : option string;      (* item["id"].get("videoId") *)
  item_title : option string         (* item.get("snippet", {}).get("title") *)
}.

Record Response := {
  status_code : Z;
  text : string;
  json_items : list Item             (* response.json().get("items", []) *)
}.

(** ** The outside world *)

Record Engine := {
  (** does [from moviepy.editor import ...] succeed *)
  moviepy_installed : bool;
  (** [AudioFileClip(p)] ([true]) or [VideoFileClip(p)] ([false]);
      [None] when the constructor raises *)
  probe : bool -> string -> option MediaInfo;
  (** does [clip.subclip(t_start, t_end)] return *)
  subclip_ok : MediaClip -> spec_float -> spec_float -> bool;
  (** does [write_audiofile] ([true]) or [write_videofile] ([false]) return *)
  write_ok : bool -> MediaClip -> string -> bool;
  (** does [concatenate_audioclips] ([true]) or [concatenate_videoclips]
      ([false]) return *)
  concat_ok : bool -> list MediaClip -> bool;
  (** the [n]-th value returned by [random.random()] *)
  random_value : nat -> spec_float;
  (** [os.getenv("YOUTUBE_API_KEY")] *)
  env_api_key : option string;
  requests_installed : bool;
  (** [requests.get(...)]; [None] when it raises *)
  http_get : SearchParams -> option Response;
  pytube_installed : bool;
  youtube_dl_installed : bool;
  (** is there an audio stream for this video id *)
  audio_stream : string -> bool;
  (** does the download of this video id return *)
  download_ok : string -> bool;
  (** [random.shuffle] *)
  shuffle : list VideoClip -> list VideoClip;
  (** does [shutil.rmtree(p)] return; it raises for instance on ["."], on
      a file, on a directory that may not be changed *)
  rmtree_ok : string -> bool;
  (** when [shutil.rmtree(p)] raises: is [q], which lies below [p], still
      there *)
  rmtree_left : string -> string -> bool
}.

Record World := {
  trace : list event;          (* external calls so far, oldest first *)
  next_handle : nat;           (* number of clip objects created so far *)
  dirs : gset string;          (* directories that exist, by the name
                                  under which they were made *)
  draws : nat                  (* number of calls of random.random() so far *)
}.

(** ** Computations: state and exceptions *)

Inductive result (A : Type) :=
| Ok (a : A)
| Raise (e : exn).
Arguments Ok {A} a.
Arguments Raise {A} e.

Definition M (A : Type) : Type := World -> result A * World.

Definition ret {A} (a : A) : M A := fun w => (Ok a, w).

Definition raise {A} (e : exn) : M A := fun w => (Raise e, w).

Definition bind {A B} (m : M A) (k : A -> M B) : M B :=
  fun w =>
    match m w with
    | (Ok a, w') => k a w'
    | (Raise e, w') => (Raise e, w')
    end.

Notation "x <- m ;; k" := (bind m (fun x => k))
  (at level 100, m at next level, right associativity).
Notation "m ;;; k" := (bind m (fun _ => k))
  (at level 100, right associativity).

(** [try: body finally: cleanup] *)
Definition try_finally {A} (body : M A) (cleanup : M unit) : M A :=
  fun w =>
    let (r, w1) := body w in
    match cleanup w1 with
    | (Ok _, w2) => (r, w2)
    | (Raise e, w2) => (Raise e, w2)
    end.

(** [try: body except <classes> as exc: handler] *)
Definition try_except {A} (body : M A) (caught : exn -> bool)
    (handler : exn -> M A) : M A :=
  fun w =>
    match body w with
    | (Ok a, w1) => (Ok a, w1)
    | (Raise e, w1) => if caught e then handler e w1 else (Raise e, w1)
    end.

Definition emit (ev : event) : M unit :=
  fun w =>
    (Ok tt, {| trace := trace w ++ [ev]; next_handle := next_handle w;
               dirs := dirs w; draws := draws w |}).

(** A new clip object. *)
Definition fresh : M nat :=
  fun w =>
    (Ok (next_handle w),
     {| trace := trace w; next_handle := S (next_handle w);
        dirs := dirs w; draws := draws w |}).

(** ** File system *)

(** [Path(p).mkdir(parents=True, exist_ok=True)], for a [p] that can be
    made.  Of the directories it makes the model keeps [p] alone: the
    parents that [parents=True] makes with it are not recorded in [dirs],
    so that [dirs] says which of the directories the program names exist,
    and nothing about the others. *)
Definition mkdir (p : string) : M unit :=
  emit (EvMkdir p) ;;;
  fun w =>
    (Ok tt, {| trace := trace w; next_handle := next_handle w;
               dirs := {[ p ]} ∪ dirs w; draws := draws w |}).

(** [Path(p).exists()] *)
Definition path_exists (p : string) : M bool :=
  fun w => (Ok (bool_decide (p ∈ dirs w)), w).

(** [q] is [p] or lies below it, for names in the form in which pathlib
    prints them: no ["."] component, no doubled and no final ["/"].  Two
    names of one directory are two entries of [dirs]. *)
Definition below (p q : string) : bool :=
  String.eqb p q || String.prefix (p +:+ "/") q.

(** [shutil.rmtree(p)]: when it returns, [p] and all below it are gone;
    when it raises, the engine says what is left of them. *)
Definition rmtree (E : Engine) (p : string) : M unit :=
  emit (EvRmtree p) ;;;
  fun w =>
    if rmtree_ok E p then
      (Ok tt, {| trace := trace w; next_handle := next_handle w;
                 dirs := filter (fun q => below p q = false) (dirs w);
                 draws := draws w |})
    else
      (Raise (OtherError "OSError"),
       {| trace := trace w; next_handle := next_handle w;
          dirs := filter (fun q => below p q = false \/ rmtree_left E p q = true)
                         (dirs w);
          draws := draws w |}).

(** The namespace that [parse_args] returns. *)
Record Args := {
  query : string;
  max_results : Z;
  clip_duration_arg : spec_float;
  output : string;
  downloads : string;
  clips_arg : string;
  no_random : bool;
  audio_only_arg : bool;
  silence_duration_arg : spec_float
}.

(** ** Calls into moviepy and the random generator *)

Section Pipeline.

Variable E : Engine.

(** [AudioFileClip(str(p))] when [audio] is set, else [VideoFileClip(str(p))] *)
Definition open_media (audio : bool) (p : string) : M MediaClip :=
  match probe E audio p with
  | Some info =>
      h <- fresh ;;
      emit (if audio then EvAudioFileClip h p else EvVideoFileClip h p) ;;;
      ret {| m_handle := h;
             m_origin := if audio then FromAudioFile p else FromVideoFile p;
             m_duration := mi_duration info;
             m_size := mi_size info |}
  | None =>
      emit (EvFailed (if audio then "AudioFileClip" else "VideoFileClip")) ;;;
      raise (OtherError "OSError")
  end.

(** [c.subclip(t_start, t_end)] *)
Definition subclip (c : MediaClip) (t_start t_end : spec_float) : M MediaClip :=
  if subclip_ok E c t_start t_end then
    h <- fresh ;;
    emit (EvSubclip h (m_handle c) t_start t_end) ;;;
    ret {| m_handle := h;
           m_origin := SubclipOf (m_handle c) t_start t_end;
           m_duration := Some (PyFloat.sub t_end t_start);
           m_size := m_size c |}
  else
    emit (EvFailed "subclip") ;;;
    raise (OtherError "ValueError").

(** [c.write_audiofile(str(p), ...)] *)
Definition write_audiofile (c : MediaClip) (p : string) : M unit :=
  emit (EvWriteAudiofile (m_handle c) p) ;;;
  if write_ok E true c p then ret tt else raise (OtherError "OSError").

(** [c.write_videofile(str(p), audio=True, ...)] *)
Definition write_videofile (c : MediaClip) (p : string) : M unit :=
  emit (EvWriteVideofile (m_handle c) p) ;;;
  if write_ok E false c p then ret tt else raise (OtherError "OSError").

(** [c.close()] *)
Definition close (c : MediaClip) : M unit := emit (EvClose (m_handle c)).

(** [AudioClip(lambda t: 0, duration=d)] *)
Definition audio_clip (d : spec_float) : M MediaClip :=
  h <- fresh ;;
  emit (EvAudioClip h d) ;;;
  ret {| m_handle := h; m_origin := SilentAudio d;
         m_duration := Some d; m_size := (0, 0)%Z |}.

(** [ColorClip(size=size, color=(0, 0, 0), duration=d)] *)
Definition color_clip (size : Z * Z) (d : spec_float) : M MediaClip :=
  h <- fresh ;;
  emit (EvColorClip h size d) ;;;
  ret {| m_handle := h; m_origin := Color size d;
         m_duration := Some d; m_size := size |}.

(** [c.set_audio(a)]: a copy of [c] that carries [a] as its sound track. *)
Definition set_audio (c a : MediaClip) : M MediaClip :=
  h <- fresh ;;
  emit (EvSetAudio h (m_handle c) (m_handle a)) ;;;
  ret {| m_handle := h;
         m_origin :=
           match m_origin c with
           | Color size d => ColorWithAudio size d (m_handle c) (m_handle a)
           | o => o
           end;
         m_duration := m_duration c; m_size := m_size c |}.

(** [concatenate_audioclips(cs)] when [audio] is set, else
    [concatenate_videoclips(cs, method="compose")] *)
Definition concatenate (audio : bool) (cs : list MediaClip) : M MediaClip :=
  if concat_ok E audio cs then
    h <- fresh ;;
    emit (if audio then EvConcatenateAudioclips h (map m_handle cs)
          else EvConcatenateVideoclips h (map m_handle cs)) ;;;
    ret {| m_handle := h; m_origin := Concatenated audio (map m_handle cs);
           m_duration := None; m_size := (0, 0)%Z |}
  else
    emit (EvFailed (if audio then "concatenate_audioclips"
                    else "concatenate_videoclips")) ;;;
    raise (OtherError "ValueError").

(** [random.random()] *)
Definition random_random : M spec_float :=
  fun w =>
    (Ok (random_value E (draws w)),
     {| trace := trace w; next_handle := next_handle w;
        dirs := dirs w; draws := S (draws w) |}).

(** [random.uniform(a, b)] *)
Definition random_uniform (a b : spec_float) : M spec_float :=
  r <- random_random ;;
  ret (PyFloat.uniform a b r).

(** ** clipper.py *)

Definition clipper_load_moviepy : M unit :=
  if moviepy_installed E then ret tt
  else raise (ClipGenerationError
    "moviepy is required to generate clips. Install it with 'pip install moviepy'.").

(** Lines 68-74 of [clip_videos]: the start of the excerpt. *)
Definition start_offset (duration : option spec_float)
    (clip_duration : spec_float) (start_strategy : string) : M spec_float :=
  match duration with
  | None => ret PyFloat.zero
  | Some d =>
      if PyFloat.ltb d clip_duration then ret PyFloat.zero
      else if String.eqb start_strategy "random" then
        random_uniform PyFloat.zero
          (PyFloat.max0 (PyFloat.sub d clip_duration))
      else ret PyFloat.zero
  end.

(** Lines 77-79: the file the excerpt of [clip] is written to. *)
Definition target_of (output_dir : string) (audio_only : bool)
    (clip : VideoClip) : option string :=
  let target := PyPath.join output_dir (video_id clip +:+ "_clip.mp4") in
  if audio_only then PyPath.with_suffix target ".mp3" else Some target.

Section ClipVideos.

Variables (clip_duration : spec_float) (output_dir : string)
          (start_strategy : string) (audio_only : bool).

(** The [for clip in clips:] loop of [clip_videos]. *)
Fixpoint clip_loop (clips : list VideoClip) (generated_files : list string)
    : M (list string) :=
  match clips with
  | [] => ret generated_files
  | clip :: rest =>
      let source_path := file_path clip in
      media_clip <- open_media audio_only source_path ;;
      start <- start_offset (m_duration media_clip) clip_duration
                 start_strategy ;;
      sub <- subclip media_clip start (PyFloat.add start clip_duration) ;;
      match target_of output_dir audio_only clip with
      | None => raise (OtherError "ValueError")
      | Some target =>
          (if audio_only then write_audiofile sub target
           else write_videofile sub target) ;;;
          close media_clip ;;;
          close sub ;;;
          clip_loop rest (generated_files ++ [target])
      end
  end.

Definition clip_videos (clips : list VideoClip) : M (list string) :=
  if PyFloat.leb clip_duration PyFloat.zero then
    raise (ClipGenerationError "clip_duration must be a positive number")
  else
    clipper_load_moviepy ;;;
    mkdir output_dir ;;;
    clip_loop clips [].

End ClipVideos.

(** ** assembler.py *)

Definition assembler_load_moviepy : M unit :=
  if moviepy_installed E then ret tt
  else raise (AssemblyError
    "moviepy is required to assemble the blind test. Install it with 'pip install moviepy'.").

Section BuildBlindtest.

Variables (output_path : string) (silence_duration : spec_float)
          (audio_only : bool).

(** The [for clip_path in clips:] loop of [build_blindtest]. *)
Fixpoint assemble_loop (clips : list string)
    (assembled_clips : list MediaClip) : M (list MediaClip) :=
  match clips with
  | [] => ret assembled_clips
  | clip_path :: rest =>
      if audio_only then
        media_clip <- open_media true clip_path ;;
        let assembled_clips := assembled_clips ++ [media_clip] in
        if PyFloat.truthy silence_duration then
          silence <- audio_clip silence_duration ;;
          assemble_loop rest (assembled_clips ++ [silence])
        else assemble_loop rest assembled_clips
      else
        media_clip <- open_media false clip_path ;;
        let assembled_clips := assembled_clips ++ [media_clip] in
        if PyFloat.truthy silence_duration then
          silence <- color_clip (m_size media_clip) silence_duration ;;
          a <- audio_clip silence_duration ;;
          silence <- set_audio silence a ;;
          assemble_loop rest (assembled_clips ++ [silence])
        else assemble_loop rest assembled_clips
  end.

(** The [for clip in assembled_clips: clip.close()] loop. *)
Fixpoint close_all (cs : list MediaClip) : M unit :=
  match cs with
  | [] => ret tt
  | c :: rest => close c ;;; close_all rest
  end.

Definition build_blindtest (clips : list string) : M string :=
  match clips with
  | [] => raise (AssemblyError "No clips were provided for assembly")
  | _ :: _ =>
      if PyFloat.ltb silence_duration PyFloat.zero then
        raise (AssemblyError "silence_duration must be zero or greater")
      else
        assembler_load_moviepy ;;;
        mkdir (PyPath.parent output_path) ;;;
        assembled_clips <- assemble_loop clips [] ;;
        final_clip <- concatenate audio_only assembled_clips ;;
        (if audio_only then write_audiofile final_clip output_path
         else write_videofile final_clip output_path) ;;;
        close_all assembled_clips ;;;
        close final_clip ;;;
        ret output_path
  end.

End BuildBlindtest.

(** ** video_sources.py *)

Definition download_video (video_id : string) (target_dir : string) : M string :=
  mkdir target_dir ;;;
  let file_path := PyPath.join target_dir (video_id +:+ ".mp4") in
  if pytube_installed E then
    if audio_stream E video_id then
      emit (EvDownload video_id) ;;;
      if download_ok E video_id then ret file_path
      else raise (OtherError "pytube")
    else
      raise (VideoRetrievalError ("No audio stream available for " +:+ video_id))
  else if youtube_dl_installed E then
    emit (EvDownload video_id) ;;;
    if download_ok E video_id then ret file_path
    else raise (OtherError "youtube_dl")
  else
    raise (VideoRetrievalError
      "Neither pytube nor youtube_dl is available to download videos.").

Definition build_search_params (query api_key : string) (max_results : Z)
    (published_after : option string) : SearchParams :=
  {| sp_part := "snippet"; sp_q := query; sp_maxResults := max_results;
     sp_type := "video"; sp_key := api_key; sp_videoEmbeddable := "true";
     sp_publishedAfter :=
       match published_after with
       | Some s => if String.eqb s "" then None else Some s
       | None => None
       end |}.

Definition call_youtube_api (params : SearchParams) : M Response :=
  if requests_installed E then
    emit (EvHttpGet (sp_q params)) ;;;
    match http_get E params with
    | None => raise (OtherError "requests")
    | Some response =>
        if Z.eqb (status_code response) 200 then ret response
        else raise (VideoRetrievalError
               ("YouTube API request failed with status "
                +:+ pretty (status_code response) +:+ ": " +:+ text response))
    end
  else
    raise (VideoRetrievalError
      "The 'requests' package is required to call the YouTube API. Install it with 'pip install requests'.").

(** The [for item in items:] loop of [fetch_video_clips]. *)
Fixpoint fetch_loop (download_path : string) (items : list Item)
    (clips : list VideoClip) : M (list VideoClip) :=
  match items with
  | [] => ret clips
  | item :: rest =>
      match item_videoId item with
      | None => fetch_loop download_path rest clips
      | Some video_id =>
          if String.eqb video_id "" then fetch_loop download_path rest clips
          else
            let title := default "Untitled" (item_title item) in
            let url := "https://www.youtube.com/watch?v=" +:+ video_id in
            file_path <- download_video video_id download_path ;;
            emit EvSleep ;;;
            fetch_loop download_path rest
              (clips ++ [ {| video_id := video_id; title := title;
                             url := url; file_path := file_path |} ])
      end
  end.

Definition missing_api_key : string :=
  "A YouTube API key must be supplied via the api_key argument or the YOUTUBE_API_KEY environment variable.".

Definition fetch_video_clips (query : string) (max_results : Z)
    (api_key : option string) (download_dir : string)
    (published_after : option string) (randomize : bool)
    : M (list VideoClip) :=
  (* api_key or os.getenv("YOUTUBE_API_KEY") *)
  let api_key :=
    match api_key with
    | Some k => if String.eqb k "" then env_api_key E else Some k
    | None => env_api_key E
    end in
  match api_key with
  | None => raise (VideoRetrievalError missing_api_key)
  | Some key =>
      if String.eqb key "" then raise (VideoRetrievalError missing_api_key)
      else
        data <- call_youtube_api
                  (build_search_params query key max_results published_after) ;;
        match json_items data with
        | [] => raise (VideoRetrievalError
                         "No videos were returned by the YouTube API")
        | items =>
            clips <- fetch_loop download_dir items [] ;;
            if randomize then ret (shuffle E clips) else ret clips
        end
  end.

(** ** main.py *)

(** [except (VideoRetrievalError, ClipGenerationError, AssemblyError)] *)
Definition caught_by_main (e : exn) : bool :=
  match e with
  | VideoRetrievalError _ | ClipGenerationError _ | AssemblyError _ => true
  | OtherError _ => false
  end.

(** The body of the [try] of [main]. *)
Definition main_body (args : Args) : M Z :=
  videos <- fetch_video_clips (query args) (max_results args) None
              (downloads args) None (negb (no_random args)) ;;
  generated_clips <- clip_videos (clip_duration_arg args) (clips_arg args)
                       "random" (audio_only_arg args) videos ;;
  build_blindtest (output args) (silence_duration_arg args)
    (audio_only_arg args) generated_clips ;;;
  ret 0%Z.

(** The [finally] of [main]. *)
Definition main_cleanup (args : Args) : M unit :=
  (d <- path_exists (downloads args) ;;
   if d then rmtree E (downloads args) else ret tt) ;;;
  (c <- path_exists (clips_arg args) ;;
   if c then rmtree E (clips_arg args) else ret tt).

(** [main], after [parse_args]; logging is left out. *)
Definition main (args : Args) : M Z :=
  try_finally
    (try_except (main_body args) caught_by_main (fun _ => ret 1%Z))
    (main_cleanup args).

End Pipeline.


(** ** The timeline, in the words of the specification *)

Inductive TimelineSegment :=
| content (excerpt : string)
| silence (durationSeconds : spec_float).

(** What a clip object of [assembled_clips] is on the timeline: a file clip
    is a content segment; a silent [AudioClip], or a [ColorClip] that was
    given a silent sound track, is a silence segment. *)
Definition segment_of (c : MediaClip) : option TimelineSegment :=
  match m_origin c with
  | FromAudioFile p | FromVideoFile p => Some (content p)
  | SilentAudio d => Some (silence d)
  | ColorWithAudio _ d _ _ => Some (silence d)
  | _ => None
  end.


Definition silence_segment (s : option TimelineSegment) : bool :=
  match s with Some (silence _) => true | _ => false end.


Definition is_silence (c : MediaClip) : bool := silence_segment (segment_of c).



(** What the loop of [build_blindtest] puts on the timeline for one
    excerpt: the excerpt, and a silence if [if silence_duration:] succeeds. *)
Definition segments_of_excerpt (silence_duration : spec_float) (p : string)
    : list (option TimelineSegment) :=
  Some (content p) ::
  (if PyFloat.truthy silence_duration
   then [Some (silence silence_duration)] else []).

(** ** Handles *)

(** The clip objects that an external call hands to the program as media
    handles: the file clip of [AudioFileClip]/[VideoFileClip], the trimmed
    clip of [subclip], and the composed clip of a concatenation together
    with the segments it is made of. *)
Definition handles_of (ev : event) : list nat :=
  match ev with
  | EvAudioFileClip h _ | EvVideoFileClip h _ => [h]
  | EvSubclip h _ _ _ => [h]
  | EvConcatenateAudioclips h parts | EvConcatenateVideoclips h parts =>
      h :: parts
  | _ => []
  end.

Definition closes (h : nat) (ev : event) : bool :=
  match ev with
  | EvClose h' => Nat.eqb h h'
  | _ => false
  end.

(** The handles of [evs] that no [close()] of [evs] releases. *)
Definition leaked (evs : list event) : list nat :=
  nodup Nat.eq_dec
    (List.filter (fun h => negb (existsb (closes h) evs))
                 (flat_map handles_of evs)).

(** The files that the write calls of [evs] name. *)
Definition written_files (evs : list event) : list string :=
  flat_map (fun ev => match ev with
                      | EvWriteAudiofile _ p | EvWriteVideofile _ p => [p]
                      | _ => []
                      end) evs.

(** The external calls that running [m] in [w] adds to the trace. *)
Definition new_events {A} (m : M A) (w : World) : list event :=
  skipn (List.length (trace w)) (trace (snd (m w))).

Definition is_write_video (ev : event) : bool :=
  match ev with EvWriteVideofile _ _ => true | _ => false end.

Definition is_write_audio (ev : event) : bool :=
  match ev with EvWriteAudiofile _ _ => true | _ => false end.

(** ** Worlds and engines for the examples *)

Module Examples.

Definition empty_world : World :=
  {| trace := []; next_handle := 0; dirs := ∅; draws := 0 |}.

Definition five : spec_float := PyFloat.of_pos 5.
Definition ten : spec_float := PyFloat.of_pos 10.
Definition twenty : spec_float := PyFloat.of_pos 20.

Definition two_items : list Item :=
  [ {| item_videoId := Some "abc123"; item_title := Some "Song 1" |};
    {| item_videoId := Some "def456"; item_title := Some "Song 2" |} ].

(** Every external call succeeds; every file lasts [d] seconds. *)
Definition cooperative (d : option spec_float) : Engine :=
  {| moviepy_installed := true;
     probe := fun _ _ => Some {| mi_duration := d; mi_size := (640, 480)%Z |};
     subclip_ok := fun _ _ _ => true;
     write_ok := fun _ _ _ => true;
     concat_ok := fun _ _ => true;
     random_value := fun _ => PyFloat.half;
     env_api_key := Some "key";
     requests_installed := true;
     http_get := fun _ => Some {| status_code := 200; text := "";
                                  json_items := two_items |};
     pytube_installed := true;
     youtube_dl_installed := false;
     audio_stream := fun _ => true;
     download_ok := fun _ => true;
     shuffle := fun l => l;
     rmtree_ok := fun _ => true;
     rmtree_left := fun _ _ => false |}.

(** As [cooperative], but every write to a file fails. *)
Definition failing_write (d : option spec_float) : Engine :=
  {| moviepy_installed := true;
     probe := probe (cooperative d);
     subclip_ok := fun _ _ _ => true;
     write_ok := fun _ _ _ => false;
     concat_ok := fun _ _ => true;
     random_value := fun _ => PyFloat.half;
     env_api_key := Some "key";
     requests_installed := true;
     http_get := http_get (cooperative d);
     pytube_installed := true;
     youtube_dl_installed := false;
     audio_stream := fun _ => true;
     download_ok := fun _ => true;
     shuffle := fun l => l;
     rmtree_ok := fun _ => true;
     rmtree_left := fun _ _ => false |}.

(** As [cooperative], but every file lasts five seconds and a clip that is
    longer than that cannot be written. *)
Definition five_second_files : Engine :=
  {| moviepy_installed := true;
     probe := probe (cooperative (Some five));
     subclip_ok := fun _ _ _ => true;
     write_ok := fun _ c _ =>
       match m_duration c with
       | Some d => PyFloat.leb d five
       | None => true
       end;
     concat_ok := fun _ _ => true;
     random_value := fun _ => PyFloat.half;
     env_api_key := Some "key";
     requests_installed := true;
     http_get := http_get (cooperative (Some five));
     pytube_installed := true;
     youtube_dl_installed := false;
     audio_stream := fun _ => true;
     download_ok := fun _ => true;
     shuffle := fun l => l;
     rmtree_ok := fun _ => true;
     rmtree_left := fun _ _ => false |}.


Definition item (id : string) : VideoClip :=
  {| video_id := id; title := "Song";
     url := "https://www.youtube.com/watch?v=" +:+ id;
     file_path := "downloads/" +:+ id +:+ ".mp4" |}.

Definition args (audio : bool) : Args :=
  {| query := "hits"; max_results := 2; clip_duration_arg := ten;
     output := "out/blindtest.mp4"; downloads := "downloads";
     clips_arg := "clips"; no_random := true; audio_only_arg := audio;
     silence_duration_arg := PyFloat.one |}.


End Examples.

(** ** Names used in the statements *)

(** The name [clip_videos] gives the excerpt of [clip]: [<id>_clip.mp3] in
    audio-only mode, [<id>_clip.mp4] otherwise, under [output_dir]. *)
Definition excerpt_path (output_dir : string) (audio_only : bool)
    (clip : VideoClip) : string :=
  PyPath.join output_dir
    (video_id clip +:+ (if audio_only then "_clip.mp3" else "_clip.mp4")).

(** The world [w] after the external calls [evs], [n] of which made a new
    clip object. *)
Definition after (w : World) (evs : list event) (n : nat) : World :=
  {| trace := trace w ++ evs; next_handle := n + next_handle w;
     dirs := dirs w; draws := draws w |}.

(** Every external call that [m] makes, on any path through it, satisfies [P]. *)
Definition emits {A} (P : event -> Prop) (m : M A) : Prop :=
  forall (w : World) (r : result A) (w' : World),
    m w = (r, w') ->
    exists evs, trace w' = trace w ++ evs /\ Forall P evs.

(** The calls that are not a [write_videofile]. *)
Definition not_write_video (ev : event) : Prop := is_write_video ev = false.

(** Every handle that [evs] hands out is closed by a [close()] of [evs]. *)
Definition balanced (evs : list event) : Prop :=
  forall h, In h (flat_map handles_of evs) -> existsb (closes h) evs = true.

(** The calls of the pipeline that name no directory and send no request:
    all but [mkdir], [rmtree] and the search request. *)
Definition stage_call (ev : event) : bool :=
  match ev with
  | EvMkdir _ | EvRmtree _ | EvHttpGet _ => false
  | _ => true
  end.

(** The calls that are not the removal of a directory. *)
Definition not_rmtree (ev : event) : Prop :=
  match ev with EvRmtree _ => False | _ => True end.

(** What [main] reports when its cleanup returns. *)
Definition reported (r : result Z) : result Z :=
  match r with
  | Ok z => Ok z
  | Raise e => if caught_by_main e then Ok 1%Z else Raise e
  end.

(** ** The timeline, read off the calls *)

(** The call [ev] makes the clip object [h]. *)
Definition makes (h : nat) (ev : event) : bool :=
  match ev with
  | EvAudioFileClip h' _ | EvVideoFileClip h' _ | EvSubclip h' _ _ _
  | EvAudioClip h' _ | EvColorClip h' _ _ | EvSetAudio h' _ _
  | EvConcatenateAudioclips h' _ | EvConcatenateVideoclips h' _ =>
      Nat.eqb h h'
  | _ => false
  end.

(** The call of [evs] that made the clip object [h]. *)
Definition made_by (evs : list event) (h : nat) : option event :=
  List.find (makes h) evs.

(** What the clip object [h] is on a timeline, by the calls [evs]: an
    excerpt if it was opened from a file, a silence if it is a silent
    [AudioClip], or a [ColorClip] that [set_audio] gave a silent
    [AudioClip] as its sound track. *)
Definition segment_in (evs : list event) (h : nat) : option TimelineSegment :=
  match made_by evs h with
  | Some (EvAudioFileClip _ p) | Some (EvVideoFileClip _ p) => Some (content p)
  | Some (EvAudioClip _ d) => Some (silence d)
  | Some (EvSetAudio _ base audio) =>
      match made_by evs base, made_by evs audio with
      | Some (EvColorClip _ _ d), Some (EvAudioClip _ _) => Some (silence d)
      | _, _ => None
      end
  | _ => None
  end.

(** The timeline of the clip object [h], if [h] is a concatenation: its
    parts, in the order in which they were concatenated. *)
Definition timeline_in (evs : list event) (h : nat)
    : option (list (option TimelineSegment)) :=
  match made_by evs h with
  | Some (EvConcatenateAudioclips _ parts)
  | Some (EvConcatenateVideoclips _ parts) => Some (map (segment_in evs) parts)
  | _ => None
  end.

(** The files that the calls [evs] write, each with the timeline of the
    clip object that is written to it, as the calls [all] made it. *)
Definition renders_in (all evs : list event)
    : list (string * option (list (option TimelineSegment))) :=
  flat_map (fun ev => match ev with
                      | EvWriteAudiofile h p | EvWriteVideofile h p =>
                          [(p, timeline_in all h)]
                      | _ => []
                      end) evs.

(** The files that [evs] writes, with their timelines. *)
Definition renders (evs : list event)
    : list (string * option (list (option TimelineSegment))) :=
  renders_in evs evs.


(** The calls [evs] make clip objects numbered from [lo] and below [hi]
    only. *)
Definition makes_within (lo hi : nat) (evs : list event) : Prop :=
  forall ev h, In ev evs -> makes h ev = true -> lo <= h < hi.

(** The clip objects [cs] are, by the calls [evs], the segments [tl]. *)
Definition read_as (evs : list event) (cs : list MediaClip)
    (tl : list (option TimelineSegment)) : Prop :=
  Forall2 (fun c os => exists s, os = Some s /\
                                 segment_in evs (m_handle c) = Some s) cs tl.

(** ** Names used in the statements about video_sources.py *)

(** [api_key or os.getenv("YOUTUBE_API_KEY")], the first line of
    [fetch_video_clips]. *)
Definition api_key_or_env (E : Engine) (api_key : option string)
    : option string :=
  match api_key with
  | Some k => if String.eqb k "" then env_api_key E else Some k
  | None => env_api_key E
  end.

(** [not api_key] *)
Definition no_key (k : option string) : bool :=
  match k with
  | None => true
  | Some s => String.eqb s ""
  end.

(** The [VideoClip] that [fetch_video_clips] makes of an item that has a
    video id, and nothing for an item that has none. *)
Definition clips_of_item (download_dir : string) (item : Item) : list VideoClip :=
  match item_videoId item with
  | None => []
  | Some id =>
      if String.eqb id "" then []
      else [ {| video_id := id;
                title := default "Untitled" (item_title item);
                url := "https://www.youtube.com/watch?v=" +:+ id;
                file_path := PyPath.join download_dir (id +:+ ".mp4") |} ]
  end.

(** The external calls that go with one downloaded clip. *)
Definition download_events (download_dir : string) (c : VideoClip) : list event :=
  [EvMkdir download_dir; EvDownload (video_id c); EvSleep].

(** A downloader is installed and fetches this video id. *)
Definition downloads_fine (E : Engine) (id : string) : bool :=
  if pytube_installed E then audio_stream E id && download_ok E id
  else youtube_dl_installed E && download_ok E id.

(** [random.shuffle] reorders and does nothing else. *)
Definition shuffle_permutes (E : Engine) : Prop :=
  forall l : list VideoClip, Permutation l (shuffle E l).

(** The world after [evs] and after [dir] was made. *)
Definition after_mkdir (w : World) (dir : string) (evs : list event) : World :=
  {| trace := trace w ++ evs; next_handle := next_handle w;
     dirs := {[ dir ]} ∪ dirs w; draws := draws w |}.

(** ** Names used in the statements about clipper.py *)

(** Lines 69-74 of clipper.py: does [clip_videos] draw a random start for
    a media of this duration. *)
Definition draws_start (duration : option spec_float)
    (clip_duration : spec_float) (start_strategy : string) : bool :=
  match duration with
  | None => false
  | Some d =>
      negb (PyFloat.ltb d clip_duration) && String.eqb start_strategy "random"
  end.

(** [media_clip.duration] of the file of [clip], when it opens. *)
Definition duration_of (E : Engine) (audio_only : bool) (clip : VideoClip)
    : option spec_float :=
  match probe E audio_only (file_path clip) with
  | Some info => mi_duration info
  | None => None
  end.

(** The external calls of one round of the loop of [clip_videos]: the
    source is clip object [h], its excerpt is clip object [S h]. *)
Definition excerpt_events (clip_duration : spec_float) (output_dir : string)
    (audio_only : bool) (h : nat) (clip : VideoClip) (start : spec_float)
    : list event :=
  [ if audio_only then EvAudioFileClip h (file_path clip)
    else EvVideoFileClip h (file_path clip);
    EvSubclip (S h) h start (PyFloat.add start clip_duration);
    if audio_only
    then EvWriteAudiofile (S h) (excerpt_path output_dir audio_only clip)
    else EvWriteVideofile (S h) (excerpt_path output_dir audio_only clip);
    EvClose h; EvClose (S h) ].

(** The rounds for [clips], which start at [starts]. *)
Fixpoint clip_trace (clip_duration : spec_float) (output_dir : string)
    (audio_only : bool) (h : nat) (clips : list VideoClip)
    (starts : list spec_float) : list event :=
  match clips, starts with
  | clip :: clips', start :: starts' =>
      excerpt_events clip_duration output_dir audio_only h clip start
      ++ clip_trace clip_duration output_dir audio_only (2 + h) clips' starts'
  | _, _ => []
  end.

(** ** Names used in the statements about assembler.py *)

(** [media_clip.size] of the file [p], when it opens. *)
Definition size_of (E : Engine) (audio_only : bool) (p : string) : Z * Z :=
  match probe E audio_only p with
  | Some info => mi_size info
  | None => (0, 0)%Z
  end.

(** The calls that make the clip objects of the timeline. *)
Definition makes_segment (ev : event) : bool :=
  match ev with
  | EvAudioFileClip _ _ | EvVideoFileClip _ _ | EvAudioClip _ _
  | EvColorClip _ _ _ | EvSetAudio _ _ _ => true
  | _ => false
  end.

(** What [build_blindtest] puts on the timeline for the excerpt [p] when it
    renders a video with silences: the excerpt, then a silent black frame
    of the size of the excerpt. *)
Definition video_round (E : Engine) (silence_duration : spec_float)
    (p : string) : list (option TimelineSegment * (Z * Z)) :=
  [ (Some (content p), size_of E false p);
    (Some (silence silence_duration), size_of E false p) ].

(** On any path through it, [m] removes no directory, and makes none
    outside [D]. *)
Definition only_makes {A} (D : gset string) (m : M A) : Prop :=
  forall (w : World) (r : result A) (w' : World),
    m w = (r, w') -> dirs w ⊆ dirs w' /\ dirs w' ⊆ D ∪ dirs w.

(** ** Names used in the statements about main.py *)

(** The queries of the search requests among [evs]. *)
Definition http_requests (evs : list event) : list string :=
  flat_map (fun ev => match ev with EvHttpGet q => [q] | _ => [] end) evs.

(** The calls that are not a search request. *)
Definition not_http_get (ev : event) : Prop := http_requests [ev] = [].

(** ** More engines for the examples *)

Module Scenarios.

(** [E] with other answers of the network. *)
Definition with_network (key : option string) (requests : bool)
    (get : SearchParams -> option Response) (E : Engine) : Engine :=
  {| moviepy_installed := moviepy_installed E;
     probe := probe E;
     subclip_ok := subclip_ok E;
     write_ok := write_ok E;
     concat_ok := concat_ok E;
     random_value := random_value E;
     env_api_key := key;
     requests_installed := requests;
     http_get := get;
     pytube_installed := pytube_installed E;
     youtube_dl_installed := youtube_dl_installed E;
     audio_stream := audio_stream E;
     download_ok := download_ok E;
     shuffle := shuffle E;
     rmtree_ok := rmtree_ok E;
     rmtree_left := rmtree_left E |}.


(** [E] with another media engine. *)
Definition with_media (moviepy : bool)
    (files : bool -> string -> option MediaInfo) (E : Engine) : Engine :=
  {| moviepy_installed := moviepy;
     probe := files;
     subclip_ok := subclip_ok E;
     write_ok := write_ok E;
     concat_ok := concat_ok E;
     random_value := random_value E;
     env_api_key := env_api_key E;
     requests_installed := requests_installed E;
     http_get := http_get E;
     pytube_installed := pytube_installed E;
     youtube_dl_installed := youtube_dl_installed E;
     audio_stream := audio_stream E;
     download_ok := download_ok E;
     shuffle := shuffle E;
     rmtree_ok := rmtree_ok E;
     rmtree_left := rmtree_left E |}.

(** [E] with another [random.shuffle]. *)
Definition with_shuffle (f : list VideoClip -> list VideoClip) (E : Engine)
    : Engine :=
  {| moviepy_installed := moviepy_installed E;
     probe := probe E;
     subclip_ok := subclip_ok E;
     write_ok := write_ok E;
     concat_ok := concat_ok E;
     random_value := random_value E;
     env_api_key := env_api_key E;
     requests_installed := requests_installed E;
     http_get := http_get E;
     pytube_installed := pytube_installed E;
     youtube_dl_installed := youtube_dl_installed E;
     audio_stream := audio_stream E;
     download_ok := download_ok E;
     shuffle := f;
     rmtree_ok := rmtree_ok E;
     rmtree_left := rmtree_left E |}.

(** The answer of the search API with these items. *)
Definition answer (status : Z) (body : string) (items : list Item) : Response :=
  {| status_code := status; text := body; json_items := items |}.

Definition basic : Engine := Examples.cooperative (Some Examples.twenty).

End Scenarios.

(** * Properties *)

(** ** Strings and paths *)

Module PathFacts.
Import PyPath.

Lemma app_cons (a : ascii) (s1 s2 : string) :
  String a s1 +:+ s2 = String a (s1 +:+ s2).
Proof. reflexivity. Qed.

Lemma app_nil (s : string) : EmptyString +:+ s = s.
Proof. reflexivity. Qed.

Ltac by_string_induction s IH :=
  induction s as [|? s IH]; rewrite ?app_cons, ?app_nil; simpl.

Lemma length_app (s1 s2 : string) :
  String.length (s1 +:+ s2) = (String.length s1 + String.length s2)%nat.
Proof. by_string_induction s1 IH; [reflexivity | now rewrite IH]. Qed.

Lemma app_assoc (s1 s2 s3 : string) :
  (s1 +:+ s2) +:+ s3 = s1 +:+ (s2 +:+ s3).
Proof. by_string_induction s1 IH; [reflexivity | now rewrite IH]. Qed.

Lemma rfind_app (c : ascii) (s1 s2 : string) :
  rfind c (s1 +:+ s2) =
  match rfind c s2 with
  | Some i => Some (String.length s1 + i)%nat
  | None => rfind c s1
  end.
Proof.
  by_string_induction s1 IH.
  - now destruct (rfind c s2).
  - rewrite IH. now destruct (rfind c s2).
Qed.

Lemma rfind_lt (c : ascii) (s : string) (i : nat) :
  rfind c s = Some i -> (i < String.length s)%nat.
Proof.
  revert i; induction s as [|a s IH]; simpl; intros i H; [discriminate|].
  destruct (rfind c s) as [j|].
  - injection H as <-. specialize (IH j eq_refl). lia.
  - destruct (Ascii.eqb a c); [injection H as <-; lia | discriminate].
Qed.

Lemma drop_app_le (n : nat) (s1 s2 : string) :
  (n <= String.length s1)%nat -> drop n (s1 +:+ s2) = drop n s1 +:+ s2.
Proof.
  revert s1; induction n as [|n IH]; intros s1 H; [reflexivity|].
  destruct s1 as [|a s1]; simpl in *; [lia|].
  rewrite ?app_cons. simpl. apply IH. lia.
Qed.

Lemma drop_app_length (s1 s2 : string) (k : nat) :
  drop (String.length s1 + k) (s1 +:+ s2) = drop k s2.
Proof. by_string_induction s1 IH; [reflexivity | exact IH]. Qed.

Lemma take_app_length (s1 s2 : string) :
  take (String.length s1) (s1 +:+ s2) = s1.
Proof. by_string_induction s1 IH; [now destruct s2 | now rewrite IH]. Qed.

Lemma app_nonempty_r (s1 s2 : string) :
  s2 <> EmptyString -> String.eqb (s1 +:+ s2) EmptyString = false.
Proof.
  intros H. destruct s1; rewrite ?app_cons, ?app_nil; [|reflexivity].
  destruct s2; [congruence | reflexivity].
Qed.

(** The name of [base_clip.mp4] ends in [_clip.mp4], whatever [base] is. *)
Lemma name_clip (base : string) :
  exists t, name (base +:+ "_clip.mp4") = t +:+ "_clip.mp4".
Proof.
  unfold name. rewrite rfind_app. simpl (rfind "/" "_clip.mp4").
  destruct (rfind "/" base) as [i|] eqn:Hi.
  - exists (drop (S i) base). apply drop_app_le.
    apply rfind_lt in Hi. lia.
  - now exists base.
Qed.

Lemma suffix_clip (base : string) : suffix (base +:+ "_clip.mp4") = ".mp4".
Proof.
  unfold suffix. destruct (name_clip base) as [t ->].
  rewrite rfind_app. simpl (rfind "." "_clip.mp4"). cbv iota beta.
  rewrite length_app. simpl (String.length "_clip.mp4").
  replace ((0 <? String.length t + 5)%nat) with true
    by (symmetry; apply Nat.ltb_lt; lia).
  replace ((String.length t + 5 <? String.length t + 9 - 1)%nat) with true
    by (symmetry; apply Nat.ltb_lt; lia).
  simpl andb. cbv iota. now rewrite drop_app_length.
Qed.

(** Line 79 of clipper.py: [.mp4] becomes [.mp3], nothing else changes. *)
Lemma with_suffix_clip (base : string) :
  with_suffix (base +:+ "_clip.mp4") ".mp3" = Some (base +:+ "_clip.mp3").
Proof.
  unfold with_suffix. destruct (name_clip base) as [t Ht]. rewrite Ht.
  rewrite app_nonempty_r by discriminate.
  rewrite suffix_clip.
  change "_clip.mp4" with ("_clip" +:+ ".mp4").
  rewrite <- app_assoc, length_app. simpl (String.length ".mp4").
  replace (String.length (base +:+ "_clip") + 4 - 4)%nat
    with (String.length (base +:+ "_clip")) by lia.
  rewrite take_app_length. now rewrite app_assoc.
Qed.

End PathFacts.

(** ** Floats *)

Module FloatFacts.
Import PyFloat.

Lemma compare_cont_swap (p q : positive) :
  Pos.compare_cont Eq q p = CompOpp (Pos.compare_cont Eq p q).
Proof. apply (Pos.compare_antisym p q). Qed.

Lemma compare_swap (x y : spec_float) :
  SFcompare y x = option_map CompOpp (SFcompare x y).
Proof.
  destruct x as [sx|sx| |sx mx ex], y as [sy|sy| |sy my ey];
    try destruct sx; try destruct sy; try reflexivity; simpl;
    rewrite (Z.compare_antisym ex ey);
    destruct (ex ?= ey)%Z; simpl; try reflexivity;
    rewrite compare_cont_swap; now destruct (Pos.compare_cont Eq mx my).
Qed.

(** [x <= y] excludes [y < x]. *)
Lemma leb_not_ltb (x y : spec_float) : leb x y = true -> ltb y x = false.
Proof.
  unfold leb, ltb, SFleb, SFltb. rewrite (compare_swap x y).
  now destruct (SFcompare x y) as [[]|].
Qed.



End FloatFacts.

(** ** Running computations *)

Lemma bind_ok {A} (m : M A) (w w1 : World) (a : A) :
  m w = (Ok a, w1) -> forall B (k : A -> M B), bind m k w = k a w1.
Proof. unfold bind. now intros ->. Qed.

Lemma bind_raise {A} (m : M A) (w w1 : World) (e : exn) :
  m w = (Raise e, w1) -> forall B (k : A -> M B), bind m k w = (Raise e, w1).
Proof. unfold bind. now intros ->. Qed.

(** One step of a run: case on the outcome of the first computation of a
    [bind] and rewrite every [bind] that starts with it. *)
Ltac run_step :=
  match goal with
  | |- context [bind ?m _ ?w] =>
      let H := fresh "Hrun" in
      destruct (m w) as [[?|?] ?] eqn:H;
      [ rewrite !(bind_ok m w _ _ H) | rewrite !(bind_raise m w _ _ H) ]
  end.

Lemma bind_ok_inv {A B} (m : M A) (k : A -> M B) (w w' : World) (b : B) :
  bind m k w = (Ok b, w') ->
  exists a w1, m w = (Ok a, w1) /\ k a w1 = (Ok b, w').
Proof.
  unfold bind. destruct (m w) as [[a|e] w1]; intros H; [eauto | discriminate].
Qed.

Lemma after_after (w : World) (evs1 evs2 : list event) (n1 n2 : nat) :
  after (after w evs1 n1) evs2 n2 = after w (evs1 ++ evs2) (n2 + n1).
Proof.
  unfold after; simpl. f_equal; [now rewrite <- List.app_assoc | lia].
Qed.

Lemma after_nil (w : World) : after w [] 0 = w.
Proof. destruct w; unfold after; simpl. now rewrite List.app_nil_r. Qed.

Lemma emit_after (ev : event) (w : World) : emit ev w = (Ok tt, after w [ev] 0).
Proof. reflexivity. Qed.

Section PipelineFacts.

Variable E : Engine.

(** *** External calls that succeed *)

Lemma open_media_ok (audio : bool) (p : string) (info : MediaInfo) (w : World) :
  probe E audio p = Some info ->
  open_media E audio p w =
    (Ok {| m_handle := next_handle w;
           m_origin := if audio then FromAudioFile p else FromVideoFile p;
           m_duration := mi_duration info; m_size := mi_size info |},
     after w [if audio then EvAudioFileClip (next_handle w) p
              else EvVideoFileClip (next_handle w) p] 1).
Proof.
  intros H. unfold open_media. rewrite H. now destruct audio.
Qed.

Lemma open_media_raise (audio : bool) (p : string) (w : World) :
  probe E audio p = None ->
  open_media E audio p w =
    (Raise (OtherError "OSError"),
     after w [EvFailed (if audio then "AudioFileClip" else "VideoFileClip")] 0).
Proof. intros H. unfold open_media. now rewrite H. Qed.

Lemma subclip_ok_run (c : MediaClip) (a b : spec_float) (w : World) :
  subclip_ok E c a b = true ->
  subclip E c a b w =
    (Ok {| m_handle := next_handle w;
           m_origin := SubclipOf (m_handle c) a b;
           m_duration := Some (PyFloat.sub b a); m_size := m_size c |},
     after w [EvSubclip (next_handle w) (m_handle c) a b] 1).
Proof.
  intros H. unfold subclip. now rewrite H.
Qed.

Lemma subclip_raise (c : MediaClip) (a b : spec_float) (w : World) :
  subclip_ok E c a b = false ->
  subclip E c a b w =
    (Raise (OtherError "ValueError"), after w [EvFailed "subclip"] 0).
Proof. intros H. unfold subclip. now rewrite H. Qed.

Lemma write_run (audio : bool) (c : MediaClip) (p : string) (w : World) :
  (if audio then write_audiofile E c p else write_videofile E c p) w =
    (if write_ok E audio c p then Ok tt else Raise (OtherError "OSError"),
     after w [if audio then EvWriteAudiofile (m_handle c) p
              else EvWriteVideofile (m_handle c) p] 0).
Proof.
  destruct audio; unfold write_audiofile, write_videofile, bind;
    rewrite emit_after; now destruct (write_ok E _ c p).
Qed.

Lemma close_run (c : MediaClip) (w : World) :
  close c w = (Ok tt, after w [EvClose (m_handle c)] 0).
Proof. reflexivity. Qed.

Lemma target_of_excerpt_path (output_dir : string) (audio_only : bool)
    (clip : VideoClip) :
  target_of output_dir audio_only clip =
    Some (excerpt_path output_dir audio_only clip).
Proof.
  unfold target_of, excerpt_path, PyPath.join. destruct audio_only; [|reflexivity].
  rewrite <- !PathFacts.app_assoc. rewrite PathFacts.with_suffix_clip.
  reflexivity.
Qed.

End PipelineFacts.

(** ** The start of an excerpt *)

Section StartOffset.

Variable E : Engine.

(** An unknown or short duration puts the start at 0, without a draw
    from the random generator and without an exception. *)
Lemma start_offset_short (duration : option spec_float)
    (clip_duration : spec_float) (start_strategy : string) (w : World) :
  match duration with
  | None => True
  | Some d => PyFloat.ltb d clip_duration = true
  end ->
  start_offset E duration clip_duration start_strategy w = (Ok PyFloat.zero, w).
Proof.
  unfold start_offset. destruct duration as [d|]; [|reflexivity].
  now intros ->.
Qed.

(** Any strategy that is not ["random"] takes the [else] of line 73. *)
Lemma start_offset_not_random (duration : option spec_float)
    (clip_duration : spec_float) (start_strategy : string) (w : World) :
  start_strategy <> "random" ->
  start_offset E duration clip_duration start_strategy w = (Ok PyFloat.zero, w).
Proof.
  intros H. apply String.eqb_neq in H.
  unfold start_offset. rewrite H.
  destruct duration as [d|]; [|reflexivity].
  now destruct (PyFloat.ltb d clip_duration).
Qed.

Lemma clip_loop_not_random (clip_duration : spec_float) (output_dir : string)
    (start_strategy : string) (audio_only : bool) :
  start_strategy <> "random" ->
  forall (clips : list VideoClip) (generated_files : list string) (w : World),
    clip_loop E clip_duration output_dir start_strategy audio_only
      clips generated_files w =
    clip_loop E clip_duration output_dir "start" audio_only
      clips generated_files w.
Proof.
  intros H. induction clips as [|clip rest IH]; intros acc w; [reflexivity|].
  simpl. run_step; [|reflexivity].
  rewrite !(bind_ok _ _ _ _ (start_offset_not_random _ _ start_strategy _ H)).
  rewrite !(bind_ok _ _ _ _
              (start_offset_not_random _ _ "start" _ ltac:(discriminate))).
  run_step; [|reflexivity].
  destruct (target_of output_dir audio_only clip) as [t|]; [|reflexivity].
  run_step; [|reflexivity].
  rewrite !(bind_ok _ _ _ _ (close_run _ _)).
  apply IH.
Qed.

End StartOffset.

(** * Parameter checks *)

(** C6.  A [clip_duration] that is zero or negative makes [clip_videos]
    raise its [ClipGenerationError] "clip_duration must be a positive number"
    (the invalid-parameter failure of the generator) as its first action:
    the world is returned as it was received, so no source file was opened,
    no directory was made and nothing was written. *)
Theorem clip_videos_rejects_nonpositive_duration
    (E : Engine) (clip_duration : spec_float) (output_dir start_strategy : string)
    (audio_only : bool) (clips : list VideoClip) (w : World) :
  PyFloat.leb clip_duration PyFloat.zero = true ->
  clip_videos E clip_duration output_dir start_strategy audio_only clips w =
    (Raise (ClipGenerationError "clip_duration must be a positive number"), w).
Proof. intros H. unfold clip_videos. now rewrite H. Qed.

Lemma clip_videos_rejects_nonpositive_duration_witness :
  PyFloat.leb (SFopp Examples.ten) PyFloat.zero = true /\
  clip_videos (Examples.cooperative (Some Examples.twenty)) (SFopp Examples.ten)
    "clips" "random" false [Examples.item "abc123"] Examples.empty_world =
    (Raise (ClipGenerationError "clip_duration must be a positive number"),
     Examples.empty_world).
Proof.
  split; [reflexivity|].
  apply (clip_videos_rejects_nonpositive_duration
           (Examples.cooperative (Some Examples.twenty)) (SFopp Examples.ten)).
  reflexivity.
Defined.

(** C7.  [build_blindtest] with no clips raises its [AssemblyError]
    "No clips were provided for assembly" (the empty-input failure), and with
    clips and a negative [silence_duration] it raises
    "silence_duration must be zero or greater" (the invalid-parameter
    failure).  In both cases the world is returned as it was received: the
    parent directory of [output_path] was not made, no clip was opened and
    nothing was rendered. *)
Theorem build_blindtest_rejects_bad_input
    (E : Engine) (output_path : string) (silence_duration : spec_float)
    (audio_only : bool) :
  (forall w : World,
     build_blindtest E output_path silence_duration audio_only [] w =
       (Raise (AssemblyError "No clips were provided for assembly"), w)) /\
  (forall (clips : list string) (w : World),
     clips <> [] ->
     PyFloat.ltb silence_duration PyFloat.zero = true ->
     build_blindtest E output_path silence_duration audio_only clips w =
       (Raise (AssemblyError "silence_duration must be zero or greater"), w)).
Proof.
  split; [reflexivity|].
  intros [|c clips] w Hne Hneg; [congruence|].
  unfold build_blindtest. now rewrite Hneg.
Qed.

Lemma build_blindtest_rejects_bad_input_witness :
  build_blindtest (Examples.cooperative None) "out/blindtest.mp4"
    (SFopp PyFloat.one) true [] Examples.empty_world =
    (Raise (AssemblyError "No clips were provided for assembly"),
     Examples.empty_world) /\
  build_blindtest (Examples.cooperative None) "out/blindtest.mp4"
    (SFopp PyFloat.one) true ["clips/abc123_clip.mp3"] Examples.empty_world =
    (Raise (AssemblyError "silence_duration must be zero or greater"),
     Examples.empty_world).
Proof.
  split.
  - apply (proj1 (build_blindtest_rejects_bad_input
                    (Examples.cooperative None) "out/blindtest.mp4"
                    (SFopp PyFloat.one) true)).
  - apply (proj2 (build_blindtest_rejects_bad_input
                    (Examples.cooperative None) "out/blindtest.mp4"
                    (SFopp PyFloat.one) true)); [discriminate | reflexivity].
Defined.

(** * Start offsets *)

(** C10.  A [start_strategy] that is not ["random"] -- ["start"] or any
    other string -- gives, for an item whose duration is known and at least
    [clip_duration], the start offset 0, without an exception; and the whole
    of [clip_videos] then runs exactly as it does with ["start"]. *)
Theorem unknown_strategy_starts_at_zero
    (E : Engine) (d clip_duration : spec_float) (start_strategy : string) :
  start_strategy <> "random" ->
  PyFloat.leb clip_duration d = true ->
  (forall w : World,
     start_offset E (Some d) clip_duration start_strategy w =
       (Ok PyFloat.zero, w) /\
     start_offset E (Some d) clip_duration start_strategy w =
       start_offset E (Some d) clip_duration "start" w) /\
  (forall (output_dir : string) (audio_only : bool) (clips : list VideoClip)
          (w : World),
     clip_videos E clip_duration output_dir start_strategy audio_only clips w =
     clip_videos E clip_duration output_dir "start" audio_only clips w).
Proof.
  intros Hs Hd. split.
  - intros w. rewrite start_offset_not_random by exact Hs.
    now rewrite start_offset_not_random by discriminate.
  - intros output_dir audio_only clips w. unfold clip_videos.
    destruct (PyFloat.leb clip_duration PyFloat.zero); [reflexivity|].
    run_step; [|reflexivity]. run_step; [|reflexivity].
    now apply clip_loop_not_random.
Qed.

Lemma unknown_strategy_starts_at_zero_witness :
  "middle" <> "random" /\
  PyFloat.leb Examples.ten Examples.twenty = true /\
  start_offset (Examples.cooperative (Some Examples.twenty))
    (Some Examples.twenty) Examples.ten "middle" Examples.empty_world =
    (Ok PyFloat.zero, Examples.empty_world).
Proof.
  split; [discriminate|]. split; [reflexivity|].
  apply (proj1 (unknown_strategy_starts_at_zero
                  (Examples.cooperative (Some Examples.twenty))
                  Examples.twenty Examples.ten "middle"
                  ltac:(discriminate) eq_refl)).
Defined.

(** C5.  When the engine reports no duration for an item, or one that is
    less than [clip_duration], the start offset is 0 under every strategy and
    the code raises nothing of its own.  It does not shorten the excerpt to
    the media either: it asks the engine for the cut from 0 to
    [0 + clip_duration], which ends after the media.  The loop goes on with
    the next item when the engine makes and writes this cut, and ends with
    the exception of the engine when the engine refuses it. *)
Theorem short_media_starts_at_zero
    (E : Engine) (clip_duration : spec_float) (output_dir start_strategy : string)
    (audio_only : bool) (clip : VideoClip) (rest : list VideoClip)
    (generated_files : list string) (info : MediaInfo) (w : World) :
  let h := next_handle w in
  let media_clip :=
    {| m_handle := h;
       m_origin := if audio_only then FromAudioFile (file_path clip)
                   else FromVideoFile (file_path clip);
       m_duration := mi_duration info; m_size := mi_size info |} in
  let t_end := PyFloat.add PyFloat.zero clip_duration in
  let sub :=
    {| m_handle := S h; m_origin := SubclipOf h PyFloat.zero t_end;
       m_duration := Some (PyFloat.sub t_end PyFloat.zero);
       m_size := mi_size info |} in
  let target := excerpt_path output_dir audio_only clip in
  let opened :=
    if audio_only then EvAudioFileClip h (file_path clip)
    else EvVideoFileClip h (file_path clip) in
  let written :=
    if audio_only then EvWriteAudiofile (S h) target
    else EvWriteVideofile (S h) target in
  probe E audio_only (file_path clip) = Some info ->
  match mi_duration info with
  | None => True
  | Some d => PyFloat.ltb d clip_duration = true
  end ->
  (forall w0 : World,
     start_offset E (mi_duration info) clip_duration start_strategy w0 =
       (Ok PyFloat.zero, w0)) /\
  (subclip_ok E media_clip PyFloat.zero t_end = true ->
   write_ok E audio_only sub target = true ->
   clip_loop E clip_duration output_dir start_strategy audio_only
     (clip :: rest) generated_files w =
   clip_loop E clip_duration output_dir start_strategy audio_only
     rest (generated_files ++ [target])
     (after w
        [ opened; EvSubclip (S h) h PyFloat.zero t_end; written;
          EvClose h; EvClose (S h) ] 2)) /\
  (subclip_ok E media_clip PyFloat.zero t_end = false ->
   clip_loop E clip_duration output_dir start_strategy audio_only
     (clip :: rest) generated_files w =
   (Raise (OtherError "ValueError"),
    after w [opened; EvFailed "subclip"] 1)) /\
  (subclip_ok E media_clip PyFloat.zero t_end = true ->
   write_ok E audio_only sub target = false ->
   clip_loop E clip_duration output_dir start_strategy audio_only
     (clip :: rest) generated_files w =
   (Raise (OtherError "OSError"),
    after w [opened; EvSubclip (S h) h PyFloat.zero t_end; written] 2)).
Proof.
  intros h media_clip t_end sub target opened written Hprobe Hshort.
  split; [intros w0; now apply start_offset_short|].
  split; [|split].
  - intros Hsub Hwrite. simpl clip_loop.
    rewrite (bind_ok _ _ _ _ (open_media_ok E _ _ _ w Hprobe)).
    rewrite (bind_ok _ _ _ _
               (start_offset_short E _ clip_duration start_strategy _ Hshort)).
    rewrite (bind_ok _ _ _ _ (subclip_ok_run E _ _ _ _ Hsub)).
    rewrite target_of_excerpt_path.
    pose proof (write_run E audio_only sub target) as Hw.
    fold target in Hw |- *. rewrite Hwrite in Hw.
    rewrite (bind_ok _ _ _ _ (Hw _)).
    rewrite !(bind_ok _ _ _ _ (close_run _ _)).
    rewrite !after_after. simpl. unfold opened, written.
    now destruct audio_only.
  - intros Hsub. simpl clip_loop.
    rewrite (bind_ok _ _ _ _ (open_media_ok E _ _ _ w Hprobe)).
    rewrite (bind_ok _ _ _ _
               (start_offset_short E _ clip_duration start_strategy _ Hshort)).
    rewrite (bind_raise _ _ _ _ (subclip_raise E _ _ _ _ Hsub)).
    rewrite !after_after. simpl. unfold opened. now destruct audio_only.
  - intros Hsub Hwrite. simpl clip_loop.
    rewrite (bind_ok _ _ _ _ (open_media_ok E _ _ _ w Hprobe)).
    rewrite (bind_ok _ _ _ _
               (start_offset_short E _ clip_duration start_strategy _ Hshort)).
    rewrite (bind_ok _ _ _ _ (subclip_ok_run E _ _ _ _ Hsub)).
    rewrite target_of_excerpt_path.
    pose proof (write_run E audio_only sub target) as Hw.
    fold target in Hw |- *. rewrite Hwrite in Hw.
    rewrite (bind_raise _ _ _ _ (Hw _)).
    rewrite !after_after. simpl. unfold opened, written.
    now destruct audio_only.
Qed.

Lemma short_media_starts_at_zero_witness :
  PyFloat.ltb Examples.five Examples.ten = true /\
  clip_loop (Examples.cooperative (Some Examples.five)) Examples.ten "clips"
    "random" true [Examples.item "abc123"] [] Examples.empty_world =
    (Ok ["clips/abc123_clip.mp3"],
     after Examples.empty_world
       [ EvAudioFileClip 0 "downloads/abc123.mp4";
         EvSubclip 1 0 PyFloat.zero Examples.ten;
         EvWriteAudiofile 1 "clips/abc123_clip.mp3";
         EvClose 0; EvClose 1 ] 2).
Proof.
  split; [reflexivity|].
  apply (proj1 (proj2 (short_media_starts_at_zero
                  (Examples.cooperative (Some Examples.five)) Examples.ten
                  "clips" "random" true (Examples.item "abc123") [] []
                  {| mi_duration := Some Examples.five;
                     mi_size := (640, 480)%Z |}
                  Examples.empty_world eq_refl eq_refl)) eq_refl eq_refl).
Defined.

(** C5, as the specification states it, fails: for a file of five seconds
    and excerpts of ten, with an engine that cannot write a clip that is
    longer than its file, [clip_videos] starts the excerpt at 0, asks for
    the ten seconds, and ends with the [OSError] of the write: the item is
    not processed and the loop does not go on. *)
Lemma short_media_is_not_clamped :
  PyFloat.ltb Examples.five Examples.ten = true /\
  clip_videos Examples.five_second_files Examples.ten "clips" "random" false
    [Examples.item "abc123"; Examples.item "def456"] Examples.empty_world =
  (Raise (OtherError "OSError"),
   {| trace := [ EvMkdir "clips";
                 EvVideoFileClip 0 "downloads/abc123.mp4";
                 EvSubclip 1 0 PyFloat.zero Examples.ten;
                 EvWriteVideofile 1 "clips/abc123_clip.mp4" ];
      next_handle := 2; dirs := {[ "clips" ]} ∪ ∅; draws := 0 |}).
Proof. split; vm_compute; reflexivity. Qed.

(** * What a run adds to the trace *)

Section Emits.

Context {A B : Type} (P : event -> Prop).

Lemma emits_ret (a : A) : emits P (ret a).
Proof.
  intros w r w' [= <- <-]. exists []. now rewrite List.app_nil_r.
Qed.

Lemma emits_raise (e : exn) : emits P (@raise A e).
Proof.
  intros w r w' [= <- <-]. exists []. now rewrite List.app_nil_r.
Qed.

Lemma emits_bind (m : M A) (k : A -> M B) :
  emits P m -> (forall a, emits P (k a)) -> emits P (bind m k).
Proof.
  intros Hm Hk w r w' H. unfold bind in H.
  destruct (m w) as [[a|e] w1] eqn:Hmw.
  - destruct (Hm _ _ _ Hmw) as (evs1 & Ht1 & HP1).
    destruct (Hk a _ _ _ H) as (evs2 & Ht2 & HP2).
    exists (evs1 ++ evs2). split.
    + now rewrite Ht2, Ht1, List.app_assoc.
    + now apply Forall_app.
  - injection H as <- <-. exact (Hm _ _ _ Hmw).
Qed.

End Emits.

Section EmitsCalls.

Context (P : event -> Prop).

Lemma emits_emit (ev : event) : P ev -> emits P (emit ev).
Proof. intros HP w r w' [= <- <-]. exists [ev]. split; [reflexivity | auto]. Qed.

Lemma emits_fresh : emits P fresh.
Proof. intros w r w' [= <- <-]. exists []. simpl. now rewrite List.app_nil_r. Qed.

Lemma emits_mkdir (p : string) : P (EvMkdir p) -> emits P (mkdir p).
Proof. intros HP w r w' [= <- <-]. exists [EvMkdir p]. split; [reflexivity | auto]. Qed.

Lemma emits_rmtree (E : Engine) (p : string) :
  P (EvRmtree p) -> emits P (rmtree E p).
Proof.
  intros HP w r w'. unfold rmtree, bind, emit.
  destruct (rmtree_ok E p); intros [= <- <-];
    (exists [EvRmtree p]; split; [reflexivity | auto]).
Qed.

Lemma emits_path_exists (p : string) : emits P (path_exists p).
Proof. intros w r w' [= <- <-]. exists []. now rewrite List.app_nil_r. Qed.

Lemma emits_random_random (E : Engine) : emits P (random_random E).
Proof. intros w r w' [= <- <-]. exists []. simpl. now rewrite List.app_nil_r. Qed.

End EmitsCalls.

Create HintDb emits discriminated.
#[export] Hint Resolve emits_ret emits_raise emits_fresh emits_path_exists
  emits_random_random : emits.

(** Walks through a computation built from the calls above; what is left
    are the events themselves, to be checked against the predicate. *)
Ltac emits_walk :=
  repeat first
    [ apply emits_ret | apply emits_raise | apply emits_fresh
    | apply emits_path_exists | apply emits_random_random
    | apply emits_emit | apply emits_mkdir | apply emits_rmtree
    | apply emits_bind; [|intros ?]
    | match goal with
      | |- emits _ (if ?b then _ else _) => destruct b
      | |- emits _ (match ?x with _ => _ end) => destruct x
      end ].

Section AudioOnly.

Variable E : Engine.

Lemma clip_loop_audio_only (clip_duration : spec_float)
    (output_dir start_strategy : string) (clips : list VideoClip) :
  forall generated_files : list string,
    emits not_write_video
      (clip_loop E clip_duration output_dir start_strategy true
         clips generated_files).
Proof.
  induction clips as [|clip rest IH]; intros acc; simpl.
  - apply emits_ret.
  - unfold open_media, start_offset, random_uniform, subclip,
      write_audiofile, close.
    emits_walk; try reflexivity; apply IH.
Qed.

Lemma clip_videos_audio_only (clip_duration : spec_float)
    (output_dir start_strategy : string) (clips : list VideoClip) :
  emits not_write_video
    (clip_videos E clip_duration output_dir start_strategy true clips).
Proof.
  unfold clip_videos, clipper_load_moviepy.
  emits_walk; try reflexivity. apply clip_loop_audio_only.
Qed.

Lemma assemble_loop_audio_only (silence_duration : spec_float)
    (clips : list string) :
  forall assembled_clips : list MediaClip,
    emits not_write_video
      (assemble_loop E silence_duration true clips assembled_clips).
Proof.
  induction clips as [|p rest IH]; intros acc; simpl.
  - apply emits_ret.
  - unfold open_media, audio_clip.
    emits_walk; try reflexivity; apply IH.
Qed.

Lemma close_all_emits (P : event -> Prop) (cs : list MediaClip) :
  (forall h, P (EvClose h)) -> emits P (close_all cs).
Proof.
  intros HP. induction cs as [|c cs IH]; simpl.
  - apply emits_ret.
  - apply emits_bind; [apply emits_emit, HP | intros _; exact IH].
Qed.

Lemma build_blindtest_audio_only (output_path : string)
    (silence_duration : spec_float) (clips : list string) :
  emits not_write_video
    (build_blindtest E output_path silence_duration true clips).
Proof.
  unfold build_blindtest, assembler_load_moviepy, concatenate,
    write_audiofile, close.
  destruct clips as [|c clips]; [apply emits_raise|].
  destruct (PyFloat.ltb silence_duration PyFloat.zero); [apply emits_raise|].
  apply emits_bind; [emits_walk|intros _].
  apply emits_bind; [emits_walk; reflexivity|intros _].
  apply emits_bind; [apply assemble_loop_audio_only|intros segs].
  apply emits_bind; [emits_walk; reflexivity|intros final].
  apply emits_bind; [emits_walk; reflexivity|intros _].
  apply emits_bind; [now apply close_all_emits|intros _].
  emits_walk; reflexivity.
Qed.

End AudioOnly.

(** * Handles that are released *)

Lemma filter_nil_iff {X} (f : X -> bool) (l : list X) :
  List.filter f l = [] <-> forall x, In x l -> f x = false.
Proof.
  induction l as [|x l IH]; simpl.
  - split; [intros _ y [] | reflexivity].
  - destruct (f x) eqn:Hx; split.
    + discriminate.
    + intros H. specialize (H x (or_introl eq_refl)). congruence.
    + intros H y [<-|Hy]; [exact Hx | now apply IH].
    + intros H. apply IH. intros y Hy. apply H. now right.
Qed.

Lemma nodup_nil_iff {X} (dec : forall x y : X, {x = y} + {x <> y}) (l : list X) :
  nodup dec l = [] <-> l = [].
Proof.
  split; [|now intros ->].
  destruct l as [|x l]; [reflexivity|]. intros H.
  assert (Hin : In x (nodup dec (x :: l))) by (apply nodup_In; now left).
  rewrite H in Hin. destruct Hin.
Qed.

Lemma leaked_nil_iff (evs : list event) : leaked evs = [] <-> balanced evs.
Proof.
  unfold leaked, balanced. rewrite nodup_nil_iff, filter_nil_iff.
  split; intros H h Hh; specialize (H h Hh).
  - now apply negb_false_iff in H.
  - now rewrite H.
Qed.

Lemma new_events_app {A} (m : M A) (w : World) (evs : list event) :
  trace (snd (m w)) = trace w ++ evs -> new_events m w = evs.
Proof.
  intros H. unfold new_events. rewrite H.
  rewrite skipn_app, skipn_all, Nat.sub_diag. reflexivity.
Qed.

Lemma balanced_nil : balanced [].
Proof. intros h []. Qed.

Lemma balanced_app (evs1 evs2 : list event) :
  balanced evs1 -> balanced evs2 -> balanced (evs1 ++ evs2).
Proof.
  intros H1 H2 h Hh. rewrite flat_map_app in Hh. rewrite existsb_app.
  apply in_app_or in Hh as [Hh|Hh].
  - now rewrite (H1 h Hh).
  - rewrite (H2 h Hh). apply orb_true_r.
Qed.

Lemma closes_refl (h : nat) : closes h (EvClose h) = true.
Proof. apply Nat.eqb_refl. Qed.

Lemma existsb_closes_in (h : nat) (evs : list event) :
  In (EvClose h) evs -> existsb (closes h) evs = true.
Proof.
  intros H. apply existsb_exists. exists (EvClose h). split; [exact H|].
  apply closes_refl.
Qed.

(** * Runs that return *)

Section ReturningRuns.

Variable E : Engine.

Lemma open_media_ok_inv (audio : bool) (p : string) (w w' : World)
    (c : MediaClip) :
  open_media E audio p w = (Ok c, w') ->
  exists info,
    probe E audio p = Some info /\
    c = {| m_handle := next_handle w;
           m_origin := if audio then FromAudioFile p else FromVideoFile p;
           m_duration := mi_duration info; m_size := mi_size info |} /\
    w' = after w [if audio then EvAudioFileClip (next_handle w) p
                  else EvVideoFileClip (next_handle w) p] 1.
Proof.
  destruct (probe E audio p) as [info|] eqn:Hp.
  - rewrite (open_media_ok E audio p info w Hp). intros [= <- <-]. eauto.
  - rewrite (open_media_raise E audio p w Hp). discriminate.
Qed.

Lemma subclip_ok_inv (c : MediaClip) (a b : spec_float) (w w' : World)
    (sc : MediaClip) :
  subclip E c a b w = (Ok sc, w') ->
  subclip_ok E c a b = true /\
  sc = {| m_handle := next_handle w; m_origin := SubclipOf (m_handle c) a b;
          m_duration := Some (PyFloat.sub b a); m_size := m_size c |} /\
  w' = after w [EvSubclip (next_handle w) (m_handle c) a b] 1.
Proof.
  destruct (subclip_ok E c a b) eqn:Hs.
  - rewrite (subclip_ok_run E c a b w Hs). intros [= <- <-]. auto.
  - rewrite (subclip_raise E c a b w Hs). discriminate.
Qed.

Lemma write_ok_inv (audio : bool) (c : MediaClip) (p : string) (w w' : World) :
  (if audio then write_audiofile E c p else write_videofile E c p) w
    = (Ok tt, w') ->
  write_ok E audio c p = true /\
  w' = after w [if audio then EvWriteAudiofile (m_handle c) p
                else EvWriteVideofile (m_handle c) p] 0.
Proof.
  rewrite write_run. destruct (write_ok E audio c p); [|discriminate].
  now intros [= <-].
Qed.

Lemma concatenate_ok_inv (audio : bool) (cs : list MediaClip) (w w' : World)
    (f : MediaClip) :
  concatenate E audio cs w = (Ok f, w') ->
  concat_ok E audio cs = true /\
  m_handle f = next_handle w /\
  w' = after w [if audio
                then EvConcatenateAudioclips (next_handle w) (map m_handle cs)
                else EvConcatenateVideoclips (next_handle w) (map m_handle cs)] 1.
Proof.
  unfold concatenate. destruct (concat_ok E audio cs); [|discriminate].
  destruct audio; now intros [= <- <-].
Qed.

(** Choosing the start makes no external call and never raises. *)
Lemma start_offset_run (duration : option spec_float)
    (clip_duration : spec_float) (start_strategy : string) (w : World) :
  exists start w',
    start_offset E duration clip_duration start_strategy w = (Ok start, w') /\
    trace w' = trace w /\ dirs w' = dirs w /\ next_handle w' = next_handle w.
Proof.
  unfold start_offset.
  destruct duration as [d|]; [|now exists PyFloat.zero, w].
  destruct (PyFloat.ltb d clip_duration); [now exists PyFloat.zero, w|].
  destruct (String.eqb start_strategy "random"); [|now exists PyFloat.zero, w].
  unfold random_uniform, random_random, bind, ret.
  do 2 eexists. split; [reflexivity | simpl; auto].
Qed.

Lemma close_all_run (cs : list MediaClip) (w : World) :
  close_all cs w = (Ok tt, after w (map (fun c => EvClose (m_handle c)) cs) 0).
Proof.
  revert w; induction cs as [|c cs IH]; intros w; simpl.
  - unfold ret. now rewrite after_nil.
  - rewrite (bind_ok _ _ _ _ (close_run c w)). rewrite IH, after_after.
    reflexivity.
Qed.

Lemma mkdir_run (p : string) (w : World) :
  mkdir p w =
    (Ok tt, {| trace := trace w ++ [EvMkdir p]; next_handle := next_handle w;
               dirs := {[ p ]} ∪ dirs w; draws := draws w |}).
Proof. reflexivity. Qed.

(** The loop of [clip_videos], when it returns: one file per item, in the
    order of the items, and every handle it opened is closed. *)
Lemma clip_loop_ok (clip_duration : spec_float)
    (output_dir start_strategy : string) (audio_only : bool) :
  forall (clips : list VideoClip) (generated_files : list string)
         (w w' : World) (files : list string),
    clip_loop E clip_duration output_dir start_strategy audio_only
      clips generated_files w = (Ok files, w') ->
    files = generated_files ++ map (excerpt_path output_dir audio_only) clips /\
    exists evs,
      trace w' = trace w ++ evs /\ balanced evs /\
      written_files evs = map (excerpt_path output_dir audio_only) clips.
Proof.
  induction clips as [|clip rest IH]; intros acc w w' files H; simpl in H.
  - injection H as <- <-. rewrite !List.app_nil_r. split; [reflexivity|].
    exists []. rewrite List.app_nil_r.
    split; [reflexivity | split; [apply balanced_nil | reflexivity]].
  - apply bind_ok_inv in H as (c & w1 & Hopen & H).
    apply open_media_ok_inv in Hopen as (info & _ & Hc & ->).
    destruct (start_offset_run (m_duration c) clip_duration start_strategy
                (after w [if audio_only
                          then EvAudioFileClip (next_handle w) (file_path clip)
                          else EvVideoFileClip (next_handle w) (file_path clip)] 1))
      as (start & w2 & Hstart & Ht2 & _ & _).
    rewrite (bind_ok _ _ _ _ Hstart) in H.
    apply bind_ok_inv in H as (sc & w3 & Hsub & H).
    apply subclip_ok_inv in Hsub as (_ & Hsc & ->).
    rewrite target_of_excerpt_path in H.
    apply bind_ok_inv in H as ([] & w4 & Hwrite & H).
    apply write_ok_inv in Hwrite as (_ & ->).
    rewrite !(bind_ok _ _ _ _ (close_run _ _)) in H.
    apply IH in H as (-> & evs & Ht & Hbal & Hwr).
    split; [now rewrite <- List.app_assoc|].
    rewrite !after_after in Ht. simpl in Ht. rewrite Ht2 in Ht. simpl in Ht.
    rewrite <- !List.app_assoc in Ht. eexists. split; [exact Ht|].
    split; [|simpl; rewrite Hwr; now destruct audio_only].
    apply (balanced_app [_; _; _; _; _]); [|exact Hbal].
    assert (Hh : m_handle c = next_handle w) by now rewrite Hc.
    assert (Hh' : m_handle sc = next_handle w2) by now rewrite Hsc.
    rewrite Hh, Hh'.
    intros h Hin. simpl.
    destruct audio_only; simpl in Hin;
      destruct Hin as [<-|[<-|[]]]; rewrite !Nat.eqb_refl;
      now rewrite ?orb_true_r.
Qed.

End ReturningRuns.

Section Totality.

Variable E : Engine.

(** With an engine that opens, cuts and writes every item, the loop of
    [clip_videos] returns. *)
Lemma clip_loop_returns (clip_duration : spec_float)
    (output_dir start_strategy : string) (audio_only : bool)
    (clips : list VideoClip) :
  (forall c, In c clips -> probe E audio_only (file_path c) <> None) ->
  (forall c a b, subclip_ok E c a b = true) ->
  (forall c p, write_ok E audio_only c p = true) ->
  forall (generated_files : list string) (w : World),
  exists files w',
    clip_loop E clip_duration output_dir start_strategy audio_only
      clips generated_files w = (Ok files, w').
Proof.
  intros Hprobe Hsub Hwrite.
  induction clips as [|clip rest IH]; intros acc w; simpl.
  - now exists acc, w.
  - destruct (probe E audio_only (file_path clip)) as [info|] eqn:Hp;
      [|now destruct (Hprobe clip (or_introl eq_refl))].
    rewrite (bind_ok _ _ _ _ (open_media_ok E _ _ _ w Hp)).
    match goal with
    | |- context [bind (start_offset E ?d ?cd ?s) _ ?w1] =>
        destruct (start_offset_run E d cd s w1) as (start & w2 & Hstart & _)
    end.
    rewrite (bind_ok _ _ _ _ Hstart).
    rewrite (bind_ok _ _ _ _ (subclip_ok_run E _ _ _ _ (Hsub _ _ _))).
    rewrite target_of_excerpt_path.
    match goal with
    | |- context [bind (if audio_only then write_audiofile E ?c ?p else _) _ ?w3] =>
        pose proof (write_run E audio_only c p w3) as Hw;
        rewrite (Hwrite c p) in Hw
    end.
    rewrite (bind_ok _ _ _ _ Hw).
    rewrite !(bind_ok _ _ _ _ (close_run _ _)).
    apply IH. intros c Hc. apply Hprobe. now right.
Qed.

End Totality.

(** * The timeline *)

Section Timeline.

Variable E : Engine.
Variables (silence_duration : spec_float) (audio_only : bool).

Lemma audio_clip_run (d : spec_float) (w : World) :
  audio_clip d w =
    (Ok {| m_handle := next_handle w; m_origin := SilentAudio d;
           m_duration := Some d; m_size := (0, 0)%Z |},
     after w [EvAudioClip (next_handle w) d] 1).
Proof. reflexivity. Qed.

Lemma color_clip_run (size : Z * Z) (d : spec_float) (w : World) :
  color_clip size d w =
    (Ok {| m_handle := next_handle w; m_origin := Color size d;
           m_duration := Some d; m_size := size |},
     after w [EvColorClip (next_handle w) size d] 1).
Proof. reflexivity. Qed.

Lemma set_audio_run (c a : MediaClip) (w : World) :
  set_audio c a w =
    (Ok {| m_handle := next_handle w;
           m_origin := match m_origin c with
                       | Color size d =>
                           ColorWithAudio size d (m_handle c) (m_handle a)
                       | o => o
                       end;
           m_duration := m_duration c; m_size := m_size c |},
     after w [EvSetAudio (next_handle w) (m_handle c) (m_handle a)] 1).
Proof. reflexivity. Qed.

(** The loop of [build_blindtest], when it returns: the segments it added,
    what they are on the timeline, and the handles it was given. *)
Lemma assemble_loop_ok :
  forall (clips : list string) (assembled_clips : list MediaClip)
         (w w' : World) (segs : list MediaClip),
    assemble_loop E silence_duration audio_only clips assembled_clips w
      = (Ok segs, w') ->
    exists new evs,
      segs = assembled_clips ++ new /\
      map segment_of new
        = flat_map (segments_of_excerpt silence_duration) clips /\
      trace w' = trace w ++ evs /\
      dirs w' = dirs w /\
      incl (flat_map handles_of evs) (map m_handle new) /\
      Forall (fun ev => forall h, ev <> EvClose h) evs.
Proof.
  induction clips as [|p rest IH]; intros acc w w' segs H; simpl in H.
  - injection H as <- <-. exists [], []. rewrite !List.app_nil_r.
    repeat split; auto. intros h [].
  - change (flat_map (segments_of_excerpt silence_duration) (p :: rest))
      with (segments_of_excerpt silence_duration p
            ++ flat_map (segments_of_excerpt silence_duration) rest).
    destruct (PyFloat.truthy silence_duration) eqn:Htr;
      unfold segments_of_excerpt at 1; rewrite Htr;
      destruct audio_only;
      apply bind_ok_inv in H as (c & w1 & Hopen & H);
      apply open_media_ok_inv in Hopen as (info & _ & -> & ->);
      rewrite ?(bind_ok _ _ _ _ (color_clip_run _ _ _)) in H;
      rewrite ?(bind_ok _ _ _ _ (audio_clip_run _ _)) in H;
      rewrite ?(bind_ok _ _ _ _ (set_audio_run _ _ _)) in H;
      apply IH in H as (new & evs & -> & Hseg & Ht & Hd & Hincl & Hnc);
      rewrite ?after_after in Ht; simpl in Ht, Hd;
      rewrite <- ?List.app_assoc in Ht; simpl in Ht;
      do 2 eexists;
      (split; [rewrite <- ?List.app_assoc; reflexivity|]);
      (split; [simpl; now rewrite Hseg|]);
      (split; [exact Ht|]);
      (split; [exact Hd|]);
      (split;
       [ simpl; intros h [<-|Hh];
         [now left | right; try right; now apply Hincl]
       | repeat constructor; try discriminate; exact Hnc ]).
Qed.

(** With an engine that opens every excerpt, the loop returns. *)
Lemma assemble_loop_returns (clips : list string) :
  (forall p, In p clips -> probe E audio_only p <> None) ->
  forall (assembled_clips : list MediaClip) (w : World),
  exists segs w',
    assemble_loop E silence_duration audio_only clips assembled_clips w
      = (Ok segs, w').
Proof.
  intros Hprobe.
  induction clips as [|p rest IH]; intros acc w; simpl.
  - now exists acc, w.
  - assert (Hrest : forall q, In q rest -> probe E audio_only q <> None)
      by (intros q Hq; apply Hprobe; now right).
    specialize (IH Hrest).
    destruct (probe E audio_only p) as [info|] eqn:Hp;
      [|now destruct (Hprobe p (or_introl eq_refl))].
    destruct audio_only;
      rewrite (bind_ok _ _ _ _ (open_media_ok E _ _ _ w Hp));
      destruct (PyFloat.truthy silence_duration);
      rewrite ?(bind_ok _ _ _ _ (color_clip_run _ _ _));
      rewrite ?(bind_ok _ _ _ _ (audio_clip_run _ _));
      rewrite ?(bind_ok _ _ _ _ (set_audio_run _ _ _));
      apply IH.
Qed.

End Timeline.

Section WholeCalls.

Variable E : Engine.

(** [clip_videos], when it returns. *)
Lemma clip_videos_ok (clip_duration : spec_float)
    (output_dir start_strategy : string) (audio_only : bool)
    (clips : list VideoClip) (w w' : World) (files : list string) :
  clip_videos E clip_duration output_dir start_strategy audio_only clips w
    = (Ok files, w') ->
  files = map (excerpt_path output_dir audio_only) clips /\
  exists evs,
    trace w' = trace w ++ EvMkdir output_dir :: evs /\ balanced evs /\
    written_files evs = map (excerpt_path output_dir audio_only) clips.
Proof.
  unfold clip_videos, clipper_load_moviepy.
  destruct (PyFloat.leb clip_duration PyFloat.zero); [discriminate|].
  destruct (moviepy_installed E); [|discriminate].
  rewrite (bind_ok _ _ _ _ (eq_refl : ret tt w = (Ok tt, w))).
  rewrite (bind_ok _ _ _ _ (mkdir_run output_dir w)).
  intros H. apply clip_loop_ok in H as (-> & evs & Ht & Hbal & Hwr).
  split; [reflexivity|]. exists evs. simpl in Ht.
  rewrite <- List.app_assoc in Ht. auto.
Qed.

(** With a valid duration, moviepy installed, and an engine that opens,
    cuts and writes every item, [clip_videos] returns. *)
Lemma clip_videos_returns (clip_duration : spec_float)
    (output_dir start_strategy : string) (audio_only : bool)
    (clips : list VideoClip) (w : World) :
  PyFloat.leb clip_duration PyFloat.zero = false ->
  moviepy_installed E = true ->
  (forall c, In c clips -> probe E audio_only (file_path c) <> None) ->
  (forall c a b, subclip_ok E c a b = true) ->
  (forall c p, write_ok E audio_only c p = true) ->
  exists files w',
    clip_videos E clip_duration output_dir start_strategy audio_only clips w
      = (Ok files, w').
Proof.
  intros Hd Hm Hp Hs Hw. unfold clip_videos, clipper_load_moviepy.
  rewrite Hd, Hm.
  rewrite (bind_ok _ _ _ _ (eq_refl : ret tt w = (Ok tt, w))).
  rewrite (bind_ok _ _ _ _ (mkdir_run output_dir w)).
  now apply clip_loop_returns.
Qed.

Lemma concatenate_ok_run (audio : bool) (cs : list MediaClip) (w : World) :
  concat_ok E audio cs = true ->
  concatenate E audio cs w =
    (Ok {| m_handle := next_handle w;
           m_origin := Concatenated audio (map m_handle cs);
           m_duration := None; m_size := (0, 0)%Z |},
     after w [if audio
              then EvConcatenateAudioclips (next_handle w) (map m_handle cs)
              else EvConcatenateVideoclips (next_handle w) (map m_handle cs)] 1).
Proof. intros H. unfold concatenate. rewrite H. now destruct audio. Qed.

(** [build_blindtest], when it returns: the calls it made, in order. *)
Lemma build_blindtest_ok (output_path : string) (silence_duration : spec_float)
    (audio_only : bool) (clips : list string) (w w' : World) (p : string) :
  build_blindtest E output_path silence_duration audio_only clips w
    = (Ok p, w') ->
  p = output_path /\
  exists segs evs hf,
    map segment_of segs
      = flat_map (segments_of_excerpt silence_duration) clips /\
    incl (flat_map handles_of evs) (map m_handle segs) /\
    Forall (fun ev => forall h, ev <> EvClose h) evs /\
    trace w' =
      trace w ++ EvMkdir (PyPath.parent output_path) :: evs ++
      [ if audio_only
        then EvConcatenateAudioclips hf (map m_handle segs)
        else EvConcatenateVideoclips hf (map m_handle segs);
        if audio_only then EvWriteAudiofile hf output_path
        else EvWriteVideofile hf output_path ] ++
      map (fun c => EvClose (m_handle c)) segs ++ [EvClose hf].
Proof.
  unfold build_blindtest, assembler_load_moviepy.
  destruct clips as [|c0 clips0]; [discriminate|].
  set (clips := c0 :: clips0).
  destruct (PyFloat.ltb silence_duration PyFloat.zero); [discriminate|].
  destruct (moviepy_installed E); [|discriminate].
  rewrite (bind_ok _ _ _ _ (eq_refl : ret tt w = (Ok tt, w))).
  rewrite (bind_ok _ _ _ _ (mkdir_run _ w)).
  intros H.
  apply bind_ok_inv in H as (segs & w1 & Hloop & H).
  apply assemble_loop_ok in Hloop as (new & evs & Hsegs & Hseg & Ht & _ & Hincl & Hnc).
  simpl in Hsegs. subst segs.
  apply bind_ok_inv in H as (final & w2 & Hcat & H).
  apply concatenate_ok_inv in Hcat as (_ & Hhf & ->).
  apply bind_ok_inv in H as ([] & w3 & Hwrite & H).
  apply write_ok_inv in Hwrite as (_ & ->).
  rewrite (bind_ok _ _ _ _ (close_all_run _ _)) in H.
  rewrite (bind_ok _ _ _ _ (close_run _ _)) in H.
  injection H as <- <-. split; [reflexivity|].
  exists new, evs, (next_handle w1).
  repeat (split; [assumption|]).
  rewrite !after_after. simpl. rewrite Ht, Hhf. simpl.
  rewrite <- !List.app_assoc. simpl.
  now destruct audio_only.
Qed.

Lemma build_blindtest_returns (output_path : string)
    (silence_duration : spec_float) (audio_only : bool)
    (clips : list string) (w : World) :
  clips <> [] ->
  PyFloat.ltb silence_duration PyFloat.zero = false ->
  moviepy_installed E = true ->
  (forall p, In p clips -> probe E audio_only p <> None) ->
  (forall cs, concat_ok E audio_only cs = true) ->
  (forall c p, write_ok E audio_only c p = true) ->
  exists w',
    build_blindtest E output_path silence_duration audio_only clips w
      = (Ok output_path, w').
Proof.
  intros Hne Hs Hm Hp Hc Hw. unfold build_blindtest, assembler_load_moviepy.
  destruct clips as [|c0 clips0]; [congruence|].
  rewrite Hs, Hm.
  rewrite (bind_ok _ _ _ _ (eq_refl : ret tt w = (Ok tt, w))).
  rewrite (bind_ok _ _ _ _ (mkdir_run _ w)).
  match goal with
  | |- context [bind (assemble_loop E ?sd ?ao ?cl ?acc) _ ?w1] =>
      destruct (assemble_loop_returns E sd ao cl Hp acc w1)
        as (segs & w2 & Hloop)
  end.
  rewrite (bind_ok _ _ _ _ Hloop).
  rewrite (bind_ok _ _ _ _ (concatenate_ok_run _ _ _ (Hc segs))).
  match goal with
  | |- context [bind (if audio_only then write_audiofile E ?c ?p else _) _ ?w3] =>
      pose proof (write_run E audio_only c p w3) as Hwr;
      rewrite (Hw c p) in Hwr
  end.
  rewrite (bind_ok _ _ _ _ Hwr).
  rewrite (bind_ok _ _ _ _ (close_all_run _ _)).
  rewrite (bind_ok _ _ _ _ (close_run _ _)).
  eexists. reflexivity.
Qed.

End WholeCalls.

(** ** Reading the timeline off the calls *)

Lemma flat_map_step {X Y} (f : X -> list Y) (x : X) (l : list X) :
  flat_map f (x :: l) = f x ++ flat_map f l.
Proof. reflexivity. Qed.

Lemma made_by_found (evs1 evs2 : list event) (h : nat) (ev : event) :
  made_by evs1 h = Some ev -> made_by (evs1 ++ evs2) h = Some ev.
Proof.
  unfold made_by. induction evs1 as [|e evs1 IH]; cbn; [discriminate|].
  destruct (makes h e); auto.
Qed.

Lemma made_by_skip (evs1 evs2 : list event) (h : nat) :
  (forall ev, In ev evs1 -> makes h ev = false) ->
  made_by (evs1 ++ evs2) h = made_by evs2 h.
Proof.
  unfold made_by. induction evs1 as [|e evs1 IH]; cbn; intros H; [reflexivity|].
  rewrite (H e (or_introl eq_refl)). apply IH. intros ev Hin. apply H. now right.
Qed.

Lemma made_by_makes (evs : list event) (h : nat) (ev : event) :
  made_by evs h = Some ev -> In ev evs /\ makes h ev = true.
Proof. apply find_some. Qed.

Lemma makes_within_app (lo mid hi : nat) (evs1 evs2 : list event) :
  lo <= mid -> mid <= hi ->
  makes_within lo mid evs1 -> makes_within mid hi evs2 ->
  makes_within lo hi (evs1 ++ evs2).
Proof.
  intros H1 H2 Ha Hb ev h Hin Hm. apply in_app_or in Hin as [Hin|Hin].
  - specialize (Ha ev h Hin Hm). lia.
  - specialize (Hb ev h Hin Hm). lia.
Qed.

Lemma makes_within_nil (lo hi : nat) : makes_within lo hi [].
Proof. intros ev h []. Qed.

(** A clip object of [evs2] was not made by [evs1], which made those with
    smaller numbers. *)
Lemma made_by_later (lo mid hi : nat) (evs1 evs2 : list event) (h : nat)
    (ev : event) :
  makes_within lo mid evs1 -> makes_within mid hi evs2 ->
  made_by evs2 h = Some ev -> made_by (evs1 ++ evs2) h = Some ev.
Proof.
  intros Ha Hb H. rewrite made_by_skip; [exact H|].
  intros ev1 Hin. destruct (makes h ev1) eqn:Hm; [|reflexivity].
  apply made_by_makes in H as [Hin2 Hm2].
  specialize (Ha ev1 h Hin Hm). specialize (Hb ev h Hin2 Hm2). lia.
Qed.

Lemma segment_in_found (evs1 evs2 : list event) (h : nat) (s : TimelineSegment) :
  segment_in evs1 h = Some s -> segment_in (evs1 ++ evs2) h = Some s.
Proof.
  unfold segment_in.
  destruct (made_by evs1 h) as [ev|] eqn:Hev; [|discriminate].
  rewrite (made_by_found _ evs2 _ _ Hev).
  destruct ev; try discriminate; auto.
  destruct (made_by evs1 base) as [evb|] eqn:Hb; [|discriminate].
  rewrite (made_by_found _ evs2 _ _ Hb).
  destruct evb; try discriminate.
  destruct (made_by evs1 audio) as [eva|] eqn:Ha; [|discriminate].
  now rewrite (made_by_found _ evs2 _ _ Ha).
Qed.

Lemma segment_in_later (lo mid hi : nat) (evs1 evs2 : list event) (h : nat)
    (s : TimelineSegment) :
  makes_within lo mid evs1 -> makes_within mid hi evs2 ->
  segment_in evs2 h = Some s -> segment_in (evs1 ++ evs2) h = Some s.
Proof.
  intros H1 H2. unfold segment_in.
  destruct (made_by evs2 h) as [ev|] eqn:Hev; [|discriminate].
  rewrite (made_by_later _ _ _ _ _ _ _ H1 H2 Hev).
  destruct ev; try discriminate; auto.
  destruct (made_by evs2 base) as [evb|] eqn:Hb; [|discriminate].
  rewrite (made_by_later _ _ _ _ _ _ _ H1 H2 Hb).
  destruct evb; try discriminate.
  destruct (made_by evs2 audio) as [eva|] eqn:Ha; [|discriminate].
  now rewrite (made_by_later _ _ _ _ _ _ _ H1 H2 Ha).
Qed.

Lemma renders_in_app (all evs1 evs2 : list event) :
  renders_in all (evs1 ++ evs2) = renders_in all evs1 ++ renders_in all evs2.
Proof. apply flat_map_app. Qed.

Lemma renders_in_no_write (all evs : list event) :
  written_files evs = [] -> renders_in all evs = [].
Proof.
  unfold written_files, renders_in.
  induction evs as [|ev evs IH]; [reflexivity|]. cbn [flat_map].
  intros H. apply app_eq_nil in H as [Hev H]. rewrite (IH H).
  now destruct ev.
Qed.

Lemma read_as_map (evs : list event) (cs : list MediaClip)
    (tl : list (option TimelineSegment)) :
  read_as evs cs tl -> map (segment_in evs) (map m_handle cs) = tl.
Proof.
  induction 1 as [|c os cs tl (s & -> & Hs) _ IH]; [reflexivity|].
  cbn. now rewrite Hs, IH.
Qed.

Lemma read_as_found (evs1 evs2 : list event) (cs : list MediaClip)
    (tl : list (option TimelineSegment)) :
  read_as evs1 cs tl -> read_as (evs1 ++ evs2) cs tl.
Proof.
  induction 1 as [|c os cs tl (s & -> & Hs) _ IH]; constructor; [|exact IH].
  exists s. split; [reflexivity | now apply segment_in_found].
Qed.

Lemma read_as_later (lo mid hi : nat) (evs1 evs2 : list event)
    (cs : list MediaClip) (tl : list (option TimelineSegment)) :
  makes_within lo mid evs1 -> makes_within mid hi evs2 ->
  read_as evs2 cs tl -> read_as (evs1 ++ evs2) cs tl.
Proof.
  intros H1 H2.
  induction 1 as [|c os cs tl (s & -> & Hs) _ IH]; constructor; [|exact IH].
  exists s. split; [reflexivity | now apply (segment_in_later lo mid hi)].
Qed.


Lemma read_as_app (evs : list event) (cs1 cs2 : list MediaClip)
    (tl1 tl2 : list (option TimelineSegment)) :
  read_as evs cs1 tl1 -> read_as evs cs2 tl2 ->
  read_as evs (cs1 ++ cs2) (tl1 ++ tl2).
Proof. apply Forall2_app. Qed.

Lemma read_as_one (evs : list event) (c : MediaClip) (s : TimelineSegment)
    (cs : list MediaClip) (tl : list (option TimelineSegment)) :
  segment_in evs (m_handle c) = Some s -> read_as evs cs tl ->
  read_as evs (c :: cs) (Some s :: tl).
Proof. intros Hs H. constructor; [now exists s | exact H]. Qed.

Lemma read_as_nil (evs : list event) : read_as evs [] [].
Proof. constructor. Qed.

Ltac decide_eqb :=
  repeat match goal with
  | |- context [Nat.eqb ?a ?b] =>
      first [ replace (Nat.eqb a b) with true
                by (symmetry; apply Nat.eqb_eq; lia)
            | replace (Nat.eqb a b) with false
                by (symmetry; apply Nat.eqb_neq; lia) ]
  end.

Ltac made_here :=
  let ev := fresh "ev" in let h := fresh "h" in
  let Hin := fresh "Hin" in let Hm := fresh "Hm" in
  intros ev h Hin Hm; cbn [In] in Hin;
  repeat (destruct Hin as [<-|Hin];
          [cbn -[Nat.eqb] in Hm; apply Nat.eqb_eq in Hm; lia|]);
  destruct Hin.

Ltac read_here :=
  unfold segment_in, made_by; cbn -[Nat.eqb];
  repeat (progress decide_eqb; cbn -[Nat.eqb]); reflexivity.

Section ReadingTheLoop.

Variable E : Engine.
Variables (silence_duration : spec_float) (audio_only : bool).

(** The loop of [build_blindtest], when it returns: by its calls, the clip
    objects it has added are the excerpts in their order, each followed by
    a silence if [if silence_duration:] succeeds. *)
Lemma assemble_loop_reads :
  forall (clips : list string) (assembled_clips segs : list MediaClip)
         (w w' : World),
    assemble_loop E silence_duration audio_only clips assembled_clips w
      = (Ok segs, w') ->
    exists new evs,
      segs = assembled_clips ++ new /\
      trace w' = trace w ++ evs /\
      next_handle w <= next_handle w' /\
      makes_within (next_handle w) (next_handle w') evs /\
      written_files evs = [] /\
      read_as evs new (flat_map (segments_of_excerpt silence_duration) clips).
Proof.
  induction clips as [|p rest IH]; intros acc segs w w' H;
    cbn [assemble_loop] in H.
  - injection H as <- <-. exists [], []. rewrite !List.app_nil_r.
    split; [reflexivity|]. split; [reflexivity|]. split; [lia|].
    split; [apply makes_within_nil|]. split; [reflexivity | constructor].
  - rewrite flat_map_step. unfold segments_of_excerpt at 1.
    destruct audio_only, (PyFloat.truthy silence_duration);
      apply bind_ok_inv in H as (c & w1 & Hopen & H);
      apply open_media_ok_inv in Hopen as (info & _ & -> & ->);
      rewrite ?(bind_ok _ _ _ _ (color_clip_run _ _ _)) in H;
      rewrite ?(bind_ok _ _ _ _ (audio_clip_run _ _)) in H;
      rewrite ?(bind_ok _ _ _ _ (set_audio_run _ _ _)) in H;
      apply IH in H as (new & evs & -> & Ht & Hle & Hin & Hw & Hread);
      rewrite ?after_after in Ht, Hle, Hin; cbn in Ht, Hle, Hin;
      rewrite <- ?List.app_assoc in Ht; cbn in Ht.
    + (* audio, with a silence *)
      eexists (_ :: _ :: new), ([_; _] ++ evs).
      split; [now rewrite <- !List.app_assoc|]. split; [exact Ht|].
      split; [lia|]. split; [|split; [exact Hw|]].
      * apply (makes_within_app _ (2 + next_handle w)); [lia | lia | | exact Hin].
        made_here.
      * apply (read_as_app _ [_; _] new [_; _]).
        -- apply read_as_found.
           apply read_as_one; [read_here|].
           apply read_as_one; [read_here | apply read_as_nil].
        -- apply (read_as_later (next_handle w) (2 + next_handle w)
                    (next_handle w')); [|exact Hin|exact Hread].
           made_here.
    + (* audio, without silence *)
      eexists (_ :: new), ([_] ++ evs).
      split; [now rewrite <- !List.app_assoc|]. split; [exact Ht|].
      split; [lia|]. split; [|split; [exact Hw|]].
      * apply (makes_within_app _ (1 + next_handle w)); [lia | lia | | exact Hin].
        made_here.
      * apply (read_as_app _ [_] new [_]).
        -- apply read_as_found.
           apply read_as_one; [read_here | apply read_as_nil].
        -- apply (read_as_later (next_handle w) (1 + next_handle w)
                    (next_handle w')); [|exact Hin|exact Hread].
           made_here.
    + (* video, with a silence *)
      eexists (_ :: _ :: new), ([_; _; _; _] ++ evs).
      split; [now rewrite <- !List.app_assoc|]. split; [exact Ht|].
      split; [lia|]. split; [|split; [exact Hw|]].
      * apply (makes_within_app _ (4 + next_handle w)); [lia | lia | | exact Hin].
        made_here.
      * apply (read_as_app _ [_; _] new [_; _]).
        -- apply read_as_found.
           apply read_as_one; [read_here|].
           apply read_as_one; [read_here | apply read_as_nil].
        -- apply (read_as_later (next_handle w) (4 + next_handle w)
                    (next_handle w')); [|exact Hin|exact Hread].
           made_here.
    + (* video, without silence *)
      eexists (_ :: new), ([_] ++ evs).
      split; [now rewrite <- !List.app_assoc|]. split; [exact Ht|].
      split; [lia|]. split; [|split; [exact Hw|]].
      * apply (makes_within_app _ (1 + next_handle w)); [lia | lia | | exact Hin].
        made_here.
      * apply (read_as_app _ [_] new [_]).
        -- apply read_as_found.
           apply read_as_one; [read_here | apply read_as_nil].
        -- apply (read_as_later (next_handle w) (1 + next_handle w)
                    (next_handle w')); [|exact Hin|exact Hread].
           made_here.
Qed.

End ReadingTheLoop.
Lemma renders_in_closes (all : list event) (cs : list MediaClip) :
  renders_in all (map (fun c => EvClose (m_handle c)) cs) = [].
Proof. induction cs as [|c cs IH]; [reflexivity | exact IH]. Qed.

(** [build_blindtest], when it returns: the one file it has written is
    [output_path], and the clip object written to it is the concatenation
    of the excerpts it was given, in their order, each followed by a silence
    if [if silence_duration:] succeeds.  This is read off its calls, also
    when other calls [before] came first (which made clip objects with
    smaller numbers) and others [later] follow. *)
Lemma build_blindtest_renders (E : Engine) (output_path : string)
    (silence_duration : spec_float) (audio_only : bool) (clips : list string)
    (w w' : World) (p : string) :
  build_blindtest E output_path silence_duration audio_only clips w
    = (Ok p, w') ->
  exists evs,
    trace w' = trace w ++ evs /\
    next_handle w <= next_handle w' /\
    makes_within (next_handle w) (next_handle w') evs /\
    forall before later,
      makes_within 0 (next_handle w) before ->
      renders_in (before ++ evs ++ later) evs =
        [(output_path,
          Some (flat_map (segments_of_excerpt silence_duration) clips))].
Proof.
  unfold build_blindtest, assembler_load_moviepy.
  destruct clips as [|c0 clips0]; [discriminate|].
  set (clips := c0 :: clips0).
  destruct (PyFloat.ltb silence_duration PyFloat.zero); [discriminate|].
  destruct (moviepy_installed E); [|discriminate].
  rewrite (bind_ok _ _ _ _ (eq_refl : ret tt w = (Ok tt, w))).
  rewrite (bind_ok _ _ _ _ (mkdir_run _ w)).
  intros H.
  apply bind_ok_inv in H as (segs & w1 & Hloop & H).
  apply assemble_loop_reads in Hloop
    as (new & evs & Hsegs & Ht & Hle & Hin & Hw & Hread).
  cbn in Hsegs, Ht, Hle, Hin. subst segs.
  apply bind_ok_inv in H as (final & w2 & Hcat & H).
  apply concatenate_ok_inv in Hcat as (_ & Hhf & ->).
  apply bind_ok_inv in H as ([] & w3 & Hwrite & H).
  apply write_ok_inv in Hwrite as (_ & ->).
  rewrite (bind_ok _ _ _ _ (close_all_run _ _)) in H.
  rewrite (bind_ok _ _ _ _ (close_run _ _)) in H.
  injection H as <- <-.
  set (cat := if audio_only
              then EvConcatenateAudioclips (next_handle w1) (map m_handle new)
              else EvConcatenateVideoclips (next_handle w1) (map m_handle new)).
  set (wr := if audio_only then EvWriteAudiofile (next_handle w1) output_path
             else EvWriteVideofile (next_handle w1) output_path).
  set (closes := map (fun c => EvClose (m_handle c)) new ++
                 [EvClose (next_handle w1)]).
  exists ((EvMkdir (PyPath.parent output_path) :: evs) ++ [cat; wr] ++ closes).
  assert (Hmk : makes_within (next_handle w) (next_handle w1)
                  (EvMkdir (PyPath.parent output_path) :: evs)).
  { intros ev h [<-|Hev] Hm; [discriminate|]. exact (Hin ev h Hev Hm). }
  split; [|split; [|split]].
  - rewrite !after_after. cbn. rewrite Ht, Hhf. cbn. subst cat wr closes.
    rewrite <- ?List.app_assoc. cbn. rewrite <- ?List.app_assoc.
    now destruct audio_only.
  - rewrite !after_after. cbn. lia.
  - rewrite !after_after. unfold after. cbn [next_handle].
    apply (makes_within_app _ (next_handle w1)); [lia | lia | exact Hmk |].
    intros ev h Hev Hm. cbn [app In] in Hev.
    destruct Hev as [<-|[<-|Hev]].
    + subst cat. destruct audio_only; cbn -[Nat.eqb] in Hm;
        apply Nat.eqb_eq in Hm; lia.
    + subst wr. now destruct audio_only.
    + subst closes. apply in_app_or in Hev as [Hev|[<-|[]]]; [|discriminate].
      apply in_map_iff in Hev as (c & <- & _). discriminate.
  - intros before later Hbefore.
    set (all := before ++ _).
    assert (Hall : all = (before ++ EvMkdir (PyPath.parent output_path) :: evs)
                         ++ cat :: wr :: closes ++ later).
    { subst all. now rewrite <- !List.app_assoc. }
    assert (Hpre : makes_within 0 (next_handle w1)
                     (before ++ EvMkdir (PyPath.parent output_path) :: evs)).
    { apply (makes_within_app _ (next_handle w)); [lia | lia | exact Hbefore
                                                  | exact Hmk]. }
    assert (Hparts : map (segment_in all) (map m_handle new)
                     = flat_map (segments_of_excerpt silence_duration) clips).
    { apply read_as_map. rewrite Hall. apply read_as_found.
      change (EvMkdir (PyPath.parent output_path) :: evs)
        with ([EvMkdir (PyPath.parent output_path)] ++ evs).
      rewrite List.app_assoc.
      apply (read_as_later 0 (next_handle w) (next_handle w1));
        [|exact Hin|exact Hread].
      apply (makes_within_app _ (next_handle w)); [lia | lia | exact Hbefore |].
      intros ev h [<-|[]] Hm. discriminate. }
    assert (Htl : timeline_in all (next_handle w1)
                  = Some (flat_map (segments_of_excerpt silence_duration) clips)).
    { unfold timeline_in.
      assert (Hby : made_by all (next_handle w1) = Some cat).
      { rewrite Hall. rewrite made_by_skip.
        - unfold made_by. cbn [find]. subst cat.
          destruct audio_only; cbn -[Nat.eqb]; now rewrite Nat.eqb_refl.
        - intros ev Hev. destruct (makes (next_handle w1) ev) eqn:Hm;
            [|reflexivity].
          specialize (Hpre ev _ Hev Hm). lia. }
      rewrite Hby. subst cat. destruct audio_only; now rewrite Hparts. }
    rewrite !renders_in_app.
    rewrite (renders_in_no_write all (EvMkdir _ :: evs)) by exact Hw.
    subst closes. rewrite renders_in_app, renders_in_closes.
    subst wr. destruct audio_only; cbn; now rewrite Htl.
Qed.

(** * Resource release *)

Lemma balanced_build (audio_only : bool) (output_path dir : string)
    (segs : list MediaClip) (evs : list event) (hf : nat) :
  incl (flat_map handles_of evs) (map m_handle segs) ->
  balanced
    (EvMkdir dir :: evs ++
     [ if audio_only
       then EvConcatenateAudioclips hf (map m_handle segs)
       else EvConcatenateVideoclips hf (map m_handle segs);
       if audio_only then EvWriteAudiofile hf output_path
       else EvWriteVideofile hf output_path ] ++
     map (fun c => EvClose (m_handle c)) segs ++ [EvClose hf]).
Proof.
  intros Hincl h Hh. apply existsb_closes_in.
  assert (Hcases : h = hf \/ In h (map m_handle segs)).
  { apply in_flat_map in Hh as (ev & Hev & Hh).
    destruct Hev as [<-|Hev]; [destruct Hh|].
    apply in_app_or in Hev as [Hev|Hev].
    { right. apply Hincl. apply in_flat_map. now exists ev. }
    destruct Hev as [<-|[<-|Hev]].
    - destruct audio_only; destruct Hh as [<-|Hh]; auto.
    - destruct audio_only; destruct Hh.
    - rewrite List.app_nil_l in Hev.
      apply in_app_or in Hev as [Hev|[<-|[]]]; [|destruct Hh].
      apply List.in_map_iff in Hev. destruct Hev as (c & <- & _). destruct Hh. }
  right. apply in_or_app. right. apply in_or_app.
  destruct Hcases as [->|Hseg].
  - right. apply in_or_app. right. now left.
  - right. apply in_or_app. left.
    apply List.in_map_iff in Hseg. destruct Hseg as (c & <- & Hc).
    apply List.in_map_iff. now exists c.
Qed.

(** C1, as the code has it.  The handles that a call of [clip_videos] or of
    [build_blindtest] is given (source clip and trimmed clip of every item;
    segments and composed clip of the render) are all closed when the call
    returns.  A call that ends in an exception is not covered: the
    [close()] calls are written after the write, with no [finally]. *)
Theorem handles_released_on_return (E : Engine) :
  (forall (clip_duration : spec_float) (output_dir start_strategy : string)
          (audio_only : bool) (clips : list VideoClip) (w w' : World)
          (files : list string),
     clip_videos E clip_duration output_dir start_strategy audio_only clips w
       = (Ok files, w') ->
     leaked (new_events (clip_videos E clip_duration output_dir start_strategy
                           audio_only clips) w) = []) /\
  (forall (output_path : string) (silence_duration : spec_float)
          (audio_only : bool) (clips : list string) (w w' : World) (p : string),
     build_blindtest E output_path silence_duration audio_only clips w
       = (Ok p, w') ->
     leaked (new_events (build_blindtest E output_path silence_duration
                           audio_only clips) w) = []).
Proof.
  split.
  - intros cd out strat ao clips w w' files H.
    pose proof (clip_videos_ok E _ _ _ _ _ _ _ _ H) as (_ & evs & Ht & Hbal & _).
    rewrite (new_events_app _ w (EvMkdir out :: evs)) by now rewrite H.
    apply leaked_nil_iff. apply (balanced_app [EvMkdir out] evs); [|exact Hbal].
    intros h [].
  - intros out sd ao clips w w' p H.
    pose proof (build_blindtest_ok E _ _ _ _ _ _ _ H)
      as (_ & segs & evs & hf & _ & Hincl & _ & Ht).
    erewrite new_events_app by (rewrite H; exact Ht).
    apply leaked_nil_iff. now apply balanced_build.
Qed.

Lemma handles_released_on_return_witness :
  leaked (new_events
            (clip_videos (Examples.cooperative (Some Examples.twenty))
               Examples.ten "clips" "random" false
               [Examples.item "abc123"; Examples.item "def456"])
            Examples.empty_world) = [] /\
  leaked (new_events
            (build_blindtest (Examples.cooperative (Some Examples.ten))
               "out/blindtest.mp4" PyFloat.one false
               ["clips/abc123_clip.mp4"; "clips/def456_clip.mp4"])
            Examples.empty_world) = [].
Proof.
  split.
  - eapply (proj1 (handles_released_on_return
                     (Examples.cooperative (Some Examples.twenty)))).
    vm_compute. reflexivity.
  - eapply (proj2 (handles_released_on_return
                     (Examples.cooperative (Some Examples.ten)))).
    vm_compute. reflexivity.
Defined.

(** C1, as the specification states it, fails: when the write of an
    excerpt raises, [clip_videos] ends with the source clip 0 and the trimmed
    clip 1 never closed, and when the render raises, [build_blindtest] ends
    with the composed clip 4 and its segments 0 and 3 never closed. *)
Lemma handles_stay_open_when_a_write_fails :
  (fst (clip_videos (Examples.failing_write (Some Examples.twenty))
          Examples.ten "clips" "start" false [Examples.item "abc123"]
          Examples.empty_world) = Raise (OtherError "OSError") /\
   leaked (new_events
             (clip_videos (Examples.failing_write (Some Examples.twenty))
                Examples.ten "clips" "start" false [Examples.item "abc123"])
             Examples.empty_world) = [0; 1]) /\
  (fst (build_blindtest (Examples.failing_write (Some Examples.twenty))
          "out/blindtest.mp4" PyFloat.one false ["clips/abc123_clip.mp4"]
          Examples.empty_world) = Raise (OtherError "OSError") /\
   leaked (new_events
             (build_blindtest (Examples.failing_write (Some Examples.twenty))
                "out/blindtest.mp4" PyFloat.one false ["clips/abc123_clip.mp4"])
             Examples.empty_world) = [4; 0; 3]).
Proof. vm_compute. repeat split. Qed.

(** * Timeline shape and order *)












(** * Audio-only mode *)

(** C8.  The excerpt of an item is written to [<id>_clip.mp3] under the
    output directory in audio-only mode and to [<id>_clip.mp4] otherwise: a
    function of the item's id.  These are the files that a returning
    [clip_videos] has written and returns.  In audio-only mode neither
    [clip_videos] nor [build_blindtest] ever calls [write_videofile],
    whatever the engine answers, and a [build_blindtest] that returns has
    written [output_path] with [write_audiofile]. *)
Theorem audio_only_names_and_render (E : Engine) :
  (forall (output_dir : string) (audio_only : bool) (clip : VideoClip),
     target_of output_dir audio_only clip =
       Some (PyPath.join output_dir
               (video_id clip +:+
                (if audio_only then "_clip.mp3" else "_clip.mp4")))) /\
  (forall (clip_duration : spec_float) (output_dir start_strategy : string)
          (audio_only : bool) (clips : list VideoClip) (w w' : World)
          (files : list string),
     clip_videos E clip_duration output_dir start_strategy audio_only clips w
       = (Ok files, w') ->
     files = map (excerpt_path output_dir audio_only) clips /\
     written_files (new_events (clip_videos E clip_duration output_dir
                                  start_strategy audio_only clips) w)
       = map (excerpt_path output_dir audio_only) clips) /\
  (forall (clip_duration : spec_float) (output_dir start_strategy : string)
          (clips : list VideoClip) (w : World),
     Forall not_write_video
       (new_events (clip_videos E clip_duration output_dir start_strategy
                      true clips) w)) /\
  (forall (output_path : string) (silence_duration : spec_float)
          (clips : list string) (w : World),
     Forall not_write_video
       (new_events (build_blindtest E output_path silence_duration true clips) w)
     /\
     forall (p : string) (w' : World),
       build_blindtest E output_path silence_duration true clips w = (Ok p, w') ->
       exists h,
         In (EvWriteAudiofile h output_path)
            (new_events (build_blindtest E output_path silence_duration
                           true clips) w)).
Proof.
  split; [exact target_of_excerpt_path|].
  split; [|split].
  - intros cd out strat ao clips w w' files H.
    pose proof (clip_videos_ok E _ _ _ _ _ _ _ _ H) as (-> & evs & Ht & _ & Hwr).
    split; [reflexivity|].
    rewrite (new_events_app _ w (EvMkdir out :: evs)) by now rewrite H.
    exact Hwr.
  - intros cd out strat clips w.
    destruct (clip_videos E cd out strat true clips w) as [r w'] eqn:H.
    destruct (clip_videos_audio_only E cd out strat clips _ _ _ H)
      as (evs & Ht & HP).
    now rewrite (new_events_app _ w evs) by now rewrite H.
  - intros out sd clips w. split.
    + destruct (build_blindtest E out sd true clips w) as [r w1] eqn:H.
      destruct (build_blindtest_audio_only E out sd clips _ _ _ H)
        as (evs & Ht & HP).
      now rewrite (new_events_app _ w evs) by now rewrite H.
    + intros p w' Hok.
      pose proof (build_blindtest_ok E _ _ _ _ _ _ _ Hok)
        as (_ & segs & evs & hf & _ & _ & _ & Ht).
      erewrite new_events_app by (rewrite Hok; exact Ht).
      exists hf. right. apply in_or_app. right. right. now left.
Qed.

Lemma audio_only_names_and_render_witness :
  exists h,
    In (EvWriteAudiofile h "out/blindtest.mp3")
       (new_events
          (build_blindtest (Examples.cooperative (Some Examples.ten))
             "out/blindtest.mp3" PyFloat.one true
             ["clips/abc123_clip.mp3"; "clips/def456_clip.mp3"])
          Examples.empty_world).
Proof.
  eapply (proj2 (proj2 (proj2 (proj2 (audio_only_names_and_render
                                        (Examples.cooperative (Some Examples.ten)))))
                   "out/blindtest.mp3" PyFloat.one
                   ["clips/abc123_clip.mp3"; "clips/def456_clip.mp3"]
                   Examples.empty_world)).
  vm_compute. reflexivity.
Defined.

(** * The orchestrator *)

Lemma below_refl (p : string) : below p p = true.
Proof. unfold below. now rewrite String.eqb_refl. Qed.

Lemma rmtree_run (E : Engine) (p : string) (w : World) :
  rmtree_ok E p = true ->
  rmtree E p w =
    (Ok tt, {| trace := trace w ++ [EvRmtree p]; next_handle := next_handle w;
               dirs := filter (fun q => below p q = false) (dirs w);
               draws := draws w |}).
Proof. intros H. unfold rmtree, bind, emit. cbn. now rewrite H. Qed.

Lemma rmtree_raises (E : Engine) (p : string) (w : World) :
  rmtree_ok E p = false ->
  rmtree E p w =
    (Raise (OtherError "OSError"),
     {| trace := trace w ++ [EvRmtree p]; next_handle := next_handle w;
        dirs := filter (fun q => below p q = false \/ rmtree_left E p q = true)
                       (dirs w);
        draws := draws w |}).
Proof. intros H. unfold rmtree, bind, emit. cbn. now rewrite H. Qed.

(** ** What the stages call *)

Section StageCalls.

Variable E : Engine.
Variable P : event -> Prop.
Hypothesis HP : forall ev, stage_call ev = true -> P ev.

Lemma clip_loop_emits (clip_duration : spec_float)
    (output_dir start_strategy : string) (audio_only : bool)
    (clips : list VideoClip) :
  forall generated_files : list string,
    emits P (clip_loop E clip_duration output_dir start_strategy audio_only
               clips generated_files).
Proof.
  induction clips as [|clip rest IH]; intros acc; cbn [clip_loop].
  - apply emits_ret.
  - unfold open_media, start_offset, random_uniform, subclip,
      write_audiofile, write_videofile, close.
    emits_walk;
      try (apply HP; first [reflexivity | now destruct audio_only]);
      apply IH.
Qed.

Lemma clip_videos_emits (clip_duration : spec_float)
    (output_dir start_strategy : string) (audio_only : bool)
    (clips : list VideoClip) :
  P (EvMkdir output_dir) ->
  emits P (clip_videos E clip_duration output_dir start_strategy audio_only
             clips).
Proof.
  intros Hmk. unfold clip_videos, clipper_load_moviepy.
  emits_walk; try exact Hmk. apply clip_loop_emits.
Qed.

Lemma assemble_loop_emits (silence_duration : spec_float)
    (audio_only : bool) (clips : list string) :
  forall assembled_clips : list MediaClip,
    emits P (assemble_loop E silence_duration audio_only clips
               assembled_clips).
Proof.
  induction clips as [|p rest IH]; intros acc; cbn [assemble_loop].
  - apply emits_ret.
  - unfold open_media, audio_clip, color_clip, set_audio.
    emits_walk; try (apply HP; reflexivity); apply IH.
Qed.

Lemma build_blindtest_emits (output_path : string)
    (silence_duration : spec_float) (audio_only : bool) (clips : list string) :
  P (EvMkdir (PyPath.parent output_path)) ->
  emits P (build_blindtest E output_path silence_duration audio_only clips).
Proof.
  intros Hmk.
  unfold build_blindtest, assembler_load_moviepy, concatenate,
    write_audiofile, write_videofile, close.
  destruct clips as [|c clips]; [apply emits_raise|].
  destruct (PyFloat.ltb silence_duration PyFloat.zero); [apply emits_raise|].
  apply emits_bind; [emits_walk|intros _].
  apply emits_bind; [emits_walk; exact Hmk|intros _].
  apply emits_bind; [apply assemble_loop_emits|intros segs].
  apply emits_bind;
    [emits_walk; apply HP; first [reflexivity | now destruct audio_only]
    |intros final].
  apply emits_bind; [emits_walk; apply HP; reflexivity|intros _].
  apply emits_bind;
    [apply close_all_emits; intros h; now apply HP|intros _].
  emits_walk; apply HP; reflexivity.
Qed.

Lemma fetch_loop_emits (download_path : string) (items : list Item) :
  P (EvMkdir download_path) ->
  forall clips : list VideoClip,
    emits P (fetch_loop E download_path items clips).
Proof.
  intros Hmk.
  induction items as [|item rest IH]; intros acc; cbn [fetch_loop].
  - apply emits_ret.
  - unfold download_video.
    emits_walk; try exact Hmk; try (apply HP; reflexivity); apply IH.
Qed.

Hypothesis HPq : forall q, P (EvHttpGet q).

Lemma fetch_video_clips_emits (query : string) (max_results : Z)
    (api_key : option string) (download_dir : string)
    (published_after : option string) (randomize : bool) :
  P (EvMkdir download_dir) ->
  emits P (fetch_video_clips E query max_results api_key download_dir
             published_after randomize).
Proof.
  intros Hmk. unfold fetch_video_clips, call_youtube_api.
  emits_walk; try apply HPq; now apply fetch_loop_emits.
Qed.

Lemma main_body_emits (args : Args) :
  P (EvMkdir (downloads args)) -> P (EvMkdir (clips_arg args)) ->
  P (EvMkdir (PyPath.parent (output args))) ->
  emits P (main_body E args).
Proof.
  intros Hd Hc Ho. unfold main_body.
  apply emits_bind; [now apply fetch_video_clips_emits | intros videos].
  apply emits_bind; [now apply clip_videos_emits | intros generated].
  apply emits_bind; [now apply build_blindtest_emits | intros p].
  apply emits_ret.
Qed.

End StageCalls.

(** ** The cleanup *)

(** The [finally] of [main]: it calls nothing but [rmtree], on the download
    directory and then on the clips directory, on each at most once; it
    raises exactly when one of these calls raises, and a first call that
    raises is the last call; when it returns, neither directory is left. *)
Lemma main_cleanup_calls (E : Engine) (args : Args) (w : World) :
  exists (r : result unit) (w' : World) (evs : list event),
    main_cleanup E args w = (r, w') /\
    trace w' = trace w ++ evs /\
    next_handle w' = next_handle w /\ draws w' = draws w /\
    (evs = [] \/ evs = [EvRmtree (downloads args)] \/
     evs = [EvRmtree (clips_arg args)] \/
     evs = [EvRmtree (downloads args); EvRmtree (clips_arg args)]) /\
    (r = Ok tt \/ r = Raise (OtherError "OSError")) /\
    (r = Ok tt <-> forall p, In (EvRmtree p) evs -> rmtree_ok E p = true) /\
    (r = Ok tt ->
     (downloads args ∉ dirs w') /\ (clips_arg args ∉ dirs w')) /\
    (In (EvRmtree (downloads args)) evs ->
     rmtree_ok E (downloads args) = false ->
     evs = [EvRmtree (downloads args)]).
Proof.
  assert (Hgone : forall (p : string) (X : gset string),
            p ∉ filter (fun q => below p q = false) X).
  { intros p X Hin. apply elem_of_filter in Hin as [Hb _].
    rewrite below_refl in Hb. discriminate. }
  assert (Hkeep : forall (p q : string) (X : gset string),
            q ∉ X -> q ∉ filter (fun x => below p x = false) X).
  { intros p q X Hq Hin. apply elem_of_filter in Hin as [_ Hin]. auto. }
  unfold main_cleanup. unfold bind at 1. unfold bind at 1.
  unfold path_exists at 1.
  destruct (bool_decide (downloads args ∈ dirs w)) eqn:Hd.
  - destruct (rmtree_ok E (downloads args)) eqn:Hok.
    + rewrite (rmtree_run E _ w Hok). unfold bind, path_exists. cbn [dirs].
      match goal with
      | |- context [bool_decide (clips_arg args ∈ ?X)] =>
          destruct (bool_decide (clips_arg args ∈ X)) eqn:Hc
      end.
      * destruct (rmtree_ok E (clips_arg args)) eqn:Hok2.
        -- rewrite (rmtree_run E _ _ Hok2).
           do 3 eexists. split; [reflexivity|]. cbn.
           split; [now rewrite <- List.app_assoc|].
           split; [reflexivity|]. split; [reflexivity|].
           split; [auto|]. split; [auto|]. split; [|split].
           ++ split; [|reflexivity].
              intros _ p [[= <-]|[[= <-]|[]]]; assumption.
           ++ intros _. split; [apply Hkeep, Hgone | apply Hgone].
           ++ intros _ Hbad. congruence.
        -- rewrite (rmtree_raises E _ _ Hok2).
           do 3 eexists. split; [reflexivity|]. cbn.
           split; [now rewrite <- List.app_assoc|].
           split; [reflexivity|]. split; [reflexivity|].
           split; [auto|]. split; [auto|]. split; [|split].
           ++ split; [discriminate|].
              intros H. specialize (H (clips_arg args)).
              rewrite Hok2 in H. discriminate H. right. now left.
           ++ discriminate.
           ++ intros _ Hbad. congruence.
      * apply bool_decide_eq_false in Hc.
        do 3 eexists. split; [reflexivity|]. cbn.
        split; [reflexivity|]. split; [reflexivity|]. split; [reflexivity|].
        split; [auto|]. split; [auto|]. split; [|split].
        -- split; [|reflexivity]. intros _ p [[= <-]|[]]. assumption.
        -- intros _. split; [apply Hgone | exact Hc].
        -- reflexivity.
    + rewrite (rmtree_raises E _ w Hok).
      do 3 eexists. split; [reflexivity|]. cbn.
      split; [reflexivity|]. split; [reflexivity|]. split; [reflexivity|].
      split; [auto|]. split; [auto|]. split; [|split].
      * split; [discriminate|].
        intros H. specialize (H (downloads args)).
        rewrite Hok in H. discriminate H. now left.
      * discriminate.
      * reflexivity.
  - apply bool_decide_eq_false in Hd. unfold ret at 1.
    unfold bind, path_exists.
    destruct (bool_decide (clips_arg args ∈ dirs w)) eqn:Hc.
    + destruct (rmtree_ok E (clips_arg args)) eqn:Hok2.
      * rewrite (rmtree_run E _ _ Hok2).
        do 3 eexists. split; [reflexivity|]. cbn.
        split; [reflexivity|]. split; [reflexivity|]. split; [reflexivity|].
        split; [auto|]. split; [auto|]. split; [|split].
        -- split; [|reflexivity]. intros _ p [[= <-]|[]]. assumption.
        -- intros _. split; [apply Hkeep, Hd | apply Hgone].
        -- intros [[= Heq]|[]] Hbad. rewrite Heq in Hok2. congruence.
      * rewrite (rmtree_raises E _ _ Hok2).
        do 3 eexists. split; [reflexivity|]. cbn.
        split; [reflexivity|]. split; [reflexivity|]. split; [reflexivity|].
        split; [auto|]. split; [auto|]. split; [|split].
        -- split; [discriminate|].
           intros H. specialize (H (clips_arg args)).
           rewrite Hok2 in H. discriminate H. now left.
        -- discriminate.
        -- intros [[= Heq]|[]] _. now rewrite Heq.
    + apply bool_decide_eq_false in Hc. unfold ret.
      do 3 eexists. split; [reflexivity|]. cbn.
      split; [now rewrite List.app_nil_r|].
      split; [reflexivity|]. split; [reflexivity|].
      split; [auto|]. split; [auto|]. split; [|split].
      * split; [|reflexivity]. intros _ p [].
      * auto.
      * intros [].
Qed.

(** [main], from its pipeline and its cleanup. *)
Lemma main_run (E : Engine) (args : Args) (w : World) :
  exists (r : result unit) (w' : World),
    main_cleanup E args (snd (main_body E args w)) = (r, w') /\
    main E args w =
      (match r with
       | Ok _ => reported (fst (main_body E args w))
       | Raise e => Raise e
       end, w').
Proof.
  unfold main, try_finally, try_except, reported.
  destruct (main_body E args w) as [[z|e] w1]; cbn [fst snd].
  - destruct (main_cleanup E args w1) as [[[]|e'] w']; now do 2 eexists.
  - destruct (caught_by_main e); unfold ret;
      destruct (main_cleanup E args w1) as [[[]|e'] w']; now do 2 eexists.
Qed.


(** The calls of [main]: those of its pipeline, then those of its cleanup. *)
Lemma main_calls (E : Engine) (args : Args) (w : World) :
  exists (r : result unit) (w' : World) (evs_body evs : list event),
    main_cleanup E args (snd (main_body E args w)) = (r, w') /\
    main E args w =
      (match r with
       | Ok _ => reported (fst (main_body E args w))
       | Raise e => Raise e
       end, w') /\
    trace (snd (main_body E args w)) = trace w ++ evs_body /\
    Forall not_rmtree evs_body /\
    trace w' = trace (snd (main_body E args w)) ++ evs /\
    new_events (main E args) w = evs_body ++ evs /\
    (evs = [] \/ evs = [EvRmtree (downloads args)] \/
     evs = [EvRmtree (clips_arg args)] \/
     evs = [EvRmtree (downloads args); EvRmtree (clips_arg args)]) /\
    (r = Ok tt \/ r = Raise (OtherError "OSError")) /\
    (r = Ok tt <-> forall p, In (EvRmtree p) evs -> rmtree_ok E p = true) /\
    (r = Ok tt ->
     (downloads args ∉ dirs w') /\ (clips_arg args ∉ dirs w')) /\
    (In (EvRmtree (downloads args)) evs ->
     rmtree_ok E (downloads args) = false ->
     evs = [EvRmtree (downloads args)]).
Proof.
  destruct (main_run E args w) as (r & w' & Hc & Hmain).
  destruct (main_cleanup_calls E args (snd (main_body E args w)))
    as (r2 & w2 & evs & Hc2 & Ht & _ & _ & Hshape & Hr & Hiff & Hgone & Hfirst).
  rewrite Hc in Hc2. injection Hc2 as <- <-.
  destruct (main_body E args w) as [rb w1] eqn:Hbody. cbn [fst snd] in *.
  assert (Hnot : forall ev, stage_call ev = true -> not_rmtree ev)
    by (now intros []).
  destruct (main_body_emits E not_rmtree Hnot (fun q => I) args I I I
              _ _ _ Hbody) as (evs_body & Htb & Hall).
  exists r, w', evs_body, evs.
  split; [exact Hc|]. split; [exact Hmain|]. split; [exact Htb|].
  split; [exact Hall|]. split; [exact Ht|]. split; [|auto 6].
  apply new_events_app. rewrite Hmain. cbn [snd].
  now rewrite Ht, Htb, List.app_assoc.
Qed.





(** * Floating-point rounding *)

Module RoundingFacts.

Import Rounding.
Local Open Scope Z_scope.

Lemma grid_ge (X : Z) : gmin <= grid X.
Proof. unfold grid. lia. Qed.

Lemma grid_nonneg (X : Z) : 0 <= grid X.
Proof. pose proof (grid_ge X). unfold gmin in *. lia. Qed.

Lemma pow2_pos (n : Z) : 0 <= n -> 0 < 2 ^ n.
Proof. intros. apply Z.pow_pos_nonneg; lia. Qed.

Lemma grid_pos (X : Z) : 0 < 2 ^ grid X.
Proof. apply pow2_pos, grid_nonneg. Qed.

Lemma grid_mono (X Y : Z) : X <= Y -> grid X <= grid Y.
Proof.
  intros H. unfold grid. pose proof (Z.log2_le_mono X Y H). lia.
Qed.

(** A number on its own grid is not moved. *)
Lemma RNZ_id (X : Z) : X mod 2 ^ grid X = 0 -> RNZ X = X.
Proof.
  intros H. unfold RNZ, round_up. rewrite H.
  pose proof (grid_pos X) as HG.
  replace (2 ^ grid X <? 2 * 0) with false by (symmetry; apply Z.ltb_ge; lia).
  replace (2 ^ grid X =? 2 * 0) with false by (symmetry; apply Z.eqb_neq; lia).
  simpl. rewrite Z.add_0_r.
  pose proof (Z.div_mod X (2 ^ grid X)). lia.
Qed.

Lemma RNZ_bounds (X : Z) :
  0 <= X ->
  2 ^ grid X * (X / 2 ^ grid X) <= RNZ X <= 2 ^ grid X * (X / 2 ^ grid X + 1).
Proof.
  intros H. unfold RNZ. pose proof (grid_pos X).
  destruct (round_up _ _ _); nia.
Qed.

Lemma RNZ_floor (X : Z) :
  2 * (X mod 2 ^ grid X) < 2 ^ grid X -> RNZ X = 2 ^ grid X * (X / 2 ^ grid X).
Proof.
  intros H. unfold RNZ, round_up.
  replace (2 ^ grid X <? 2 * (X mod 2 ^ grid X)) with false
    by (symmetry; apply Z.ltb_ge; lia).
  replace (2 ^ grid X =? 2 * (X mod 2 ^ grid X)) with false
    by (symmetry; apply Z.eqb_neq; lia).
  simpl. now rewrite Z.add_0_r.
Qed.

(** On one grid, rounding to nearest is monotone. *)
Lemma round_mono (G X Y : Z) :
  0 < G -> 0 <= X <= Y ->
  G * (X / G + (if round_up G (X / G) (X mod G) then 1 else 0))
  <= G * (Y / G + (if round_up G (Y / G) (Y mod G) then 1 else 0)).
Proof.
  intros HG HXY.
  pose proof (Z.div_mod X G ltac:(lia)) as HX.
  pose proof (Z.div_mod Y G ltac:(lia)) as HY.
  pose proof (Z.mod_pos_bound X G HG) as HXm.
  pose proof (Z.mod_pos_bound Y G HG) as HYm.
  assert (Hq : X / G <= Y / G) by (apply Z.div_le_mono; lia).
  apply Z.mul_le_mono_nonneg_l; [lia|].
  destruct (Z.eq_dec (X / G) (Y / G)) as [Heq|Hne].
  - assert (Hr : X mod G <= Y mod G) by (rewrite Heq in HX; lia).
    rewrite <- Heq.
    unfold round_up.
    destruct (G <? 2 * (X mod G)) eqn:H1; cbn [orb andb].
    + apply Z.ltb_lt in H1.
      replace (G <? 2 * (Y mod G)) with true by (symmetry; apply Z.ltb_lt; lia).
      cbn [orb andb]. lia.
    + destruct (G =? 2 * (X mod G)) eqn:H2; cbn [orb andb].
      * apply Z.eqb_eq in H2.
        destruct (Z.odd (X / G)) eqn:Ho; cbn [orb andb].
        -- destruct (G <? 2 * (Y mod G)) eqn:H3; cbn [orb andb]; [lia|].
           apply Z.ltb_ge in H3.
           replace (G =? 2 * (Y mod G)) with true
             by (symmetry; apply Z.eqb_eq; lia).
           cbn [orb andb]. lia.
        -- destruct ((G <? 2 * (Y mod G)) || (G =? 2 * (Y mod G)) && false); lia.
      * destruct ((G <? 2 * (Y mod G)) || (G =? 2 * (Y mod G)) && Z.odd (X / G)); lia.
  - destruct (round_up G (X / G) (X mod G)), (round_up G (Y / G) (Y mod G)); lia.
Qed.

Lemma log2_bounds (X : Z) : 0 < X -> 2 ^ Z.log2 X <= X < 2 ^ (Z.log2 X + 1).
Proof. intros H. pose proof (Z.log2_spec X H). now rewrite <- Z.add_1_r in *. Qed.

(** Rounding to nearest is monotone. *)
Lemma RNZ_mono (X Y : Z) : 0 < X -> X <= Y -> RNZ X <= RNZ Y.
Proof.
  intros HX HXY.
  pose proof (grid_mono X Y HXY) as Hg.
  destruct (Z.eq_dec (grid X) (grid Y)) as [Heq|Hne].
  - unfold RNZ. rewrite Heq. apply round_mono; [apply grid_pos | lia].
  - assert (Hlt : grid X < grid Y) by lia. clear Hg Hne.
    pose proof (RNZ_bounds X ltac:(lia)) as [_ HupX].
    pose proof (RNZ_bounds Y ltac:(lia)) as [HloY _].
    pose proof (grid_ge X) as HgX.
    assert (HgY : grid Y = Z.log2 Y + 1 - 53) by (unfold grid in *; lia).
    assert (HgX' : Z.log2 X + 1 - 53 <= grid X) by (unfold grid; lia).
    pose proof (log2_bounds X HX) as [_ HXhi].
    pose proof (log2_bounds Y ltac:(lia)) as [HYlo _].
    pose proof (Z.log2_nonneg X). pose proof (Z.log2_nonneg Y).
    unfold gmin in *.
    (* X < 2^(grid X + 53) <= 2^(grid Y + 52) <= Y *)
    assert (HXb : X < 2 ^ grid X * 2 ^ 53).
    { rewrite <- Z.pow_add_r by lia.
      eapply Z.lt_le_trans; [exact HXhi|]. apply Z.pow_le_mono_r; lia. }
    assert (HYb : 2 ^ grid Y * 2 ^ 52 <= Y).
    { rewrite <- Z.pow_add_r by lia.
      eapply Z.le_trans; [|exact HYlo]. apply Z.pow_le_mono_r; lia. }
    assert (Hmid : 2 ^ grid X * 2 ^ 53 <= 2 ^ grid Y * 2 ^ 52).
    { rewrite <- !Z.pow_add_r by lia. apply Z.pow_le_mono_r; lia. }
    pose proof (grid_pos X) as HGX. pose proof (grid_pos Y) as HGY.
    assert (HqX : X / 2 ^ grid X < 2 ^ 53)
      by (apply Z.div_lt_upper_bound; lia).
    assert (HqY : 2 ^ 52 <= Y / 2 ^ grid Y)
      by (apply Z.div_le_lower_bound; lia).
    eapply Z.le_trans; [exact HupX|]. eapply Z.le_trans; [|exact HloY].
    eapply Z.le_trans; [|apply Z.mul_le_mono_nonneg_l; [lia | exact HqY]].
    eapply Z.le_trans; [|exact Hmid].
    apply Z.mul_le_mono_nonneg_l; lia.
Qed.

Lemma digits2_log2 (m : positive) :
  Zpos (digits2_pos m) = Z.log2 (Zpos m) + 1.
Proof.
  assert (H : forall p, digits2_pos p = Pos.size p).
  { induction p as [p IH|p IH|]; simpl; now rewrite ?IH. }
  rewrite H. destruct m as [p|p|]; simpl; try reflexivity; lia.
Qed.

Lemma iter_pos_nat {A} (f : A -> A) (p : positive) (x : A) :
  SpecFloat.iter_pos f p x = Nat.iter (Pos.to_nat p) f x.
Proof.
  revert x. induction p as [p IH|p IH|]; intros x; cbn [SpecFloat.iter_pos].
  - rewrite !IH. rewrite Pos2Nat.inj_xI.
    replace (S (2 * Pos.to_nat p)) with (Pos.to_nat p + (Pos.to_nat p + 1))%nat by lia.
    rewrite !Nat.iter_add. reflexivity.
  - rewrite !IH. rewrite Pos2Nat.inj_xO.
    replace (2 * Pos.to_nat p)%nat with (Pos.to_nat p + Pos.to_nat p)%nat by lia.
    now rewrite Nat.iter_add.
  - reflexivity.
Qed.

Lemma shifted_0 (m : Z) :
  0 <= m -> shifted m 0 {| shr_m := m; shr_r := false; shr_s := false |}.
Proof. intros H. unfold shifted; simpl. repeat split; lia. Qed.

Lemma shr_1_m (mrs : shr_record) :
  0 <= shr_m mrs ->
  shr_m (shr_1 mrs) = shr_m mrs / 2 /\
  shr_r (shr_1 mrs) = Z.odd (shr_m mrs) /\
  shr_s (shr_1 mrs) = shr_r mrs || shr_s mrs.
Proof.
  destruct mrs as [m r s]. simpl. intros H.
  destruct m as [|[p|p|]|p]; simpl; try lia; repeat split;
    try reflexivity.
  - change (Z.pos p~1) with (2 * Z.pos p + 1).
    apply Z.div_unique with 1; lia.
  - change (Z.pos p~0) with (2 * Z.pos p).
    apply Z.div_unique with 0; lia.
Qed.

Lemma shifted_step (m k : Z) (mrs : shr_record) :
  0 <= k -> shifted m k mrs -> shifted m (k + 1) (shr_1 mrs).
Proof.
  intros Hk (Hq & Hrho & Hloc).
  destruct (shr_1_m mrs Hq) as (Hm & Hr & Hs).
  unfold shifted. rewrite Hm, Hr, Hs.
  rewrite Z.pow_add_r by lia. change (2 ^ 1) with 2.
  pose proof (pow2_pos k Hk) as HG.
  set (q := shr_m mrs) in *. set (G := 2 ^ k) in *.
  pose proof (Z.div2_odd q) as Hdm. rewrite Z.div2_div in Hdm.
  assert (Hq2 : 0 <= q / 2) by (apply Z.div_pos; lia).
  split; [exact Hq2|].
  replace (q / 2 * (G * 2)) with (2 * (q / 2) * G) by ring.
  destruct (Z.odd q); simpl Z.b2z in Hdm.
  - replace (2 * (q / 2)) with (q - 1) by lia.
    replace (m - (q - 1) * G) with (m - q * G + G) by ring.
    split; [lia|].
    unfold loc_ok in *.
    destruct (shr_r mrs), (shr_s mrs); cbn [orb]; lia.
  - replace (2 * (q / 2)) with q by lia.
    split; [lia|].
    unfold loc_ok in *.
    destruct (shr_r mrs), (shr_s mrs); cbn [orb]; lia.
Qed.

Lemma shifted_iter (m : Z) (n : nat) (mrs : shr_record) (k : Z) :
  0 <= k -> shifted m k mrs ->
  shifted m (k + Z.of_nat n) (Nat.iter n shr_1 mrs).
Proof.
  intros Hk H. induction n as [|n IH].
  - simpl. now rewrite Z.add_0_r.
  - rewrite Nat2Z.inj_succ. simpl Nat.iter.
    replace (k + Z.succ (Z.of_nat n)) with (k + Z.of_nat n + 1) by lia.
    apply shifted_step; [lia | exact IH].
Qed.

(** [shr] by [n] places. *)
Lemma shr_shifted (m e n : Z) :
  0 <= m ->
  shifted m (Z.max n 0)
    (fst (shr {| shr_m := m; shr_r := false; shr_s := false |} e n)) /\
  snd (shr {| shr_m := m; shr_r := false; shr_s := false |} e n)
    = e + Z.max n 0.
Proof.
  intros Hm. destruct n as [|p|p]; unfold shr; cbn [fst snd].
  - split; [now apply shifted_0 | lia].
  - split; [|lia]. rewrite iter_pos_nat.
    replace (Z.max (Z.pos p) 0) with (0 + Z.of_nat (Pos.to_nat p)) by lia.
    apply shifted_iter; [lia | now apply shifted_0].
  - split; [now apply shifted_0 | lia].
Qed.

Lemma fexp_eq (e : Z) : fexp PyFloat.prec PyFloat.emax e = Z.max (e - 53) (-1074).
Proof. reflexivity. Qed.

Lemma rne_loc (q rho G : Z) (r s : bool) :
  0 <= rho < G -> loc_ok r s rho G ->
  round_nearest_even q
    (loc_of_shr_record {| shr_m := q; shr_r := r; shr_s := s |})
  = q + (if round_up G q rho then 1 else 0).
Proof.
  intros Hrho Hloc. unfold round_up, loc_ok in *.
  destruct r, s; cbn [loc_of_shr_record round_nearest_even].
  - replace (G <? 2 * rho) with true by (symmetry; apply Z.ltb_lt; lia).
    reflexivity.
  - replace (G <? 2 * rho) with false by (symmetry; apply Z.ltb_ge; lia).
    replace (G =? 2 * rho) with true by (symmetry; apply Z.eqb_eq; lia).
    cbn [orb andb]. rewrite <- Z.negb_even.
    destruct (Z.even q); cbn [negb]; lia.
  - replace (G <? 2 * rho) with false by (symmetry; apply Z.ltb_ge; lia).
    replace (G =? 2 * rho) with false by (symmetry; apply Z.eqb_neq; lia).
    cbn [orb andb]. lia.
  - replace (G <? 2 * rho) with false by (symmetry; apply Z.ltb_ge; lia).
    replace (G =? 2 * rho) with false by (symmetry; apply Z.eqb_neq; lia).
    cbn [orb andb]. lia.
Qed.

Lemma round_up_scale (P S q rho : Z) :
  0 < S -> round_up (P * S) q (rho * S) = round_up P q rho.
Proof.
  intros HS. unfold round_up.
  replace (P * S <? 2 * (rho * S)) with (P <? 2 * rho).
  2:{ destruct (P <? 2 * rho) eqn:H; symmetry;
      [apply Z.ltb_lt in H; apply Z.ltb_lt | apply Z.ltb_ge in H; apply Z.ltb_ge];
      nia. }
  replace (P * S =? 2 * (rho * S)) with (P =? 2 * rho).
  2:{ destruct (P =? 2 * rho) eqn:H; symmetry;
      [apply Z.eqb_eq in H; apply Z.eqb_eq | apply Z.eqb_neq in H; apply Z.eqb_neq];
      nia. }
  reflexivity.
Qed.

Lemma div_mod_scale (P S q rho : Z) :
  0 < S -> 0 <= rho < P ->
  (q * P + rho) * S / (P * S) = q /\ ((q * P + rho) * S) mod (P * S) = rho * S.
Proof.
  intros HS Hrho.
  assert (H : (q * P + rho) * S = (P * S) * q + rho * S) by ring.
  assert (Hb : 0 <= rho * S < P * S) by nia.
  split.
  - symmetry. apply Z.div_unique with (rho * S); [left; exact Hb | exact H].
  - symmetry. apply Z.mod_unique with q; [left; exact Hb | exact H].
Qed.

Lemma shr_id (mrs : shr_record) (e n : Z) : n <= 0 -> shr mrs e n = (mrs, e).
Proof. intros H. destruct n; [reflexivity | lia | reflexivity]. Qed.

Lemma binary_round_aux_finish (mx ex : Z) (lx : location) :
  binary_round_aux PyFloat.prec PyFloat.emax false mx ex lx =
  let '(mrs, e) := shr_fexp PyFloat.prec PyFloat.emax mx ex lx in
  finish (round_nearest_even (shr_m mrs) (loc_of_shr_record mrs)) e.
Proof. reflexivity. Qed.

Lemma log2_lt_pow2 (x n : Z) : 0 < x -> x < 2 ^ n -> Z.log2 x < n.
Proof. intros Hx H. apply Z.log2_lt_pow2; assumption. Qed.

Lemma log2_ge_pow2 (x n : Z) : 0 <= n -> 2 ^ n <= x -> n <= Z.log2 x.
Proof. intros Hn H. apply Z.log2_le_pow2; [pose proof (pow2_pos n Hn); lia | exact H]. Qed.

Lemma shr_53 (e : Z) :
  shr {| shr_m := 2 ^ 53; shr_r := false; shr_s := false |} e 1
  = ({| shr_m := 4503599627370496; shr_r := false; shr_s := false |}, e + 1).
Proof. reflexivity. Qed.

Lemma finish_spec (q e : Z) :
  0 <= q <= 2 ^ 53 -> -1074 <= e ->
  (-1074 < e -> 2 ^ 52 <= q) ->
  q * 2 ^ (e + K) <= Vmax ->
  nonneg (finish q e) = true /\ V (finish q e) = q * 2 ^ (e + K).
Proof.
  intros Hq He Hnorm Hmax. unfold finish, shr_fexp.
  cbn [shr_record_of_loc].
  assert (HK : 0 <= e + K) by (unfold K; lia).
  pose proof (pow2_pos (e + K) HK) as HS.
  destruct (Z.eq_dec q 0) as [->|Hq0].
  - cbn [Zdigits2]. rewrite fexp_eq, shr_id by lia. cbn. split; [reflexivity | lia].
  - destruct q as [|p|p]; try lia. cbn [Zdigits2].
    rewrite digits2_log2, fexp_eq.
    destruct (Z.eq_dec (Z.pos p) (2 ^ 53)) as [H53|H53].
    + (* the mantissa overflowed to 2^53: one more shift *)
      rewrite H53. change (Z.log2 (2 ^ 53)) with 53.
      replace (Z.max (53 + 1 + e - 53) (-1074) - e) with 1 by lia.
      rewrite shr_53. cbn [shr_m].
      assert (He' : e + 1 <= 971).
      { destruct (Z_le_gt_dec (e + 1) 971) as [|Hgt]; [assumption|exfalso].
        unfold Vmax in Hmax. rewrite H53 in Hmax.
        assert (2 ^ (971 + K) <= 2 ^ (e + K)) by (apply Z.pow_le_mono_r; lia).
        pose proof (pow2_pos (971 + K) ltac:(unfold K; lia)). nia. }
      replace (e + 1 <=? PyFloat.emax - PyFloat.prec) with true
        by (symmetry; apply Z.leb_le; unfold PyFloat.emax, PyFloat.prec; lia).
      split.
      * cbn [nonneg]. unfold bounded, canonical_mantissa.
        change (Z.pos (digits2_pos 4503599627370496)) with 53.
        rewrite fexp_eq.
        apply andb_true_intro; split;
          [apply Z.eqb_eq; lia | apply Z.leb_le; unfold PyFloat.emax, PyFloat.prec; lia].
      * cbn [V]. replace (e + 1 + K) with (1 + (e + K)) by lia.
        rewrite Z.pow_add_r by lia. change (2 ^ 1) with 2.
        change (2 ^ 53) with 9007199254740992. lia.
    + assert (Hlt : Z.pos p < 2 ^ 53) by lia.
      assert (Hlog : Z.log2 (Z.pos p) < 53) by (apply log2_lt_pow2; lia).
      rewrite shr_id by lia. cbn [shr_m].
      assert (He' : e <= 971).
      { destruct (Z_le_gt_dec e 971) as [|Hgt]; [assumption|exfalso].
        specialize (Hnorm ltac:(lia)).
        unfold Vmax in Hmax.
        assert (2 * 2 ^ (971 + K) <= 2 ^ (e + K)).
        { replace (2 * 2 ^ (971 + K)) with (2 ^ (972 + K)).
          - apply Z.pow_le_mono_r; lia.
          - replace (972 + K) with (1 + (971 + K)) by lia.
            rewrite Z.pow_add_r by (unfold K; lia). reflexivity. }
        pose proof (pow2_pos (971 + K) ltac:(unfold K; lia)). nia. }
      replace (e <=? PyFloat.emax - PyFloat.prec) with true
        by (symmetry; apply Z.leb_le; unfold PyFloat.emax, PyFloat.prec; lia).
      split; [|reflexivity].
      cbn [nonneg]. unfold bounded, canonical_mantissa.
      rewrite digits2_log2, fexp_eq.
      apply andb_true_intro; split;
        [apply Z.eqb_eq | apply Z.leb_le; unfold PyFloat.emax, PyFloat.prec; lia].
      destruct (Z.eq_dec e (-1074)) as [->|Hne]; [lia|].
      specialize (Hnorm ltac:(lia)).
      assert (52 <= Z.log2 (Z.pos p)) by (apply log2_ge_pow2; lia).
      lia.
Qed.

Lemma grid_scaled (m : positive) (e : Z) :
  0 <= e + K ->
  grid (Z.pos m * 2 ^ (e + K))
  = fexp PyFloat.prec PyFloat.emax (Z.pos (digits2_pos m) + e) + K.
Proof.
  intros HK. unfold grid. rewrite Z.log2_mul_pow2 by lia.
  rewrite fexp_eq, digits2_log2. unfold gmin, K in *. lia.
Qed.

(** [binary_round_aux] rounds to nearest, ties to even. *)
Lemma round_aux_spec (m : positive) (e : Z) :
  - K <= e ->
  e <= fexp PyFloat.prec PyFloat.emax (Z.pos (digits2_pos m) + e) ->
  RNZ (Z.pos m * 2 ^ (e + K)) <= Vmax ->
  nonneg (binary_round_aux PyFloat.prec PyFloat.emax false (Z.pos m) e loc_Exact) = true /\
  V (binary_round_aux PyFloat.prec PyFloat.emax false (Z.pos m) e loc_Exact)
    = RNZ (Z.pos m * 2 ^ (e + K)).
Proof.
  intros HeK Hfexp Hmax.
  assert (HK : 0 <= e + K) by lia.
  rewrite binary_round_aux_finish. unfold shr_fexp.
  cbn [shr_record_of_loc Zdigits2].
  pose proof (grid_scaled m e HK) as Hgrid.
  set (e' := fexp PyFloat.prec PyFloat.emax (Z.pos (digits2_pos m) + e)) in *.
  assert (He'def : e' = Z.max (Z.log2 (Z.pos m) + 1 + e - 53) (-1074))
    by (unfold e'; rewrite fexp_eq, digits2_log2; reflexivity).
  set (n := e' - e).
  assert (Hn : 0 <= n) by (unfold n; lia).
  destruct (shr_shifted (Z.pos m) e n ltac:(lia)) as [Hsh He1].
  destruct (shr {| shr_m := Z.pos m; shr_r := false; shr_s := false |} e n)
    as [mrs e1].
  cbn [fst snd] in Hsh, He1.
  assert (Hmaxn : Z.max n 0 = n) by lia.
  rewrite Hmaxn in Hsh. rewrite Hmaxn in He1. clear Hmaxn.
  assert (He1' : e1 = e') by (unfold n in He1; lia).
  clear He1. subst e1.
  destruct mrs as [q r s]. destruct Hsh as (Hq & Hrho & Hloc).
  cbn [shr_m shr_r shr_s] in *.
  set (rho := Z.pos m - q * 2 ^ n) in *.
  rewrite (rne_loc q rho (2 ^ n) r s Hrho Hloc).
  (* the scaled value and its grid *)
  pose proof (pow2_pos (e + K) HK) as HS.
  pose proof (pow2_pos n Hn) as HP.
  assert (HG : 2 ^ (e' + K) = 2 ^ n * 2 ^ (e + K)).
  { rewrite <- Z.pow_add_r by lia. f_equal. unfold n. lia. }
  assert (HX : Z.pos m * 2 ^ (e + K) = (q * 2 ^ n + rho) * 2 ^ (e + K))
    by (unfold rho; ring).
  destruct (div_mod_scale (2 ^ n) (2 ^ (e + K)) q rho HS Hrho) as [Hdiv Hmod].
  assert (HRNZ : RNZ (Z.pos m * 2 ^ (e + K))
                 = (q + (if round_up (2 ^ n) q rho then 1 else 0))
                   * 2 ^ (e' + K)).
  { unfold RNZ. rewrite Hgrid, HG, HX, Hdiv, Hmod, round_up_scale by lia. ring. }
  rewrite HRNZ in Hmax |- *.
  (* bounds on the mantissa *)
  pose proof (log2_bounds (Z.pos m) ltac:(lia)) as [Hlo Hhi].
  pose proof (Z.log2_nonneg (Z.pos m)) as Hl0.
  assert (Hq53 : q < 2 ^ 53).
  { assert (Z.pos m < 2 ^ n * 2 ^ 53).
    { rewrite <- Z.pow_add_r by lia.
      eapply Z.lt_le_trans; [exact Hhi|]. apply Z.pow_le_mono_r; unfold n; lia. }
    nia. }
  assert (Hq52 : -1074 < e' -> 2 ^ 52 <= q).
  { intros Hgt.
    assert (Hn' : n = Z.log2 (Z.pos m) + 1 - 53) by (unfold n; lia).
    assert (2 ^ n * 2 ^ 52 <= Z.pos m).
    { rewrite <- Z.pow_add_r by lia.
      eapply Z.le_trans; [|exact Hlo]. apply Z.pow_le_mono_r; lia. }
    nia. }
  apply finish_spec.
  - destruct (round_up (2 ^ n) q rho); lia.
  - lia.
  - intros Hgt. specialize (Hq52 Hgt). destruct (round_up (2 ^ n) q rho); lia.
  - exact Hmax.
Qed.

(** ** Valid floats *)

Lemma bounded_inv (m : positive) (e : Z) :
  bounded PyFloat.prec PyFloat.emax m e = true ->
  -1074 <= e <= 971 /\
  Z.pos m < 2 ^ 53 /\
  (-1074 < e -> 2 ^ 52 <= Z.pos m) /\
  fexp PyFloat.prec PyFloat.emax (Z.pos (digits2_pos m) + e) = e.
Proof.
  unfold bounded, canonical_mantissa. intros H.
  apply andb_prop in H as [Hc He].
  apply Z.eqb_eq in Hc. apply Z.leb_le in He.
  unfold PyFloat.emax, PyFloat.prec in He.
  pose proof Hc as Hc'. rewrite fexp_eq, digits2_log2 in Hc'.
  pose proof (log2_bounds (Z.pos m) ltac:(lia)) as [Hlo Hhi].
  pose proof (Z.log2_nonneg (Z.pos m)) as Hl0.
  split; [lia|]. split; [|split; [|exact Hc]].
  - eapply Z.lt_le_trans; [exact Hhi|]. apply Z.pow_le_mono_r; lia.
  - intros Hgt. eapply Z.le_trans; [|exact Hlo]. apply Z.pow_le_mono_r; lia.
Qed.

Lemma V_nonneg (x : spec_float) : 0 <= V x.
Proof.
  destruct x as [s|s| |[] m e]; cbn [V]; lia.
Qed.

Lemma V_finite_pos (m : positive) (e : Z) :
  -1074 <= e -> 0 < V (S754_finite false m e).
Proof.
  intros He. cbn [V]. pose proof (pow2_pos (e + K) ltac:(unfold K; lia)). nia.
Qed.

Lemma RNZ_0 : RNZ 0 = 0.
Proof. apply RNZ_id. apply Z.mod_0_l. pose proof (grid_pos 0). lia. Qed.

(** A valid float is on its own grid. *)
Lemma RNZ_V (x : spec_float) : nonneg x = true -> RNZ (V x) = V x.
Proof.
  destruct x as [s|s| |[] m e]; cbn [V nonneg]; try discriminate;
    try (intros _; exact RNZ_0).
  intros H. apply bounded_inv in H as (He & _ & _ & Hf).
  apply RNZ_id. rewrite grid_scaled by (unfold K; lia). rewrite Hf.
  apply Z.mod_mul. pose proof (pow2_pos (e + K) ltac:(unfold K; lia)). lia.
Qed.

Lemma V_le_max (x : spec_float) : nonneg x = true -> V x <= Vmax.
Proof.
  unfold Vmax.
  destruct x as [s|s| |[] m e]; cbn [V nonneg]; try discriminate;
    try (intros _; pose proof (pow2_pos (971 + K) ltac:(unfold K; lia)); lia).
  intros H. apply bounded_inv in H as (He & Hm & _ & _).
  assert (2 ^ (e + K) <= 2 ^ (971 + K)) by (apply Z.pow_le_mono_r; lia).
  pose proof (pow2_pos (e + K) ltac:(unfold K; lia)). nia.
Qed.

(** Comparison of valid non-negative floats is comparison of values. *)
Lemma compare_V (x y : spec_float) :
  nonneg x = true -> nonneg y = true ->
  SFcompare x y = Some (V x ?= V y).
Proof.
  destruct x as [sx|sx| |[] mx ex], y as [sy|sy| |[] my ey];
    try discriminate; intros Hx Hy.
  - reflexivity.
  - simpl in Hy. apply bounded_inv in Hy as (He & _).
    pose proof (V_finite_pos my ey ltac:(lia)) as Hp.
    cbn [SFcompare]. f_equal. symmetry. apply Z.compare_lt_iff.
    change (V (S754_zero sx)) with 0. exact Hp.
  - simpl in Hx. apply bounded_inv in Hx as (He & _).
    pose proof (V_finite_pos mx ex ltac:(lia)) as Hp.
    cbn [SFcompare]. f_equal. symmetry. apply Z.compare_gt_iff.
    change (V (S754_zero sy)) with 0. exact Hp.
  - simpl in Hx, Hy.
    apply bounded_inv in Hx as (Hex & Hmx & Hnx & _).
    apply bounded_inv in Hy as (Hey & Hmy & Hny & _).
    cbn [SFcompare V]. f_equal.
    pose proof (pow2_pos (ex + K) ltac:(unfold K; lia)) as HSx.
    pose proof (pow2_pos (ey + K) ltac:(unfold K; lia)) as HSy.
    destruct (Z.compare_spec ex ey) as [Heq|Hlt|Hgt].
    + subst ey. rewrite Pos.compare_cont_spec. cbn [Pos.switch_Eq].
      change (Pos.compare mx my) with (Z.pos mx ?= Z.pos my).
      destruct (Z.compare_spec (Z.pos mx) (Z.pos my)) as [Hm|Hm|Hm]; symmetry.
      * apply Z.compare_eq_iff. now rewrite Hm.
      * apply Z.compare_lt_iff. nia.
      * apply Z.compare_gt_iff. nia.
    + symmetry. apply Z.compare_lt_iff.
      specialize (Hny ltac:(lia)).
      assert (H1 : 2 ^ (ey + K) = 2 ^ (ey - ex) * 2 ^ (ex + K)).
      { rewrite <- Z.pow_add_r by (unfold K; lia). f_equal. lia. }
      assert (H2 : 2 <= 2 ^ (ey - ex)).
      { change 2 with (2 ^ 1) at 1. apply Z.pow_le_mono_r; lia. }
      rewrite H1. nia.
    + symmetry. apply Z.compare_gt_iff.
      specialize (Hnx ltac:(lia)).
      assert (H1 : 2 ^ (ex + K) = 2 ^ (ex - ey) * 2 ^ (ey + K)).
      { rewrite <- Z.pow_add_r by (unfold K; lia). f_equal. lia. }
      assert (H2 : 2 <= 2 ^ (ex - ey)).
      { change 2 with (2 ^ 1) at 1. apply Z.pow_le_mono_r; lia. }
      rewrite H1. nia.
Qed.

Lemma ltb_V (x y : spec_float) :
  nonneg x = true -> nonneg y = true -> SFltb x y = (V x <? V y).
Proof.
  intros Hx Hy. unfold SFltb. rewrite (compare_V x y Hx Hy).
  unfold Z.ltb. now destruct (V x ?= V y).
Qed.

Lemma leb_V (x y : spec_float) :
  nonneg x = true -> nonneg y = true -> SFleb x y = (V x <=? V y).
Proof.
  intros Hx Hy. unfold SFleb. rewrite (compare_V x y Hx Hy).
  unfold Z.leb. now destruct (V x ?= V y).
Qed.

(** ** The operations *)

Lemma pos_iter_xO (m d : positive) :
  Z.pos (Pos.iter xO m d) = Z.pos m * 2 ^ Z.pos d.
Proof.
  induction d as [|d IH] using Pos.peano_ind.
  - cbn [Pos.iter]. change (2 ^ 1) with 2. lia.
  - rewrite Pos.iter_succ, Pos2Z.inj_succ, Z.pow_succ_r by lia.
    rewrite Pos2Z.inj_xO, IH. ring.
Qed.

Lemma shl_align_spec (mx : positive) (ex ex' : Z) :
  0 <= ex' + K ->
  Z.pos (fst (shl_align mx ex ex')) * 2 ^ (snd (shl_align mx ex ex') + K)
    = Z.pos mx * 2 ^ (ex + K) /\
  snd (shl_align mx ex ex') = Z.min ex ex'.
Proof.
  intros HK. unfold shl_align.
  destruct (ex' - ex) as [|d|d] eqn:Hd; cbn [fst snd].
  - split; [reflexivity | lia].
  - split; [reflexivity | lia].
  - rewrite pos_iter_xO. split; [|lia].
    rewrite <- Z.mul_assoc, <- Z.pow_add_r by lia. do 2 f_equal. lia.
Qed.

Lemma shl_align_fst (mx : positive) (ex ez : Z) :
  ez <= ex ->
  Z.pos (fst (shl_align mx ex ez)) = Z.pos mx * 2 ^ (ex - ez).
Proof.
  intros H. unfold shl_align.
  destruct (ez - ex) as [|d|d] eqn:Hd; cbn [fst]; try lia.
  - replace (ex - ez) with 0 by lia. lia.
  - rewrite pos_iter_xO. do 2 f_equal. lia.
Qed.

Lemma binary_round_spec (m : positive) (e : Z) :
  - K <= e ->
  RNZ (Z.pos m * 2 ^ (e + K)) <= Vmax ->
  nonneg (binary_round PyFloat.prec PyFloat.emax false m e) = true /\
  V (binary_round PyFloat.prec PyFloat.emax false m e) = RNZ (Z.pos m * 2 ^ (e + K)).
Proof.
  intros He Hmax. unfold binary_round.
  set (t := fexp PyFloat.prec PyFloat.emax (Z.pos (digits2_pos m) + e)).
  assert (Ht : -1074 <= t) by (unfold t; rewrite fexp_eq; lia).
  destruct (shl_align_spec m e t ltac:(unfold K; lia)) as [Hval Hexp].
  destruct (shl_align m e t) as [mz ez]. cbn [fst snd] in Hval, Hexp.
  rewrite <- Hval in Hmax |- *.
  assert (HezK : - K <= ez) by (unfold K in *; lia).
  apply round_aux_spec; [exact HezK | | exact Hmax].
  (* the canonical exponent is unchanged *)
  assert (Hlog : Z.log2 (Z.pos mz) + ez = Z.log2 (Z.pos m) + e).
  { assert (H := f_equal Z.log2 Hval).
    rewrite !Z.log2_mul_pow2 in H by lia. lia. }
  rewrite fexp_eq, digits2_log2.
  unfold t in Hexp. rewrite fexp_eq, digits2_log2 in Hexp. lia.
Qed.

Lemma binary_normalize_spec (M e : Z) :
  0 <= M -> - K <= e ->
  RNZ (M * 2 ^ (e + K)) <= Vmax ->
  nonneg (binary_normalize PyFloat.prec PyFloat.emax M e false) = true /\
  V (binary_normalize PyFloat.prec PyFloat.emax M e false) = RNZ (M * 2 ^ (e + K)).
Proof.
  intros HM He Hmax. destruct M as [|m|m]; [| |lia].
  - cbn [binary_normalize nonneg V]. rewrite Z.mul_0_l, RNZ_0. auto.
  - now apply binary_round_spec.
Qed.

(** Subtraction of a smaller from a larger valid float. *)
Lemma sub_spec (x y : spec_float) :
  nonneg x = true -> nonneg y = true -> V y <= V x ->
  nonneg (SFsub PyFloat.prec PyFloat.emax x y) = true /\
  V (SFsub PyFloat.prec PyFloat.emax x y) = RNZ (V x - V y).
Proof.
  intros Hx Hy Hle.
  destruct x as [sx|sx| |[] mx ex], y as [sy|sy| |[] my ey];
    try discriminate.
  - change (V (S754_zero sx) - V (S754_zero sy)) with 0. rewrite RNZ_0.
    now destruct sx, sy.
  - exfalso. cbn [nonneg] in Hy. apply bounded_inv in Hy as (He & _).
    pose proof (V_finite_pos my ey ltac:(lia)). cbn [V] in *. lia.
  - cbn [SFsub]. change (V (S754_zero sy)) with 0. rewrite Z.sub_0_r.
    now rewrite RNZ_V.
  - pose proof Hx as Hx'. pose proof Hy as Hy'.
    cbn [nonneg] in Hx', Hy'.
    apply bounded_inv in Hx' as (Hex & _). apply bounded_inv in Hy' as (Hey & _).
    cbn [SFsub cond_Zopp].
    set (ez := Z.min ex ey).
    rewrite (shl_align_fst mx ex ez), (shl_align_fst my ey ez) by (unfold ez; lia).
    assert (Hval : (Z.pos mx * 2 ^ (ex - ez) - Z.pos my * 2 ^ (ey - ez))
                   * 2 ^ (ez + K)
                   = V (S754_finite false mx ex) - V (S754_finite false my ey)).
    { cbn [V]. rewrite Z.mul_sub_distr_r, <- !Z.mul_assoc.
      rewrite <- !Z.pow_add_r by (unfold ez, K; lia).
      do 2 f_equal; f_equal; lia. }
    pose proof (pow2_pos (ez + K) ltac:(unfold ez, K; lia)) as HS.
    rewrite <- Hval.
    apply binary_normalize_spec.
    + assert (0 <= (Z.pos mx * 2 ^ (ex - ez) - Z.pos my * 2 ^ (ey - ez))
                   * 2 ^ (ez + K)) by (rewrite Hval; lia).
      nia.
    + unfold ez, K. lia.
    + rewrite Hval.
      destruct (Z.eq_dec (V (S754_finite false mx ex) - V (S754_finite false my ey)) 0)
        as [H0|Hne].
      * rewrite H0, RNZ_0. unfold Vmax.
        pose proof (pow2_pos (971 + K) ltac:(unfold K; lia)). lia.
      * eapply Z.le_trans; [|apply (V_le_max _ Hx)].
        rewrite <- (RNZ_V _ Hx) at 2.
        pose proof (V_nonneg (S754_finite false my ey)).
        apply RNZ_mono; lia.
Qed.

Lemma add_spec (x y : spec_float) :
  nonneg x = true -> nonneg y = true ->
  RNZ (V x + V y) <= Vmax ->
  nonneg (SFadd PyFloat.prec PyFloat.emax x y) = true /\
  V (SFadd PyFloat.prec PyFloat.emax x y) = RNZ (V x + V y).
Proof.
  intros Hx Hy Hmax.
  destruct x as [sx|sx| |[] mx ex], y as [sy|sy| |[] my ey];
    try discriminate.
  - change (V (S754_zero sx) + V (S754_zero sy)) with 0. rewrite RNZ_0.
    now destruct sx, sy.
  - cbn [SFadd]. change (V (S754_zero sx)) with 0. rewrite Z.add_0_l.
    now rewrite RNZ_V.
  - cbn [SFadd]. change (V (S754_zero sy)) with 0. rewrite Z.add_0_r.
    now rewrite RNZ_V.
  - pose proof Hx as Hx'. pose proof Hy as Hy'.
    cbn [nonneg] in Hx', Hy'.
    apply bounded_inv in Hx' as (Hex & _). apply bounded_inv in Hy' as (Hey & _).
    cbn [SFadd cond_Zopp].
    set (ez := Z.min ex ey).
    rewrite (shl_align_fst mx ex ez), (shl_align_fst my ey ez) by (unfold ez; lia).
    assert (Hval : (Z.pos mx * 2 ^ (ex - ez) + Z.pos my * 2 ^ (ey - ez))
                   * 2 ^ (ez + K)
                   = V (S754_finite false mx ex) + V (S754_finite false my ey)).
    { cbn [V]. rewrite Z.mul_add_distr_r, <- !Z.mul_assoc.
      rewrite <- !Z.pow_add_r by (unfold ez, K; lia).
      do 2 f_equal; f_equal; lia. }
    rewrite <- Hval in Hmax |- *.
    apply binary_normalize_spec; [|unfold ez, K; lia | exact Hmax].
    pose proof (pow2_pos (ex - ez) ltac:(unfold ez; lia)).
    pose proof (pow2_pos (ey - ez) ltac:(unfold ez; lia)). nia.
Qed.

Lemma mul_spec (x y : spec_float) :
  nonneg x = true -> nonneg y = true ->
  RNZ (V x * V y / 2 ^ K) <= Vmax ->
  nonneg (SFmul PyFloat.prec PyFloat.emax x y) = true /\
  V (SFmul PyFloat.prec PyFloat.emax x y) = RNZ (V x * V y / 2 ^ K).
Proof.
  intros Hx Hy Hmax.
  assert (Hz1 : forall a, RNZ (0 * a / 2 ^ K) = 0).
  { intros a. rewrite Z.mul_0_l. change (0 / 2 ^ K) with 0. exact RNZ_0. }
  assert (Hz2 : forall a, RNZ (a * 0 / 2 ^ K) = 0).
  { intros a. rewrite Z.mul_0_r. change (0 / 2 ^ K) with 0. exact RNZ_0. }
  destruct x as [sx|sx| |[] mx ex], y as [sy|sy| |[] my ey];
    try discriminate.
  - change (V (S754_zero sx)) with 0. rewrite Hz1. now destruct sx, sy.
  - change (V (S754_zero sx)) with 0. rewrite Hz1. now destruct sx.
  - change (V (S754_zero sy)) with 0. rewrite Hz2. now destruct sy.
  - pose proof Hx as Hx'. pose proof Hy as Hy'.
    cbn [nonneg] in Hx', Hy'.
    apply bounded_inv in Hx' as (Hex & _ & Hnx & _).
    apply bounded_inv in Hy' as (Hey & _ & Hny & _).
    cbn [SFmul xorb].
    assert (Hval : V (S754_finite false mx ex) * V (S754_finite false my ey) / 2 ^ K
                   = Z.pos (mx * my) * 2 ^ (ex + ey + K)).
    { cbn [V]. rewrite Pos2Z.inj_mul.
      replace (Z.pos mx * 2 ^ (ex + K) * (Z.pos my * 2 ^ (ey + K)))
        with (Z.pos mx * Z.pos my * 2 ^ (ex + ey + K) * 2 ^ K).
      - apply Z.div_mul. pose proof (pow2_pos K ltac:(unfold K; lia)). lia.
      - replace (ex + K) with ((ex + ey + K) + (- ey)) by lia.
        replace (ey + K) with (ey + K + 0) by lia.
        rewrite <- !Z.mul_assoc. f_equal.
        rewrite (Z.mul_comm (2 ^ _) (Z.pos my * _)).
        rewrite <- !Z.mul_assoc. f_equal.
        rewrite <- !Z.pow_add_r by (unfold K; lia). f_equal. lia. }
    rewrite Hval in Hmax |- *.
    apply round_aux_spec; [unfold K; lia | | exact Hmax].
    rewrite fexp_eq, digits2_log2, Pos2Z.inj_mul.
    pose proof (Z.log2_mul_below (Z.pos mx) (Z.pos my) ltac:(lia) ltac:(lia)) as Hl.
    pose proof (Z.log2_nonneg (Z.pos mx)). pose proof (Z.log2_nonneg (Z.pos my)).
    assert (Hlx : -1074 < ex -> 52 <= Z.log2 (Z.pos mx))
      by (intros H'; apply log2_ge_pow2; [lia | now apply Hnx]).
    assert (Hly : -1074 < ey -> 52 <= Z.log2 (Z.pos my))
      by (intros H'; apply log2_ge_pow2; [lia | now apply Hny]).
    lia.
Qed.

Lemma grid_of (X g : Z) :
  gmin <= g -> 2 ^ (g + 52) <= X < 2 ^ (g + 53) -> grid X = g.
Proof.
  intros Hg [Hlo Hhi]. unfold grid, gmin in *.
  assert (Z.log2 X = g + 52).
  { apply Z.log2_unique; [lia|]. split; [exact Hlo|].
    now replace (Z.succ (g + 52)) with (g + 53) by lia. }
  lia.
Qed.

(** The heart of the bound: when [x] is rounded up, anything at most
    [(1 - 2^-53)] times the rounded value rounds to at most [x]. *)
Lemma round_below (x Y : Z) :
  0 <= x -> x mod 2 ^ gmin = 0 -> x < RNZ x ->
  0 <= Y -> Y * 2 ^ 53 <= RNZ x * (2 ^ 53 - 1) ->
  RNZ Y <= x.
Proof.
  intros Hx Hdiv Hup HY HYle.
  destruct (Z.eq_dec Y 0) as [->|HY0]; [rewrite RNZ_0; lia|].
  set (g := grid x) in *.
  pose proof (grid_ge x) as Hg. fold g in Hg.
  assert (Hx0 : 0 < x).
  { destruct (Z.eq_dec x 0) as [->|]; [|lia]. rewrite RNZ_0 in Hup. lia. }
  assert (Hgg : gmin < g).
  { destruct (Z.eq_dec g gmin) as [Heq|]; [|lia]. exfalso.
    rewrite RNZ_id in Hup; [lia|]. fold g. now rewrite Heq. }
  assert (Hgdef : g = Z.log2 x + 1 - 53) by (unfold g, grid in *; lia).
  pose proof (log2_bounds x Hx0) as [Hlo Hhi].
  unfold gmin in *.
  set (P := 2 ^ (g - 53)).
  assert (HP : 0 < P) by (apply pow2_pos; lia).
  assert (HG : 2 ^ g = 2 ^ 53 * P).
  { unfold P. rewrite <- Z.pow_add_r by lia. f_equal. lia. }
  assert (Hlo' : 2 ^ 52 * 2 ^ g <= x).
  { rewrite <- Z.pow_add_r by lia. eapply Z.le_trans; [|exact Hlo].
    apply Z.pow_le_mono_r; lia. }
  assert (Hhi' : x < 2 ^ 53 * 2 ^ g).
  { rewrite <- Z.pow_add_r by lia. eapply Z.lt_le_trans; [exact Hhi|].
    apply Z.pow_le_mono_r; lia. }
  pose proof (pow2_pos g ltac:(lia)) as HGpos.
  set (q := x / 2 ^ g).
  pose proof (Z.div_mod x (2 ^ g) ltac:(lia)) as Hdm. fold q in Hdm.
  pose proof (Z.mod_pos_bound x (2 ^ g) HGpos) as Hmb.
  assert (Hq : 2 ^ 52 <= q < 2 ^ 53).
  { split; [apply Z.div_le_lower_bound; lia | apply Z.div_lt_upper_bound; lia]. }
  assert (HR : RNZ x = 2 ^ g * (q + 1)).
  { unfold RNZ in *. fold g in Hup |- *. fold q in Hup |- *.
    destruct (round_up (2 ^ g) q (x mod 2 ^ g)); [reflexivity | nia]. }
  rewrite HR, HG in HYle.
  change (2 ^ 52) with 4503599627370496 in *.
  change (2 ^ 53) with 9007199254740992 in *.
  (* the largest candidate *)
  set (ymax := (q + 1) * (9007199254740992 - 1) * P).
  assert (HYmax : Y <= ymax) by (unfold ymax; nia).
  assert (Hym : RNZ ymax = 2 ^ g * q).
  { destruct (Z.eq_dec (q + 1) 9007199254740992) as [Hq1|Hq1].
    - assert (Hy : ymax = 2 ^ g * q) by (unfold ymax; rewrite HG; nia).
      rewrite Hy. apply RNZ_id.
      assert (Hgy : grid (2 ^ g * q) = g).
      { apply grid_of; [unfold gmin; lia|].
        rewrite !Z.pow_add_r by lia.
        change (2 ^ 52) with 4503599627370496.
        change (2 ^ 53) with 9007199254740992. nia. }
      rewrite Hgy, Z.mul_comm. apply Z.mod_mul. lia.
    - assert (Hy : ymax = 2 ^ g * q + (9007199254740992 - (q + 1)) * P)
        by (unfold ymax; rewrite HG; ring).
      assert (Hrem : 0 <= (9007199254740992 - (q + 1)) * P < 2 ^ g)
        by (rewrite HG; nia).
      assert (Hgy : grid ymax = g).
      { apply grid_of; [unfold gmin; lia|].
        rewrite !Z.pow_add_r by lia.
        change (2 ^ 52) with 4503599627370496.
        change (2 ^ 53) with 9007199254740992.
        rewrite Hy. nia. }
      assert (Hdivy : ymax / 2 ^ g = q).
      { symmetry. apply Z.div_unique with ((9007199254740992 - (q + 1)) * P);
          [left; exact Hrem | exact Hy]. }
      assert (Hmody : ymax mod 2 ^ g = (9007199254740992 - (q + 1)) * P).
      { symmetry. apply Z.mod_unique with q; [left; exact Hrem | exact Hy]. }
      rewrite RNZ_floor; rewrite Hgy; [now rewrite Hdivy|].
      rewrite Hmody, HG. nia. }
  eapply Z.le_trans; [apply (RNZ_mono Y ymax); lia|].
  rewrite Hym. nia.
Qed.

Lemma V_multiple (x : spec_float) : nonneg x = true -> V x mod 2 ^ gmin = 0.
Proof.
  destruct x as [s|s| |[] m e]; cbn [V nonneg]; try discriminate;
    try (intros _; apply Z.mod_0_l; pose proof (pow2_pos gmin ltac:(unfold gmin; lia)); lia).
  intros H. apply bounded_inv in H as (He & _).
  replace (e + K) with ((e + K - gmin) + gmin) by lia.
  rewrite Z.pow_add_r by (unfold K, gmin; lia).
  rewrite Z.mul_assoc. apply Z.mod_mul.
  pose proof (pow2_pos gmin ltac:(unfold gmin; lia)). lia.
Qed.

(** A valid float below 1 is at most [1 - 2^-53]. *)
Lemma below_one (r : spec_float) :
  nonneg r = true -> V r < 2 ^ K -> V r * 2 ^ 53 <= 2 ^ K * (2 ^ 53 - 1).
Proof.
  intros Hr Hlt.
  pose proof (pow2_pos K ltac:(unfold K; lia)) as HK.
  destruct r as [s|s| |[] m e]; cbn [V nonneg] in *; try discriminate;
    try (change (2 ^ 53) with 9007199254740992; lia).
  apply bounded_inv in Hr as (He & Hm & _).
  assert (HK53 : 2 ^ K = 2 ^ 53 * 2 ^ (K - 53)).
  { rewrite <- Z.pow_add_r by (unfold K; lia). f_equal; lia. }
  pose proof (pow2_pos (K - 53) ltac:(unfold K; lia)) as HP.
  destruct (Z_le_gt_dec (-53) e) as [Hge|Hlt53].
  - assert (HS : 2 ^ (e + K) = 2 ^ (e + 53) * 2 ^ (K - 53)).
    { rewrite <- Z.pow_add_r by (unfold K; lia). f_equal; lia. }
    pose proof (pow2_pos (e + 53) ltac:(lia)) as HP2.
    rewrite HS, HK53 in *.
    change (2 ^ 53) with 9007199254740992 in *.
    assert (Z.pos m * 2 ^ (e + 53) < 9007199254740992) by nia.
    nia.
  - assert (HS : 2 ^ (e + K) * 2 ^ 54 <= 2 ^ K).
    { rewrite <- Z.pow_add_r by (unfold K; lia).
      apply Z.pow_le_mono_r; lia. }
    pose proof (pow2_pos (e + K) ltac:(unfold K; lia)) as HP2.
    change (2 ^ 53) with 9007199254740992 in *.
    change (2 ^ 54) with 18014398509481984 in *.
    nia.
Qed.

(** The offset that [random.uniform(0, max(0, d - c))] computes from the
    draw [r], and its bounds: it is at most the float [d - c], and start
    plus excerpt does not pass the end of the media, as real numbers. *)
Lemma offset_bound (d c r : spec_float) :
  nonneg d = true -> nonneg c = true -> nonneg r = true ->
  V c <= V d -> V r < 2 ^ K ->
  let m0 := SFsub PyFloat.prec PyFloat.emax d c in
  let b := if SFltb (S754_zero false) m0 then m0 else S754_zero false in
  let o := SFadd PyFloat.prec PyFloat.emax (S754_zero false)
             (SFmul PyFloat.prec PyFloat.emax (SFsub PyFloat.prec PyFloat.emax b (S754_zero false)) r) in
  nonneg m0 = true /\ nonneg o = true /\ V o <= V m0 /\ V o + V c <= V d.
Proof.
  intros Hd Hc Hr Hcd Hr1 m0 b o.
  pose proof (pow2_pos K ltac:(unfold K; lia)) as HK.
  destruct (sub_spec d c Hd Hc Hcd) as [Hm0 HVm0]. fold m0 in Hm0, HVm0.
  set (x := V d - V c) in *.
  assert (Hx : 0 <= x) by (unfold x; lia).
  (* max(0, m0) *)
  assert (Hb : nonneg b = true /\ V b = V m0).
  { unfold b. rewrite ltb_V by (auto; reflexivity).
    change (V (S754_zero false)) with 0.
    destruct (0 <? V m0) eqn:Hpos; [auto|].
    apply Z.ltb_ge in Hpos. pose proof (V_nonneg m0).
    split; [reflexivity|]. change (V (S754_zero false)) with 0. lia. }
  destruct Hb as [Hb HVb].
  (* b - 0 *)
  destruct (sub_spec b (S754_zero false) Hb eq_refl) as [Hb' HVb'].
  { change (V (S754_zero false)) with 0. apply V_nonneg. }
  change (V (S754_zero false)) with 0 in HVb'.
  rewrite Z.sub_0_r, (RNZ_V b Hb), HVb in HVb'.
  set (b' := SFsub PyFloat.prec PyFloat.emax b (S754_zero false)) in *.
  (* (b - 0) * r *)
  set (Y := V b' * V r / 2 ^ K).
  pose proof (V_nonneg m0) as Hm0pos. pose proof (V_nonneg r) as Hrpos.
  assert (HY0 : 0 <= Y) by (unfold Y; apply Z.div_pos; [nia | lia]).
  assert (HYle : Y <= V m0).
  { unfold Y. rewrite HVb'. apply Z.div_le_upper_bound; [lia | nia]. }
  assert (HRY : RNZ Y <= V m0).
  { destruct (Z.eq_dec Y 0) as [->|]; [rewrite RNZ_0; lia|].
    rewrite <- (RNZ_V m0 Hm0). apply RNZ_mono; lia. }
  pose proof (V_le_max m0 Hm0) as Hm0max.
  destruct (mul_spec b' r Hb' Hr) as [Hp HVp]; [fold Y; lia|].
  fold Y in HVp.
  set (p := SFmul PyFloat.prec PyFloat.emax b' r) in *.
  (* 0 + p *)
  destruct (add_spec (S754_zero false) p eq_refl Hp) as [Ho HVo].
  { change (V (S754_zero false)) with 0. rewrite Z.add_0_l, (RNZ_V p Hp). lia. }
  change (V (S754_zero false)) with 0 in HVo.
  rewrite Z.add_0_l, (RNZ_V p Hp), HVp in HVo. fold o in Ho, HVo.
  split; [exact Hm0|]. split; [exact Ho|]. split; [lia|].
  (* the real-number bound *)
  rewrite HVo. fold x in HVm0. unfold x in Hx.
  destruct (Z_le_gt_dec (RNZ x) x) as [Hdown|Hup]; [unfold x in *; lia|].
  assert (HRx : RNZ Y <= x).
  { apply round_below; try lia.
    - unfold x. rewrite Zminus_mod, (V_multiple d Hd), (V_multiple c Hc).
      apply Z.mod_0_l. pose proof (pow2_pos gmin ltac:(unfold gmin; lia)). lia.
    - rewrite <- HVm0.
      pose proof (below_one r Hr Hr1) as Hb1.
      assert (HYK : Y * 2 ^ K <= V m0 * V r).
      { unfold Y. rewrite HVb', Z.mul_comm. apply Z.mul_div_le. lia. }
      change (2 ^ 53) with 9007199254740992 in *.
      nia. }
  unfold x in HRx. lia.
Qed.

Lemma finish_sign (q e : Z) : finish q e <> S754_zero true.
Proof.
  unfold finish. destruct (shr_fexp _ _ q e loc_Exact) as [mrs e'].
  destruct (shr_m mrs); [discriminate | | discriminate].
  destruct (e' <=? _); discriminate.
Qed.

(** The difference of two positive floats is never [-0.0]. *)
Lemma sub_sign (mx my : positive) (ex ey : Z) :
  -1074 <= ex -> -1074 <= ey ->
  V (S754_finite false my ey) <= V (S754_finite false mx ex) ->
  SFsub PyFloat.prec PyFloat.emax (S754_finite false mx ex) (S754_finite false my ey)
    <> S754_zero true.
Proof.
  intros Hex Hey Hle. cbn [SFsub cond_Zopp].
  set (ez := Z.min ex ey).
  rewrite (shl_align_fst mx ex ez), (shl_align_fst my ey ez) by (unfold ez; lia).
  assert (Hval : (Z.pos mx * 2 ^ (ex - ez) - Z.pos my * 2 ^ (ey - ez))
                 * 2 ^ (ez + K)
                 = V (S754_finite false mx ex) - V (S754_finite false my ey)).
  { cbn [V]. rewrite Z.mul_sub_distr_r, <- !Z.mul_assoc.
    rewrite <- !Z.pow_add_r by (unfold ez, K; lia).
    do 2 f_equal; f_equal; lia. }
  pose proof (pow2_pos (ez + K) ltac:(unfold ez, K; lia)) as HS.
  assert (HM : 0 <= Z.pos mx * 2 ^ (ex - ez) - Z.pos my * 2 ^ (ey - ez)) by nia.
  destruct (Z.pos mx * 2 ^ (ex - ez) - Z.pos my * 2 ^ (ey - ez)) as [|m|m];
    [discriminate | | lia].
  cbn [binary_normalize]. unfold binary_round.
  destruct (shl_align m ez _) as [mz ez'].
  rewrite binary_round_aux_finish.
  destruct (shr_fexp _ _ (Z.pos mz) ez' loc_Exact) as [mrs e'].
  apply finish_sign.
Qed.

Lemma V_one : V PyFloat.one = 2 ^ K.
Proof. reflexivity. Qed.

(** A valid finite float that is at least a positive float is positive. *)
Lemma positive_pair (c d : spec_float) :
  PyFloat.valid c = true -> PyFloat.valid d = true ->
  PyFloat.is_finite d = true ->
  PyFloat.ltb PyFloat.zero c = true -> PyFloat.leb c d = true ->
  exists mc ec md ed,
    c = S754_finite false mc ec /\ d = S754_finite false md ed /\
    bounded PyFloat.prec PyFloat.emax mc ec = true /\
    bounded PyFloat.prec PyFloat.emax md ed = true.
Proof.
  intros Hc Hd Hf Hpos Hle.
  destruct c as [sc|[]| |[] mc ec]; try discriminate;
    destruct d as [sd|sd| |[] md ed]; try discriminate.
  exists mc, ec, md, ed. auto.
Qed.

(** A valid draw in [0, 1). *)
Lemma unit_draw (r : spec_float) :
  PyFloat.valid r = true -> PyFloat.leb PyFloat.zero r = true ->
  PyFloat.ltb r PyFloat.one = true ->
  nonneg r = true /\ V r < 2 ^ K.
Proof.
  intros Hv H0 H1.
  destruct r as [s|[]| |[] m e]; try discriminate.
  - split; [reflexivity|]. apply pow2_pos. unfold K. lia.
  - assert (Hn : nonneg (S754_finite false m e) = true) by exact Hv.
    split; [exact Hn|].
    unfold PyFloat.ltb in H1.
    rewrite (ltb_V _ PyFloat.one Hn eq_refl), V_one in H1.
    now apply Z.ltb_lt.
Qed.

End RoundingFacts.

(** * The random start *)

(** C4.  For an item whose duration [d] is at least [clip_duration], the
    ["random"] strategy takes the offset that [random.uniform] computes for
    the interval from 0 to [d - clip_duration] out of one draw [r] of the
    generator, [0 + ((d - clip_duration) - 0) * r] in binary64 arithmetic:
    the draw, uniform on [0, 1), scaled to the interval.  With [r] in
    [0, 1) the offset lies between 0 and [d - clip_duration], and offset
    plus [clip_duration] does not exceed [d], both as the float sum that
    the code passes to [subclip] and as real numbers. *)
Theorem random_offset_stays_in_media
    (E : Engine) (d clip_duration : spec_float) (w : World) :
  PyFloat.valid d = true -> PyFloat.is_finite d = true ->
  PyFloat.valid clip_duration = true ->
  PyFloat.ltb PyFloat.zero clip_duration = true ->
  PyFloat.leb clip_duration d = true ->
  PyFloat.valid (random_value E (draws w)) = true ->
  PyFloat.leb PyFloat.zero (random_value E (draws w)) = true ->
  PyFloat.ltb (random_value E (draws w)) PyFloat.one = true ->
  exists o w',
    start_offset E (Some d) clip_duration "random" w = (Ok o, w') /\
    o = PyFloat.uniform PyFloat.zero (PyFloat.sub d clip_duration)
          (random_value E (draws w)) /\
    PyFloat.leb PyFloat.zero o = true /\
    PyFloat.leb o (PyFloat.sub d clip_duration) = true /\
    PyFloat.ltb d (PyFloat.add o clip_duration) = false /\
    (Rounding.V o + Rounding.V clip_duration <= Rounding.V d)%Z.
Proof.
  intros Hvd Hfd Hvc Hcpos Hcd Hvr Hr0 Hr1.
  set (r := random_value E (draws w)) in *.
  destruct (RoundingFacts.positive_pair _ _ Hvc Hvd Hfd Hcpos Hcd)
    as (mc & ec & md & ed & -> & -> & Hbc & Hbd).
  set (c := S754_finite false mc ec) in *.
  set (d := S754_finite false md ed) in *.
  assert (Hnc : Rounding.nonneg c = true) by exact Hbc.
  assert (Hnd : Rounding.nonneg d = true) by exact Hbd.
  destruct (RoundingFacts.unit_draw r Hvr Hr0 Hr1) as [Hnr HVr].
  assert (HVcd : (Rounding.V c <= Rounding.V d)%Z).
  { unfold PyFloat.leb in Hcd. rewrite (RoundingFacts.leb_V c d Hnc Hnd) in Hcd.
    now apply Z.leb_le. }
  destruct (RoundingFacts.offset_bound d c r Hnd Hnc Hnr HVcd HVr)
    as (Hm0 & Ho & Hom0 & Hreal).
  (* max(0, d - c) is d - c *)
  assert (Hmax : PyFloat.max0 (PyFloat.sub d c) = PyFloat.sub d c).
  { unfold PyFloat.max0, PyFloat.sub.
    pose proof (RoundingFacts.bounded_inv _ _ Hbc) as (Hec & _).
    pose proof (RoundingFacts.bounded_inv _ _ Hbd) as (Hed & _).
    pose proof (RoundingFacts.sub_sign md mc ed ec ltac:(lia) ltac:(lia) HVcd)
      as Hsign.
    fold c d in Hsign.
    destruct (SFsub PyFloat.prec PyFloat.emax d c) as [[]|[]| |[] m e];
      try discriminate; try reflexivity.
    now destruct Hsign. }
  (* what the code computes *)
  set (o := PyFloat.uniform PyFloat.zero (PyFloat.sub d c) r).
  assert (Hrun : exists w',
             start_offset E (Some d) c "random" w = (Ok o, w')).
  { unfold start_offset.
    rewrite (FloatFacts.leb_not_ltb c d Hcd).
    change (String.eqb "random" "random") with true. cbv iota.
    unfold random_uniform, random_random, bind, ret. fold r.
    rewrite Hmax. eexists. reflexivity. }
  destruct Hrun as [w' Hrun].
  assert (Ho' : o = SFadd PyFloat.prec PyFloat.emax (S754_zero false)
                      (SFmul PyFloat.prec PyFloat.emax
                         (SFsub PyFloat.prec PyFloat.emax
                            (if SFltb (S754_zero false)
                                  (SFsub PyFloat.prec PyFloat.emax d c)
                             then SFsub PyFloat.prec PyFloat.emax d c
                             else S754_zero false)
                            (S754_zero false)) r)).
  { unfold o. rewrite <- Hmax at 1. reflexivity. }
  rewrite <- Ho' in Ho, Hom0, Hreal.
  exists o, w'. split; [exact Hrun|]. split; [reflexivity|].
  split; [|split; [|split; [|exact Hreal]]].
  - unfold PyFloat.leb. rewrite (RoundingFacts.leb_V PyFloat.zero o eq_refl Ho).
    apply Z.leb_le. apply RoundingFacts.V_nonneg.
  - unfold PyFloat.leb, PyFloat.sub.
    rewrite (RoundingFacts.leb_V _ _ Ho Hm0). now apply Z.leb_le.
  - assert (Hsum : (Rounding.RNZ (Rounding.V o + Rounding.V c)
                    <= Rounding.V d)%Z).
    { rewrite <- (RoundingFacts.RNZ_V d Hnd).
      pose proof (RoundingFacts.V_nonneg o).
      pose proof (RoundingFacts.bounded_inv _ _ Hbc) as (Hec & _).
      pose proof (RoundingFacts.V_finite_pos mc ec ltac:(lia)). fold c in H0.
      apply RoundingFacts.RNZ_mono; lia. }
    pose proof (RoundingFacts.V_le_max d Hnd) as Hdmax.
    destruct (RoundingFacts.add_spec o c Ho Hnc ltac:(lia)) as [Hs HVs].
    unfold PyFloat.ltb, PyFloat.add.
    rewrite (RoundingFacts.ltb_V _ _ Hnd Hs), HVs.
    apply Z.ltb_ge. exact Hsum.
Qed.

Lemma random_offset_stays_in_media_witness :
  exists o w',
    start_offset (Examples.cooperative (Some Examples.twenty))
      (Some Examples.twenty) Examples.ten "random" Examples.empty_world
      = (Ok o, w') /\
    o = Examples.five /\
    PyFloat.ltb Examples.twenty (PyFloat.add o Examples.ten) = false.
Proof.
  destruct (random_offset_stays_in_media
              (Examples.cooperative (Some Examples.twenty))
              Examples.twenty Examples.ten Examples.empty_world
              eq_refl eq_refl eq_refl eq_refl eq_refl eq_refl eq_refl eq_refl)
    as (o & w' & Hrun & Ho & _ & _ & Hend & _).
  exists o, w'. split; [exact Hrun|]. split; [|exact Hend].
  rewrite Ho. vm_compute. reflexivity.
Defined.

(** * Further properties of the code *)

(** * video_sources.py *)

Section VideoSources.

Variable E : Engine.

(** [_download_video], when a downloader fetches the video. *)
Lemma download_video_fine (id dir : string) (w : World) :
  downloads_fine E id = true ->
  download_video E id dir w =
    (Ok (PyPath.join dir (id +:+ ".mp4")),
     after_mkdir w dir [EvMkdir dir; EvDownload id]).
Proof.
  unfold downloads_fine, download_video. intros H.
  rewrite (bind_ok _ _ _ _ (mkdir_run dir w)).
  destruct (pytube_installed E).
  - apply andb_prop in H as [-> Hd].
    unfold bind, emit, ret, after_mkdir. simpl. rewrite Hd.
    now rewrite <- List.app_assoc.
  - apply andb_prop in H as [-> Hd].
    unfold bind, emit, ret, after_mkdir. simpl. rewrite Hd.
    now rewrite <- List.app_assoc.
Qed.

(** [_download_video] returns only when a downloader fetched the video. *)
Lemma download_video_ok_inv (id dir : string) (w w' : World) (p : string) :
  download_video E id dir w = (Ok p, w') -> downloads_fine E id = true.
Proof.
  unfold downloads_fine, download_video.
  rewrite (bind_ok _ _ _ _ (mkdir_run dir w)).
  destruct (pytube_installed E).
  - destruct (audio_stream E id); [|discriminate].
    unfold bind, emit. simpl. now destruct (download_ok E id).
  - destruct (youtube_dl_installed E); [|discriminate].
    unfold bind, emit. simpl. now destruct (download_ok E id).
Qed.

Lemma fetch_loop_step (dd : string) (item : Item) (rest : list Item)
    (acc : list VideoClip) (w : World) :
  Forall (fun c => downloads_fine E (video_id c) = true) (clips_of_item dd item) ->
  exists w1,
    fetch_loop E dd (item :: rest) acc w
      = fetch_loop E dd rest (acc ++ clips_of_item dd item) w1 /\
    trace w1 = trace w ++ flat_map (download_events dd) (clips_of_item dd item) /\
    next_handle w1 = next_handle w /\ draws w1 = draws w /\
    dirs w1 = match clips_of_item dd item with
              | [] => dirs w
              | _ => {[ dd ]} ∪ dirs w
              end.
Proof.
  intros Hfine. unfold clips_of_item in *. cbn [fetch_loop].
  destruct (item_videoId item) as [id|].
  2:{ exists w. rewrite !List.app_nil_r. auto. }
  destruct (String.eqb id "").
  { exists w. rewrite !List.app_nil_r. auto. }
  apply Forall_inv in Hfine. cbn [video_id] in Hfine.
  rewrite (bind_ok _ _ _ _ (download_video_fine id dd w Hfine)).
  rewrite (bind_ok _ _ _ _ (emit_after _ _)).
  eexists. split; [reflexivity|].
  cbn. rewrite <- List.app_assoc. auto.
Qed.

(** The loop of [fetch_video_clips], when it returns. *)
Lemma fetch_loop_ok (dd : string) :
  forall (items : list Item) (acc : list VideoClip) (w w' : World)
         (clips : list VideoClip),
    fetch_loop E dd items acc w = (Ok clips, w') ->
    clips = acc ++ flat_map (clips_of_item dd) items /\
    Forall (fun c => downloads_fine E (video_id c) = true)
           (flat_map (clips_of_item dd) items) /\
    trace w' = trace w
               ++ flat_map (download_events dd) (flat_map (clips_of_item dd) items) /\
    next_handle w' = next_handle w /\ draws w' = draws w /\
    dirs w' = match flat_map (clips_of_item dd) items with
              | [] => dirs w
              | _ => {[ dd ]} ∪ dirs w
              end.
Proof.
  induction items as [|item rest IH]; intros acc w w' clips H.
  - cbn in H. injection H as <- <-. cbn. rewrite !List.app_nil_r.
    repeat split; auto.
  - assert (Hfine : Forall (fun c => downloads_fine E (video_id c) = true)
                      (clips_of_item dd item)).
    { unfold clips_of_item. cbn [fetch_loop] in H.
      destruct (item_videoId item) as [id|]; [|constructor].
      destruct (String.eqb id ""); [constructor|].
      apply bind_ok_inv in H as (p & w1 & Hd & _).
      apply download_video_ok_inv in Hd. repeat constructor. exact Hd. }
    destruct (fetch_loop_step dd item rest acc w Hfine)
      as (w1 & Hstep & Ht1 & Hh1 & Hr1 & Hd1).
    rewrite Hstep in H.
    apply IH in H as (-> & Hall & Ht & Hh & Hr & Hd).
    rewrite flat_map_step, !flat_map_app.
    split; [now rewrite List.app_assoc|].
    split; [now apply Forall_app|].
    split; [now rewrite Ht, Ht1, List.app_assoc|].
    split; [congruence|]. split; [congruence|].
    rewrite Hd, Hd1.
    destruct (clips_of_item dd item) as [|c l],
             (flat_map (clips_of_item dd) rest) as [|c' l']; cbn; auto.
    now rewrite (assoc_L (∪)), union_idemp_L.
Qed.


(** [fetch_video_clips] without a key. *)
Lemma fetch_without_key (query : string) (max_results : Z)
    (api_key : option string) (download_dir : string)
    (published_after : option string) (randomize : bool) (w : World) :
  no_key (api_key_or_env E api_key) = true ->
  fetch_video_clips E query max_results api_key download_dir published_after
    randomize w = (Raise (VideoRetrievalError missing_api_key), w).
Proof.
  intros H. unfold fetch_video_clips.
  change (match api_key with
          | Some k0 => if String.eqb k0 "" then env_api_key E else Some k0
          | None => env_api_key E
          end) with (api_key_or_env E api_key).
  destruct (api_key_or_env E api_key) as [k|]; [|reflexivity].
  cbn in H. now rewrite H.
Qed.

(** [fetch_video_clips], once it has a key. *)
Lemma fetch_with_key (query : string) (max_results : Z)
    (api_key : option string) (download_dir : string)
    (published_after : option string) (randomize : bool) (k : string)
    (w : World) :
  api_key_or_env E api_key = Some k -> k <> "" ->
  fetch_video_clips E query max_results api_key download_dir published_after
    randomize w =
  (data <- call_youtube_api E
             (build_search_params query k max_results published_after) ;;
   match json_items data with
   | [] => raise (VideoRetrievalError
                    "No videos were returned by the YouTube API")
   | items =>
       clips <- fetch_loop E download_dir items [] ;;
       if randomize then ret (shuffle E clips) else ret clips
   end) w.
Proof.
  intros Hk Hne. unfold fetch_video_clips.
  change (match api_key with
          | Some k0 => if String.eqb k0 "" then env_api_key E else Some k0
          | None => env_api_key E
          end) with (api_key_or_env E api_key).
  rewrite Hk. apply String.eqb_neq in Hne. now rewrite Hne.
Qed.

Lemma call_youtube_api_200 (params : SearchParams) (resp : Response) (w : World) :
  requests_installed E = true -> http_get E params = Some resp ->
  status_code resp = 200%Z ->
  call_youtube_api E params w = (Ok resp, after w [EvHttpGet (sp_q params)] 0).
Proof.
  intros Hr Hg Hs. unfold call_youtube_api. rewrite Hr.
  rewrite (bind_ok _ _ _ _ (emit_after _ _)). rewrite Hg, Hs. reflexivity.
Qed.

Lemma call_youtube_api_ok_inv (params : SearchParams) (resp : Response)
    (w w' : World) :
  call_youtube_api E params w = (Ok resp, w') ->
  requests_installed E = true /\ http_get E params = Some resp /\
  status_code resp = 200%Z /\ w' = after w [EvHttpGet (sp_q params)] 0.
Proof.
  unfold call_youtube_api. destruct (requests_installed E); [|discriminate].
  rewrite (bind_ok _ _ _ _ (emit_after _ _)).
  destruct (http_get E params) as [r|]; [|discriminate].
  destruct (Z.eqb_spec (status_code r) 200); [|discriminate].
  intros [= <- <-]. auto.
Qed.


(** What a returning [fetch_video_clips] went through. *)
Lemma fetch_ok_inv (query : string) (max_results : Z)
    (api_key : option string) (download_dir : string)
    (published_after : option string) (randomize : bool)
    (clips : list VideoClip) (w w' : World) :
  fetch_video_clips E query max_results api_key download_dir published_after
    randomize w = (Ok clips, w') ->
  exists (k : string) (resp : Response) (l : list VideoClip),
    api_key_or_env E api_key = Some k /\ k <> "" /\
    requests_installed E = true /\
    http_get E (build_search_params query k max_results published_after)
      = Some resp /\
    status_code resp = 200%Z /\ json_items resp <> [] /\
    fetch_loop E download_dir (json_items resp) [] (after w [EvHttpGet query] 0)
      = (Ok l, w') /\
    clips = if randomize then shuffle E l else l.
Proof.
  intros H.
  destruct (api_key_or_env E api_key) as [k|] eqn:Hk.
  2:{ rewrite fetch_without_key in H by now rewrite Hk. discriminate. }
  destruct (String.eqb_spec k "") as [->|Hne].
  { rewrite fetch_without_key in H by now rewrite Hk. discriminate. }
  rewrite (fetch_with_key _ _ _ _ _ _ k w Hk Hne) in H.
  apply bind_ok_inv in H as (resp & w1 & Hcall & H).
  apply call_youtube_api_ok_inv in Hcall as (Hr & Hg & Hs & ->).
  exists k, resp.
  destruct (json_items resp) as [|item items] eqn:Hi; [discriminate|].
  apply bind_ok_inv in H as (l & w2 & Hloop & H).
  exists l. split; [reflexivity|]. split; [assumption|].
  split; [assumption|]. split; [assumption|]. split; [assumption|].
  split; [discriminate|].
  destruct randomize; injection H as <- <-; auto.
Qed.


(** The message about the key is raised for a missing key only. *)
Lemma fetch_loop_not_about_key (dd : string) :
  forall (items : list Item) (acc : list VideoClip) (w w' : World) (e : exn),
    fetch_loop E dd items acc w = (Raise e, w') ->
    e <> VideoRetrievalError missing_api_key.
Proof.
  induction items as [|item rest IH]; intros acc w w' e H; [discriminate|].
  cbn [fetch_loop] in H.
  destruct (item_videoId item) as [id|]; [|now apply IH in H].
  destruct (String.eqb id ""); [now apply IH in H|].
  unfold bind at 1 in H.
  destruct (download_video E id dd w) as [[p|e1] w1] eqn:Hd.
  - rewrite (bind_ok _ _ _ _ (emit_after _ _)) in H. now apply IH in H.
  - injection H as <- _. unfold download_video in Hd.
    rewrite (bind_ok _ _ _ _ (mkdir_run _ _)) in Hd.
    destruct (pytube_installed E).
    + destruct (audio_stream E id).
      * rewrite (bind_ok _ _ _ _ (emit_after _ _)) in Hd.
        destruct (download_ok E id); [discriminate|].
        now injection Hd as <- _.
      * injection Hd as <- _. rewrite PathFacts.app_cons. discriminate.
    + destruct (youtube_dl_installed E).
      * rewrite (bind_ok _ _ _ _ (emit_after _ _)) in Hd.
        destruct (download_ok E id); [discriminate|].
        now injection Hd as <- _.
      * now injection Hd as <- _.
Qed.

Lemma fetch_with_key_not_about_key (query : string) (max_results : Z)
    (api_key : option string) (download_dir : string)
    (published_after : option string) (randomize : bool) (w w' : World) :
  no_key (api_key_or_env E api_key) = false ->
  fetch_video_clips E query max_results api_key download_dir published_after
    randomize w <> (Raise (VideoRetrievalError missing_api_key), w').
Proof.
  intros Hkey H.
  destruct (api_key_or_env E api_key) as [k|] eqn:Hk; [|discriminate].
  cbn in Hkey. apply String.eqb_neq in Hkey.
  rewrite (fetch_with_key _ _ _ _ _ _ k w Hk Hkey) in H.
  unfold bind at 1 in H.
  destruct (call_youtube_api E _ w) as [[resp|e] w1] eqn:Hcall.
  - destruct (json_items resp) as [|item items]; [discriminate|].
    unfold bind in H.
    destruct (fetch_loop E download_dir (item :: items) [] w1)
      as [[l|e] w2] eqn:Hloop; [now destruct randomize|].
    injection H as -> _. now apply fetch_loop_not_about_key in Hloop.
  - injection H as -> _. unfold call_youtube_api in Hcall.
    destruct (requests_installed E); [|discriminate].
    rewrite (bind_ok _ _ _ _ (emit_after _ _)) in Hcall.
    destruct (http_get E _) as [resp|]; [|discriminate].
    destruct (Z.eqb (status_code resp) 200); [discriminate|].
    injection Hcall as Hcall _. discriminate Hcall.
Qed.

End VideoSources.

(** ** Retrieval *)

(** X1.  [fetch_video_clips] raises its [VideoRetrievalError] about the API
    key exactly when there is no key, neither passed in nor in the
    environment (absent or empty in both places); it does so before
    anything else: no request is sent and no directory is made. *)
Theorem fetch_without_api_key
    (E : Engine) (query : string) (max_results : Z) (api_key : option string)
    (download_dir : string) (published_after : option string)
    (randomize : bool) (w : World) :
  (no_key (api_key_or_env E api_key) = true ->
   fetch_video_clips E query max_results api_key download_dir published_after
     randomize w = (Raise (VideoRetrievalError missing_api_key), w)) /\
  (forall w' : World,
     fetch_video_clips E query max_results api_key download_dir
       published_after randomize w
     = (Raise (VideoRetrievalError missing_api_key), w') ->
     no_key (api_key_or_env E api_key) = true /\ w' = w).
Proof.
  split; [apply fetch_without_key|].
  intros w' H.
  destruct (no_key (api_key_or_env E api_key)) eqn:Hkey.
  - rewrite fetch_without_key in H by exact Hkey. now injection H as <-.
  - now apply fetch_with_key_not_about_key in H.
Qed.

Lemma fetch_without_api_key_witness :
  fetch_video_clips
    (Scenarios.with_network (Some "") true (fun _ => None) Scenarios.basic)
    "hits" 5 (Some "") "downloads" None true Examples.empty_world =
  (Raise (VideoRetrievalError missing_api_key), Examples.empty_world).
Proof.
  apply (proj1 (fetch_without_api_key
           (Scenarios.with_network (Some "") true (fun _ => None)
              Scenarios.basic)
           "hits" 5 (Some "") "downloads" None true Examples.empty_world)).
  reflexivity.
Defined.

(** X2.  With a key, [fetch_video_clips] fails with a [VideoRetrievalError]
    when the [requests] package is missing (nothing is sent) and when the
    API answers with a status other than 200 (one request was sent, the
    message carries the status and the body); in both cases nothing is
    downloaded and no directory is made. *)
Theorem fetch_reports_api_failure
    (E : Engine) (query : string) (max_results : Z) (api_key : option string)
    (download_dir : string) (published_after : option string)
    (randomize : bool) (k : string) (w : World) :
  api_key_or_env E api_key = Some k -> k <> "" ->
  (requests_installed E = false ->
   fetch_video_clips E query max_results api_key download_dir published_after
     randomize w =
   (Raise (VideoRetrievalError
      "The 'requests' package is required to call the YouTube API. Install it with 'pip install requests'."),
    w)) /\
  (forall resp : Response,
     requests_installed E = true ->
     http_get E (build_search_params query k max_results published_after)
       = Some resp ->
     status_code resp <> 200%Z ->
     fetch_video_clips E query max_results api_key download_dir published_after
       randomize w =
     (Raise (VideoRetrievalError
               ("YouTube API request failed with status "
                +:+ pretty (status_code resp) +:+ ": " +:+ text resp)),
      after w [EvHttpGet query] 0)).
Proof.
  intros Hk Hne. split.
  - intros Hr. rewrite (fetch_with_key E _ _ _ _ _ _ k w Hk Hne).
    unfold bind, call_youtube_api. now rewrite Hr.
  - intros resp Hr Hg Hs. rewrite (fetch_with_key E _ _ _ _ _ _ k w Hk Hne).
    unfold bind at 1. unfold call_youtube_api. rewrite Hr.
    rewrite (bind_ok _ _ _ _ (emit_after _ _)). rewrite Hg.
    apply Z.eqb_neq in Hs. now rewrite Hs.
Qed.

Lemma fetch_reports_api_failure_witness :
  fetch_video_clips
    (Scenarios.with_network None true
       (fun _ => Some (Scenarios.answer 403 "quotaExceeded" Examples.two_items))
       Scenarios.basic)
    "hits" 5 (Some "secret") "downloads" None true Examples.empty_world =
  (Raise (VideoRetrievalError
            "YouTube API request failed with status 403: quotaExceeded"),
   after Examples.empty_world [EvHttpGet "hits"] 0).
Proof.
  refine (proj2 (fetch_reports_api_failure
            (Scenarios.with_network None true
               (fun _ => Some (Scenarios.answer 403 "quotaExceeded"
                                 Examples.two_items))
               Scenarios.basic)
            "hits" 5 (Some "secret") "downloads" None true "secret"
            Examples.empty_world eq_refl _)
          (Scenarios.answer 403 "quotaExceeded" Examples.two_items)
          eq_refl eq_refl _); discriminate.
Defined.

(** X3.  An answer of the API without items makes [fetch_video_clips]
    raise a [VideoRetrievalError] right after the request: nothing is
    downloaded and the download directory is not made. *)
Theorem fetch_rejects_empty_answer
    (E : Engine) (query : string) (max_results : Z) (api_key : option string)
    (download_dir : string) (published_after : option string)
    (randomize : bool) (k : string) (resp : Response) (w : World) :
  api_key_or_env E api_key = Some k -> k <> "" ->
  requests_installed E = true ->
  http_get E (build_search_params query k max_results published_after)
    = Some resp ->
  status_code resp = 200%Z ->
  json_items resp = [] ->
  fetch_video_clips E query max_results api_key download_dir published_after
    randomize w =
  (Raise (VideoRetrievalError "No videos were returned by the YouTube API"),
   after w [EvHttpGet query] 0).
Proof.
  intros Hk Hne Hr Hg Hs Hi.
  rewrite (fetch_with_key E _ _ _ _ _ _ k w Hk Hne).
  rewrite (bind_ok _ _ _ _ (call_youtube_api_200 E _ resp w Hr Hg Hs)).
  now rewrite Hi.
Qed.

Lemma fetch_rejects_empty_answer_witness :
  fetch_video_clips
    (Scenarios.with_network (Some "key") true
       (fun _ => Some (Scenarios.answer 200 "" [])) Scenarios.basic)
    "hits" 5 None "downloads" (Some "2024-01-01T00:00:00Z") false
    Examples.empty_world =
  (Raise (VideoRetrievalError "No videos were returned by the YouTube API"),
   after Examples.empty_world [EvHttpGet "hits"] 0).
Proof.
  refine (fetch_rejects_empty_answer
            (Scenarios.with_network (Some "key") true
               (fun _ => Some (Scenarios.answer 200 "" [])) Scenarios.basic)
            "hits" 5 None "downloads" (Some "2024-01-01T00:00:00Z") false
            "key" (Scenarios.answer 200 "" []) Examples.empty_world
            eq_refl _ eq_refl eq_refl eq_refl eq_refl); discriminate.
Defined.





(** X6.  Shuffling is the last thing [fetch_video_clips] does: with
    [randomize] on, it makes the same requests and downloads, fails in the
    same way, and returns [random.shuffle] of the list it returns with
    [randomize] off.  As [random.shuffle] reorders its list, the clips
    returned are the same up to their order. *)
Theorem fetch_randomize_only_reorders
    (E : Engine) (query : string) (max_results : Z) (api_key : option string)
    (download_dir : string) (published_after : option string) (w : World) :
  fetch_video_clips E query max_results api_key download_dir published_after
    true w =
  match fetch_video_clips E query max_results api_key download_dir
          published_after false w with
  | (Ok clips, w') => (Ok (shuffle E clips), w')
  | (Raise e, w') => (Raise e, w')
  end /\
  (shuffle_permutes E ->
   forall (clips : list VideoClip) (w' : World),
     fetch_video_clips E query max_results api_key download_dir
       published_after true w = (Ok clips, w') ->
     exists l,
       fetch_video_clips E query max_results api_key download_dir
         published_after false w = (Ok l, w') /\
       Permutation l clips).
Proof.
  assert (Heq :
    fetch_video_clips E query max_results api_key download_dir published_after
      true w =
    match fetch_video_clips E query max_results api_key download_dir
            published_after false w with
    | (Ok clips, w') => (Ok (shuffle E clips), w')
    | (Raise e, w') => (Raise e, w')
    end).
  { unfold fetch_video_clips.
    destruct (match api_key with
              | Some k => if String.eqb k "" then env_api_key E else Some k
              | None => env_api_key E
              end) as [k|]; [|reflexivity].
    destruct (String.eqb k ""); [reflexivity|].
    unfold bind at 1 3.
    destruct (call_youtube_api E _ w) as [[resp|e] w1]; [|reflexivity].
    destruct (json_items resp) as [|item items]; [reflexivity|].
    unfold bind.
    now destruct (fetch_loop E download_dir (item :: items) [] w1) as [[l|e] w2]. }
  split; [exact Heq|].
  intros Hperm clips w' H. rewrite Heq in H.
  destruct (fetch_video_clips E query max_results api_key download_dir
              published_after false w) as [[l|e] w2]; [|discriminate].
  injection H as <- <-. exists l. split; [reflexivity | apply Hperm].
Qed.

Lemma fetch_randomize_only_reorders_witness :
  exists l w',
    fetch_video_clips (Scenarios.with_shuffle (@rev VideoClip) Scenarios.basic)
      "hits" 2 None "downloads" None false Examples.empty_world = (Ok l, w') /\
    Permutation l
      [ {| video_id := "def456"; title := "Song 2";
           url := "https://www.youtube.com/watch?v=def456";
           file_path := "downloads/def456.mp4" |};
        {| video_id := "abc123"; title := "Song 1";
           url := "https://www.youtube.com/watch?v=abc123";
           file_path := "downloads/abc123.mp4" |} ].
Proof.
  destruct (proj2 (fetch_randomize_only_reorders
                     (Scenarios.with_shuffle (@rev VideoClip) Scenarios.basic)
                     "hits" 2 None "downloads" None Examples.empty_world)
              (fun l => Permutation_rev l)
              _ _ eq_refl) as (l & Hrun & Hperm).
  exists l. eexists. split; [exact Hrun | exact Hperm].
Defined.

(** X7.  For [fetch_video_clips] an empty string is no value: an empty
    [api_key] is replaced by the key of the environment as a missing one
    is, and an empty [published_after] is left out of the request as a
    missing one is.  The request carries [publishedAfter] exactly when
    [published_after] is a string that is not empty. *)
Theorem empty_strings_count_as_absent
    (E : Engine) (query : string) (max_results : Z) (api_key : option string)
    (download_dir : string) (published_after : option string)
    (randomize : bool) (w : World) :
  fetch_video_clips E query max_results (Some "") download_dir published_after
    randomize w =
  fetch_video_clips E query max_results None download_dir published_after
    randomize w /\
  fetch_video_clips E query max_results api_key download_dir (Some "")
    randomize w =
  fetch_video_clips E query max_results api_key download_dir None
    randomize w /\
  (forall k : string,
     sp_publishedAfter (build_search_params query k max_results published_after)
       = None <-> published_after = None \/ published_after = Some "") /\
  (forall k s : string,
     s <> "" ->
     sp_publishedAfter (build_search_params query k max_results (Some s))
       = Some s).
Proof.
  split; [reflexivity|]. split; [reflexivity|]. split.
  - intros k. cbn. destruct published_after as [s|]; [|tauto].
    destruct (String.eqb_spec s "") as [->|Hs]; [tauto|].
    split; [discriminate|]. intros [H|H]; [discriminate | congruence].
  - intros k s Hs. cbn. apply String.eqb_neq in Hs. now rewrite Hs.
Qed.

Lemma empty_strings_count_as_absent_witness :
  sp_publishedAfter
    (build_search_params "hits" "key" 5 (Some "2024-01-01T00:00:00Z"))
  = Some "2024-01-01T00:00:00Z".
Proof.
  apply (proj2 (proj2 (proj2 (empty_strings_count_as_absent Scenarios.basic
           "hits" 5 None "downloads" None true Examples.empty_world)))).
  discriminate.
Defined.

(** * clipper.py, round by round *)

Lemma bind_assoc {A B C} (m : M A) (k : A -> M B) (h : B -> M C) (w : World) :
  bind (bind m k) h w = bind m (fun a => bind (k a) h) w.
Proof. unfold bind. now destruct (m w) as [[a|e] w1]. Qed.

Lemma bind_ext {A B} (m : M A) (k k' : A -> M B) (w : World) :
  (forall a w1, k a w1 = k' a w1) -> bind m k w = bind m k' w.
Proof. intros H. unfold bind. destruct (m w) as [[a|e] w1]; auto. Qed.

(** ** Directories *)

Section OnlyMakes.

Context {A B : Type}.
Variable D : gset string.

Lemma only_makes_ret (a : A) : only_makes D (ret a).
Proof. intros w r w' [= <- <-]. set_solver. Qed.

Lemma only_makes_raise (e : exn) : only_makes D (@raise A e).
Proof. intros w r w' [= <- <-]. set_solver. Qed.

Lemma only_makes_bind (m : M A) (k : A -> M B) :
  only_makes D m -> (forall a, only_makes D (k a)) -> only_makes D (bind m k).
Proof.
  intros Hm Hk w r w' H. unfold bind in H.
  destruct (m w) as [[a|e] w1] eqn:Hmw.
  - destruct (Hm _ _ _ Hmw) as [H1 H2], (Hk _ _ _ _ H) as [H3 H4].
    split; [now transitivity (dirs w1)|].
    transitivity (D ∪ dirs w1); [exact H4|].
    apply union_least; [apply union_subseteq_l | exact H2].
  - injection H as <- <-. exact (Hm _ _ _ Hmw).
Qed.

End OnlyMakes.

Lemma only_makes_emit (D : gset string) (ev : event) : only_makes D (emit ev).
Proof. intros w r w' [= <- <-]. set_solver. Qed.

Lemma only_makes_fresh (D : gset string) : only_makes D fresh.
Proof. intros w r w' [= <- <-]. set_solver. Qed.

Lemma only_makes_mkdir (D : gset string) (p : string) :
  p ∈ D -> only_makes D (mkdir p).
Proof.
  intros Hp w r w' [= <- <-]. cbn. split; [apply union_subseteq_r|].
  apply union_mono_r. now apply singleton_subseteq_l.
Qed.

Lemma only_makes_random_random (D : gset string) (E : Engine) :
  only_makes D (random_random E).
Proof. intros w r w' [= <- <-]. set_solver. Qed.

Ltac only_makes_walk :=
  repeat first
    [ apply only_makes_ret | apply only_makes_raise | apply only_makes_fresh
    | apply only_makes_random_random
    | apply only_makes_emit | apply only_makes_mkdir
    | apply only_makes_bind; [|intros ?]
    | match goal with
      | |- only_makes _ (if ?b then _ else _) => destruct b
      | |- only_makes _ (match ?x with _ => _ end) => destruct x
      end ].

Section OnlyMakesCalls.

Variable E : Engine.


Lemma assemble_loop_makes_nothing (silence_duration : spec_float)
    (audio_only : bool) (clips : list string) :
  forall assembled_clips : list MediaClip,
    only_makes ∅ (assemble_loop E silence_duration audio_only clips
                    assembled_clips).
Proof.
  induction clips as [|p rest IH]; intros acc; cbn [assemble_loop].
  - apply only_makes_ret.
  - unfold open_media, audio_clip, color_clip, set_audio.
    only_makes_walk; apply IH.
Qed.

Lemma close_all_makes_nothing (cs : list MediaClip) :
  only_makes ∅ (close_all cs).
Proof.
  induction cs as [|c cs IH]; cbn [close_all]; unfold close; only_makes_walk.
  exact IH.
Qed.

(** [build_blindtest], after its checks and the [mkdir]. *)
Lemma render_makes_nothing (output_path : string)
    (silence_duration : spec_float) (audio_only : bool) (clips : list string) :
  only_makes ∅
    (assembled_clips <- assemble_loop E silence_duration audio_only clips [] ;;
     final_clip <- concatenate E audio_only assembled_clips ;;
     (if audio_only then write_audiofile E final_clip output_path
      else write_videofile E final_clip output_path) ;;;
     close_all assembled_clips ;;; close final_clip ;;; ret output_path).
Proof.
  apply only_makes_bind; [apply assemble_loop_makes_nothing | intros segs].
  unfold concatenate, write_audiofile, write_videofile, close.
  apply only_makes_bind; [only_makes_walk | intros final].
  apply only_makes_bind; [only_makes_walk | intros _].
  apply only_makes_bind; [apply close_all_makes_nothing | intros _].
  only_makes_walk.
Qed.

End OnlyMakesCalls.

Section ClipRounds.

Variable E : Engine.
Variables (clip_duration : spec_float) (output_dir start_strategy : string)
          (audio_only : bool).

(** Choosing the start draws at most one random number, and makes no other
    change. *)
Lemma start_offset_draws (duration : option spec_float) (w : World) :
  exists start,
    start_offset E duration clip_duration start_strategy w =
      (Ok start,
       {| trace := trace w; next_handle := next_handle w; dirs := dirs w;
          draws := (if draws_start duration clip_duration start_strategy
                    then 1 else 0) + draws w |}) /\
    (draws_start duration clip_duration start_strategy = false ->
     start = PyFloat.zero).
Proof.
  unfold start_offset, draws_start. destruct w as [t n d r].
  destruct duration as [x|]; [|now exists PyFloat.zero].
  destruct (PyFloat.ltb x clip_duration); [now exists PyFloat.zero|].
  destruct (String.eqb start_strategy "random"); [|now exists PyFloat.zero].
  eexists. split; [reflexivity | discriminate].
Qed.

(** One round of the loop, when the loop returns. *)
Lemma clip_loop_round (clip : VideoClip) (rest : list VideoClip)
    (generated_files files : list string) (w w' : World) :
  clip_loop E clip_duration output_dir start_strategy audio_only
    (clip :: rest) generated_files w = (Ok files, w') ->
  exists (start : spec_float) (w1 : World),
    clip_loop E clip_duration output_dir start_strategy audio_only rest
      (generated_files ++ [excerpt_path output_dir audio_only clip]) w1
      = (Ok files, w') /\
    trace w1 = trace w ++ excerpt_events clip_duration output_dir audio_only
                            (next_handle w) clip start /\
    next_handle w1 = 2 + next_handle w /\
    dirs w1 = dirs w /\
    draws w1 = (if draws_start (duration_of E audio_only clip) clip_duration
                     start_strategy then 1 else 0) + draws w /\
    (draws_start (duration_of E audio_only clip) clip_duration start_strategy
       = false -> start = PyFloat.zero).
Proof.
  intros H. cbn [clip_loop] in H.
  apply bind_ok_inv in H as (c & w1 & Hopen & H).
  apply open_media_ok_inv in Hopen as (info & Hp & Hc & ->).
  assert (Hd : m_duration c = duration_of E audio_only clip).
  { unfold duration_of. now rewrite Hp, Hc. }
  rewrite Hd in H.
  match type of H with
  | bind (start_offset E ?d _ _) _ ?w1 = _ =>
      destruct (start_offset_draws d w1) as (start & Hstart & Hzero)
  end.
  rewrite (bind_ok _ _ _ _ Hstart) in H.
  apply bind_ok_inv in H as (sc & w3 & Hsub & H).
  apply subclip_ok_inv in Hsub as (_ & Hsc & ->).
  rewrite target_of_excerpt_path in H.
  apply bind_ok_inv in H as ([] & w4 & Hwrite & H).
  apply write_ok_inv in Hwrite as (_ & ->).
  rewrite !(bind_ok _ _ _ _ (close_run _ _)) in H.
  exists start. eexists. split; [exact H|].
  assert (Hh : m_handle c = next_handle w) by now rewrite Hc.
  assert (Hh' : m_handle sc = S (next_handle w)) by now rewrite Hsc.
  rewrite Hh, Hh'. cbn. rewrite <- !List.app_assoc. cbn.
  repeat split; auto.
Qed.

(** The loop of [clip_videos], when it returns: its external calls, the
    clip objects it made and the random numbers it drew. *)
Lemma clip_loop_trace :
  forall (clips : list VideoClip) (generated_files files : list string)
         (w w' : World),
    clip_loop E clip_duration output_dir start_strategy audio_only
      clips generated_files w = (Ok files, w') ->
    exists starts : list spec_float,
      List.length starts = List.length clips /\
      trace w' = trace w ++ clip_trace clip_duration output_dir audio_only
                              (next_handle w) clips starts /\
      next_handle w' = 2 * List.length clips + next_handle w /\
      dirs w' = dirs w /\
      draws w' =
        List.length
          (List.filter (fun c => draws_start (duration_of E audio_only c)
                                   clip_duration start_strategy) clips)
        + draws w /\
      (start_strategy <> "random" -> Forall (eq PyFloat.zero) starts).
Proof.
  induction clips as [|clip rest IH]; intros acc files w w' H.
  - cbn in H. injection H as _ <-. exists []. cbn.
    rewrite List.app_nil_r. repeat split; auto.
  - apply clip_loop_round in H
      as (start & w1 & H & Ht1 & Hh1 & Hd1 & Hr1 & Hzero).
    apply IH in H as (starts & Hlen & Ht & Hh & Hd & Hr & Hstarts).
    exists (start :: starts). cbn [List.length clip_trace List.filter].
    split; [now rewrite Hlen|].
    split; [rewrite Ht, Ht1, Hh1; now rewrite <- List.app_assoc|].
    split; [lia|]. split; [congruence|].
    split.
    + rewrite Hr, Hr1.
      destruct (draws_start (duration_of E audio_only clip) clip_duration
                  start_strategy); cbn [List.length]; lia.
    + intros Hs. constructor; [|auto].
      symmetry. apply Hzero. unfold draws_start.
      destruct (duration_of E audio_only clip); [|reflexivity].
      apply String.eqb_neq in Hs. rewrite Hs. apply andb_false_r.
Qed.

(** The loop over two lists is the loop over the first, then the loop over
    the second, which goes on with the files of the first. *)
Lemma clip_loop_app (clips1 clips2 : list VideoClip) :
  forall (generated_files : list string) (w : World),
    clip_loop E clip_duration output_dir start_strategy audio_only
      (clips1 ++ clips2) generated_files w =
    (files <- clip_loop E clip_duration output_dir start_strategy audio_only
                clips1 generated_files ;;
     clip_loop E clip_duration output_dir start_strategy audio_only
       clips2 files) w.
Proof.
  induction clips1 as [|clip rest IH]; intros acc w; [reflexivity|].
  cbn [List.app clip_loop].
  do 3 (rewrite bind_assoc; apply bind_ext; intros ? ?).
  destruct (target_of output_dir audio_only clip) as [target|]; [|reflexivity].
  do 3 (rewrite bind_assoc; apply bind_ext; intros ? ?).
  apply IH.
Qed.


End ClipRounds.

(** ** Excerpts *)

(** What [clip_videos] did before its loop, when it returns. *)
Lemma clip_videos_ok_loop (E : Engine) (clip_duration : spec_float)
    (output_dir start_strategy : string) (audio_only : bool)
    (clips : list VideoClip) (w w' : World) (files : list string) :
  clip_videos E clip_duration output_dir start_strategy audio_only clips w
    = (Ok files, w') ->
  PyFloat.leb clip_duration PyFloat.zero = false /\
  moviepy_installed E = true /\
  clip_loop E clip_duration output_dir start_strategy audio_only clips []
    {| trace := trace w ++ [EvMkdir output_dir]; next_handle := next_handle w;
       dirs := {[ output_dir ]} ∪ dirs w; draws := draws w |} = (Ok files, w').
Proof.
  unfold clip_videos, clipper_load_moviepy.
  destruct (PyFloat.leb clip_duration PyFloat.zero); [discriminate|].
  destruct (moviepy_installed E); [|discriminate].
  rewrite (bind_ok _ _ _ _ (eq_refl : ret tt w = (Ok tt, w))).
  now rewrite (bind_ok _ _ _ _ (mkdir_run _ _)).
Qed.

(** X8.  A returning [clip_videos] has made the output directory and then
    worked through the sources one at a time, in their order: open the
    file, cut [clip_duration] seconds from the chosen start, write the
    excerpt, close the file, close the excerpt.  A source is closed before
    the next one is opened, so two clip objects at most are open at any
    time, and two are made for each source.  With a strategy other than
    "random" every excerpt starts at 0. *)
Theorem clip_videos_works_in_rounds
    (E : Engine) (clip_duration : spec_float)
    (output_dir start_strategy : string) (audio_only : bool)
    (clips : list VideoClip) (w w' : World) (files : list string) :
  clip_videos E clip_duration output_dir start_strategy audio_only clips w
    = (Ok files, w') ->
  exists starts : list spec_float,
    List.length starts = List.length clips /\
    trace w' = trace w ++ EvMkdir output_dir
                 :: clip_trace clip_duration output_dir audio_only
                      (next_handle w) clips starts /\
    next_handle w' = 2 * List.length clips + next_handle w /\
    dirs w' = {[ output_dir ]} ∪ dirs w /\
    (start_strategy <> "random" -> Forall (eq PyFloat.zero) starts).
Proof.
  intros H. apply clip_videos_ok_loop in H as (_ & _ & H).
  apply clip_loop_trace in H as (starts & Hlen & Ht & Hh & Hd & _ & Hz).
  exists starts. cbn in Ht, Hh, Hd. rewrite <- List.app_assoc in Ht.
  auto 6.
Qed.

Lemma clip_videos_works_in_rounds_witness :
  exists files w',
    clip_videos Scenarios.basic Examples.ten "clips" "start" true
      [Examples.item "abc123"; Examples.item "def456"] Examples.empty_world
      = (Ok files, w') /\
    trace w' =
      [ EvMkdir "clips";
        EvAudioFileClip 0 "downloads/abc123.mp4";
        EvSubclip 1 0 PyFloat.zero Examples.ten;
        EvWriteAudiofile 1 "clips/abc123_clip.mp3"; EvClose 0; EvClose 1;
        EvAudioFileClip 2 "downloads/def456.mp4";
        EvSubclip 3 2 PyFloat.zero Examples.ten;
        EvWriteAudiofile 3 "clips/def456_clip.mp3"; EvClose 2; EvClose 3 ].
Proof.
  destruct (clip_videos_returns Scenarios.basic Examples.ten "clips" "start"
              true [Examples.item "abc123"; Examples.item "def456"]
              Examples.empty_world eq_refl eq_refl ltac:(discriminate)
              ltac:(reflexivity) ltac:(reflexivity)) as (files & w' & Hrun).
  exists files, w'. split; [exact Hrun|].
  destruct (clip_videos_works_in_rounds Scenarios.basic Examples.ten "clips"
              "start" true [Examples.item "abc123"; Examples.item "def456"]
              Examples.empty_world w' files Hrun)
    as (starts & Hlen & Ht & _ & _ & Hz).
  clear Hrun. destruct starts as [|s1 [|s2 [|s3 starts]]]; try discriminate Hlen.
  assert (Hs : Forall (eq PyFloat.zero) [s1; s2]) by (apply Hz; discriminate).
  apply Forall_cons_iff in Hs as [<- Hs].
  apply Forall_cons_iff in Hs as [<- _].
  exact Ht.
Defined.

(** X9.  [clip_videos] calls the random generator once for each source
    whose duration is known and not below [clip_duration], when the
    strategy is "random", and never otherwise: a returning call has drawn
    as many numbers as there are such sources. *)
Theorem clip_videos_random_draws
    (E : Engine) (clip_duration : spec_float)
    (output_dir start_strategy : string) (audio_only : bool)
    (clips : list VideoClip) (w w' : World) (files : list string) :
  clip_videos E clip_duration output_dir start_strategy audio_only clips w
    = (Ok files, w') ->
  draws w' =
    List.length
      (List.filter (fun c => draws_start (duration_of E audio_only c)
                               clip_duration start_strategy) clips)
    + draws w /\
  draws w' <= List.length clips + draws w /\
  (start_strategy <> "random" -> draws w' = draws w).
Proof.
  intros H. apply clip_videos_ok_loop in H as (_ & _ & H).
  apply clip_loop_trace in H as (starts & _ & _ & _ & _ & Hr & _).
  cbn in Hr. split; [exact Hr|]. split.
  - rewrite Hr. pose proof (List.filter_length_le
      (fun c => draws_start (duration_of E audio_only c) clip_duration
                  start_strategy) clips). lia.
  - intros Hs. rewrite Hr.
    replace (List.filter _ clips) with (@nil VideoClip); [reflexivity|].
    symmetry. apply filter_nil_iff. intros c _. unfold draws_start.
    destruct (duration_of E audio_only c); [|reflexivity].
    apply String.eqb_neq in Hs. rewrite Hs. apply andb_false_r.
Qed.

Lemma clip_videos_random_draws_witness :
  exists files w',
    clip_videos
      (Scenarios.with_media true
         (fun _ p => Some {| mi_duration :=
                               if String.eqb p "downloads/short.mp4"
                               then Some Examples.five
                               else Some Examples.twenty;
                             mi_size := (640, 480)%Z |})
         Scenarios.basic)
      Examples.ten "clips" "random" false
      [Examples.item "abc123"; Examples.item "short"; Examples.item "def456"]
      Examples.empty_world = (Ok files, w') /\
    draws w' = 2.
Proof.
  match goal with
  | |- exists files w', clip_videos ?E ?cd ?out ?s ?ao ?clips ?w = _ /\ _ =>
      destruct (clip_videos_returns E cd out s ao clips w eq_refl eq_refl
                  ltac:(discriminate) ltac:(reflexivity) ltac:(reflexivity))
        as (files & w' & Hrun);
      exists files, w'; split; [exact Hrun|];
      exact (proj1 (clip_videos_random_draws E cd out s ao clips w w' files
                      Hrun))
  end.
Defined.

(** X10.  [clip_videos] undoes nothing.  If it returns on [clips1], then on
    [clips1 ++ clips2] it first does all it did on [clips1] and goes on
    with [clips2]; when the file of the first source of [clips2] cannot be
    opened the call ends with the exception of the media engine, the
    excerpts of [clips1] stay written, and their list is lost. *)
Theorem clip_videos_keeps_earlier_excerpts
    (E : Engine) (clip_duration : spec_float)
    (output_dir start_strategy : string) (audio_only : bool)
    (clips1 clips2 : list VideoClip) (w w1 : World) (files1 : list string) :
  clip_videos E clip_duration output_dir start_strategy audio_only clips1 w
    = (Ok files1, w1) ->
  clip_videos E clip_duration output_dir start_strategy audio_only
    (clips1 ++ clips2) w =
  clip_loop E clip_duration output_dir start_strategy audio_only
    clips2 files1 w1 /\
  (forall (clip : VideoClip) (rest : list VideoClip),
     clips2 = clip :: rest ->
     probe E audio_only (file_path clip) = None ->
     clip_videos E clip_duration output_dir start_strategy audio_only
       (clips1 ++ clips2) w =
     (Raise (OtherError "OSError"),
      after w1 [EvFailed (if audio_only then "AudioFileClip"
                          else "VideoFileClip")] 0) /\
     written_files
       (new_events (clip_videos E clip_duration output_dir start_strategy
                      audio_only (clips1 ++ clips2)) w)
     = map (excerpt_path output_dir audio_only) clips1).
Proof.
  intros H.
  assert (Happ :
    clip_videos E clip_duration output_dir start_strategy audio_only
      (clips1 ++ clips2) w =
    clip_loop E clip_duration output_dir start_strategy audio_only
      clips2 files1 w1).
  { apply clip_videos_ok_loop in H as (Hd & Hm & H).
    unfold clip_videos, clipper_load_moviepy. rewrite Hd, Hm.
    rewrite (bind_ok _ _ _ _ (eq_refl : ret tt w = (Ok tt, w))).
    rewrite (bind_ok _ _ _ _ (mkdir_run _ _)).
    rewrite clip_loop_app. now rewrite (bind_ok _ _ _ _ H). }
  split; [exact Happ|].
  intros clip rest -> Hp.
  assert (Hrun :
    clip_videos E clip_duration output_dir start_strategy audio_only
      (clips1 ++ clip :: rest) w =
    (Raise (OtherError "OSError"),
     after w1 [EvFailed (if audio_only then "AudioFileClip"
                         else "VideoFileClip")] 0)).
  { rewrite Happ. cbn [clip_loop].
    now rewrite (bind_raise _ _ _ _ (open_media_raise E _ _ _ Hp)). }
  split; [exact Hrun|].
  apply clip_videos_ok in H as (_ & evs & Ht & _ & Hw).
  rewrite (new_events_app _ _ (EvMkdir output_dir :: evs ++
             [EvFailed (if audio_only then "AudioFileClip"
                        else "VideoFileClip")])).
  - cbn. unfold written_files in *. rewrite flat_map_app, Hw. cbn.
    apply List.app_nil_r.
  - rewrite Hrun. cbn. rewrite Ht. now rewrite <- List.app_assoc.
Qed.

Lemma clip_videos_keeps_earlier_excerpts_witness :
  written_files
    (new_events
       (clip_videos
          (Scenarios.with_media true
             (fun _ p => if String.eqb p "downloads/gone.mp4" then None
                         else Some {| mi_duration := Some Examples.twenty;
                                      mi_size := (640, 480)%Z |})
             Scenarios.basic)
          Examples.ten "clips" "random" false
          ([Examples.item "abc123"]
           ++ [Examples.item "gone"; Examples.item "def456"]))
       Examples.empty_world)
  = ["clips/abc123_clip.mp4"].
Proof.
  match goal with
  | |- written_files
         (new_events (clip_videos ?E ?cd ?out ?s ?ao (?l1 ++ ?l2)) ?w) = _ =>
      destruct (clip_videos_returns E cd out s ao l1 w eq_refl eq_refl)
        as (files & w1 & Hrun);
      [ intros c [<-|[]]; discriminate | reflexivity | reflexivity | ];
      exact (proj2 (proj2 (clip_videos_keeps_earlier_excerpts
                             E cd out s ao l1 l2 w w1 files Hrun)
                      (Examples.item "gone") [Examples.item "def456"]
                      eq_refl eq_refl))
  end.
Defined.



(** * assembler.py, round by round *)

Section AssembleRounds.

Variable E : Engine.
Variables (silence_duration : spec_float) (audio_only : bool).

(** The loop of [build_blindtest] makes clip objects and does nothing
    else. *)
Lemma assemble_loop_makes_segments :
  forall (clips : list string) (assembled_clips segs : list MediaClip)
         (w w' : World),
    assemble_loop E silence_duration audio_only clips assembled_clips w
      = (Ok segs, w') ->
    exists evs, trace w' = trace w ++ evs /\
                Forall (fun ev => makes_segment ev = true) evs.
Proof.
  induction clips as [|p rest IH]; intros acc segs w w' H; cbn [assemble_loop] in H.
  - injection H as _ <-. exists []. now rewrite List.app_nil_r.
  - destruct audio_only, (PyFloat.truthy silence_duration);
      apply bind_ok_inv in H as (c & w1 & Hopen & H);
      apply open_media_ok_inv in Hopen as (info & _ & -> & ->);
      rewrite ?(bind_ok _ _ _ _ (color_clip_run _ _ _)) in H;
      rewrite ?(bind_ok _ _ _ _ (audio_clip_run _ _)) in H;
      rewrite ?(bind_ok _ _ _ _ (set_audio_run _ _ _)) in H;
      apply IH in H as (evs & Ht & Hall);
      rewrite ?after_after in Ht; cbn in Ht;
      rewrite <- ?List.app_assoc in Ht;
      eexists; (split; [exact Ht|]);
      apply Forall_app; (split; [repeat constructor | exact Hall]).
Qed.


End AssembleRounds.

(** The silences of a video, one round after the other. *)
Lemma assemble_loop_video_rounds (E : Engine) (silence_duration : spec_float) :
  PyFloat.truthy silence_duration = true ->
  forall (clips : list string) (assembled_clips segs : list MediaClip)
         (w w' : World),
    assemble_loop E silence_duration false clips assembled_clips w
      = (Ok segs, w') ->
    exists new,
      segs = assembled_clips ++ new /\
      map (fun c => (segment_of c, m_size c)) new
        = flat_map (video_round E silence_duration) clips /\
      Forall (fun c => is_silence c = true ->
                       m_duration c = Some silence_duration) new.
Proof.
  intros Htr.
  induction clips as [|p rest IH]; intros acc segs w w' H; cbn [assemble_loop] in H.
  - injection H as <- _. exists []. now rewrite List.app_nil_r.
  - rewrite Htr in H.
    apply bind_ok_inv in H as (c & w1 & Hopen & H).
    apply open_media_ok_inv in Hopen as (info & Hp & -> & ->).
    rewrite (bind_ok _ _ _ _ (color_clip_run _ _ _)) in H.
    rewrite (bind_ok _ _ _ _ (audio_clip_run _ _)) in H.
    rewrite (bind_ok _ _ _ _ (set_audio_run _ _ _)) in H.
    apply IH in H as (new & -> & Hmap & Hall).
    eexists. split; [rewrite <- !List.app_assoc; reflexivity|].
    cbn [List.app map flat_map]. rewrite Hmap.
    unfold video_round at 2, size_of. rewrite Hp.
    split; [reflexivity|].
    constructor; [discriminate|]. constructor; [reflexivity | exact Hall].
Qed.

(** ** Assembly *)

Lemma written_files_app (evs1 evs2 : list event) :
  written_files (evs1 ++ evs2) = written_files evs1 ++ written_files evs2.
Proof. apply flat_map_app. Qed.

Lemma makes_segment_writes_nothing (evs : list event) :
  Forall (fun ev => makes_segment ev = true) evs -> written_files evs = [].
Proof.
  induction 1 as [|ev evs Hev _ IH]; [reflexivity|].
  unfold written_files in *. cbn [flat_map]. rewrite IH. now destruct ev.
Qed.

Lemma closes_write_nothing (cs : list MediaClip) :
  written_files (map (fun c => EvClose (m_handle c)) cs) = [].
Proof. induction cs as [|c cs IH]; [reflexivity | exact IH]. Qed.

(** Past its checks, [build_blindtest] makes the directory of the output,
    which is there whatever happens next. *)
Lemma build_blindtest_makes_directory (E : Engine) (output_path : string)
    (silence_duration : spec_float) (audio_only : bool) (clips : list string)
    (w w' : World) (r : result string) :
  clips <> [] ->
  PyFloat.ltb silence_duration PyFloat.zero = false ->
  moviepy_installed E = true ->
  build_blindtest E output_path silence_duration audio_only clips w = (r, w') ->
  PyPath.parent output_path ∈ dirs w'.
Proof.
  intros Hne Hs Hm. unfold build_blindtest, assembler_load_moviepy.
  destruct clips as [|c0 clips0]; [congruence|]. rewrite Hs, Hm.
  rewrite (bind_ok _ _ _ _ (eq_refl : ret tt w = (Ok tt, w))).
  rewrite (bind_ok _ _ _ _ (mkdir_run _ w)). intros H.
  apply (proj1 (render_makes_nothing E _ _ _ _ _ _ _ H)). cbn. set_solver.
Qed.

(** X12.  A returning [build_blindtest] has made the directory of the
    output, then the clip objects of the timeline, then has concatenated
    them in one call, written the result to [output_path] in one call, and
    only then closed the segments, in the order of the timeline, and the
    composed clip last.  [output_path] is the only file it wrote, and its
    directory exists afterwards. *)
Theorem build_blindtest_renders_once
    (E : Engine) (output_path : string) (silence_duration : spec_float)
    (audio_only : bool) (clips : list string) (w w' : World) (p : string) :
  build_blindtest E output_path silence_duration audio_only clips w
    = (Ok p, w') ->
  exists (segs : list MediaClip) (evs : list event) (hf : nat),
    map segment_of segs
      = flat_map (segments_of_excerpt silence_duration) clips /\
    Forall (fun ev => makes_segment ev = true) evs /\
    trace w' =
      trace w ++ EvMkdir (PyPath.parent output_path) :: evs ++
      [ if audio_only
        then EvConcatenateAudioclips hf (map m_handle segs)
        else EvConcatenateVideoclips hf (map m_handle segs);
        if audio_only then EvWriteAudiofile hf output_path
        else EvWriteVideofile hf output_path ] ++
      map (fun c => EvClose (m_handle c)) segs ++ [EvClose hf] /\
    written_files
      (new_events (build_blindtest E output_path silence_duration audio_only
                     clips) w) = [output_path] /\
    (PyPath.parent output_path ∈ dirs w').
Proof.
  intros H.
  pose proof H as H0.
  unfold build_blindtest, assembler_load_moviepy in H.
  destruct clips as [|c0 clips0]; [discriminate|].
  destruct (PyFloat.ltb silence_duration PyFloat.zero) eqn:Hs; [discriminate|].
  destruct (moviepy_installed E) eqn:Hm; [|discriminate].
  rewrite (bind_ok _ _ _ _ (eq_refl : ret tt w = (Ok tt, w))) in H.
  rewrite (bind_ok _ _ _ _ (mkdir_run _ w)) in H.
  assert (Hdir : PyPath.parent output_path ∈ dirs w').
  { apply (build_blindtest_makes_directory _ _ _ _ _ _ _ _
             (fun Heq => List.nil_cons (eq_sym Heq)) Hs Hm H0). }
  apply bind_ok_inv in H as (segs & w1 & Hloop & H).
  pose proof (assemble_loop_makes_segments _ _ _ _ _ _ _ _ Hloop)
    as (evs & Ht & Hmk).
  apply assemble_loop_ok in Hloop
    as (new & evs' & Hsegs & Hseg & _ & _ & _ & _).
  cbn in Hsegs. subst segs.
  apply bind_ok_inv in H as (final & w2 & Hcat & H).
  apply concatenate_ok_inv in Hcat as (_ & Hhf & ->).
  apply bind_ok_inv in H as ([] & w3 & Hwrite & H).
  apply write_ok_inv in Hwrite as (_ & ->).
  rewrite (bind_ok _ _ _ _ (close_all_run _ _)) in H.
  rewrite (bind_ok _ _ _ _ (close_run _ _)) in H.
  injection H as _ <-.
  assert (Htrace :
    trace (after (after (after (after w1
        [if audio_only
         then EvConcatenateAudioclips (next_handle w1) (map m_handle new)
         else EvConcatenateVideoclips (next_handle w1) (map m_handle new)] 1)
        [if audio_only then EvWriteAudiofile (m_handle final) output_path
         else EvWriteVideofile (m_handle final) output_path] 0)
        (map (fun c => EvClose (m_handle c)) new) 0)
        [EvClose (m_handle final)] 0) =
    trace w ++ EvMkdir (PyPath.parent output_path) :: evs ++
      [ if audio_only
        then EvConcatenateAudioclips (next_handle w1) (map m_handle new)
        else EvConcatenateVideoclips (next_handle w1) (map m_handle new);
        if audio_only then EvWriteAudiofile (next_handle w1) output_path
        else EvWriteVideofile (next_handle w1) output_path ] ++
      map (fun c => EvClose (m_handle c)) new ++ [EvClose (next_handle w1)]).
  { rewrite !after_after. cbn. rewrite Ht, Hhf. cbn.
    rewrite <- !List.app_assoc. reflexivity. }
  exists new, evs, (next_handle w1).
  split; [exact Hseg|]. split; [exact Hmk|]. split; [exact Htrace|].
  split; [|exact Hdir].
  erewrite new_events_app; [|rewrite H0; cbn [snd]; exact Htrace].
  change (EvMkdir (PyPath.parent output_path) :: evs ++ ?l)
    with ([EvMkdir (PyPath.parent output_path)] ++ evs ++ l).
  rewrite !written_files_app, (makes_segment_writes_nothing _ Hmk),
    closes_write_nothing.
  now destruct audio_only.
Qed.

Lemma build_blindtest_renders_once_witness :
  written_files
    (new_events
       (build_blindtest Scenarios.basic "out/blindtest.mp4" PyFloat.one false
          ["clips/abc123_clip.mp4"; "clips/def456_clip.mp4"])
       Examples.empty_world) = ["out/blindtest.mp4"].
Proof.
  destruct (build_blindtest_returns Scenarios.basic "out/blindtest.mp4"
              PyFloat.one false
              ["clips/abc123_clip.mp4"; "clips/def456_clip.mp4"]
              Examples.empty_world ltac:(discriminate) eq_refl eq_refl
              ltac:(discriminate) ltac:(reflexivity) ltac:(reflexivity))
    as (w' & Hrun).
  destruct (build_blindtest_renders_once _ _ _ _ _ _ _ _ Hrun)
    as (segs & evs & hf & _ & _ & _ & Hw & _).
  exact Hw.
Defined.



(** X14.  In a video with silences, the silence after an excerpt is a
    black frame of the size of that excerpt, with a silent sound track,
    and it lasts [silence_duration]: on the timeline an excerpt and its
    silence have the same size, whatever the sizes of the other
    excerpts. *)
Theorem video_silence_has_the_size_of_its_excerpt
    (E : Engine) (silence_duration : spec_float) (clips : list string)
    (w w' : World) (segs : list MediaClip) :
  PyFloat.truthy silence_duration = true ->
  assemble_loop E silence_duration false clips [] w = (Ok segs, w') ->
  map (fun c => (segment_of c, m_size c)) segs
    = flat_map (video_round E silence_duration) clips /\
  Forall (fun c => is_silence c = true ->
                   m_duration c = Some silence_duration) segs.
Proof.
  intros Htr H.
  apply (assemble_loop_video_rounds E silence_duration Htr) in H
    as (new & -> & Hmap & Hall).
  now split.
Qed.

Lemma video_silence_has_the_size_of_its_excerpt_witness :
  exists segs w',
    assemble_loop
      (Scenarios.with_media true
         (fun _ p => Some {| mi_duration := Some Examples.ten;
                             mi_size := if String.eqb p "clips/wide_clip.mp4"
                                        then (1280, 720)%Z
                                        else (640, 480)%Z |})
         Scenarios.basic)
      PyFloat.one false ["clips/abc123_clip.mp4"; "clips/wide_clip.mp4"] []
      Examples.empty_world = (Ok segs, w') /\
    map (fun c => (segment_of c, m_size c)) segs =
      [ (Some (content "clips/abc123_clip.mp4"), (640, 480)%Z);
        (Some (silence PyFloat.one), (640, 480)%Z);
        (Some (content "clips/wide_clip.mp4"), (1280, 720)%Z);
        (Some (silence PyFloat.one), (1280, 720)%Z) ].
Proof.
  match goal with
  | |- exists segs w', assemble_loop ?E ?sd false ?clips [] ?w = _ /\ _ =>
      destruct (assemble_loop_returns E sd false clips ltac:(discriminate) [] w)
        as (segs & w' & Hrun);
      exists segs, w'; split; [exact Hrun|];
      exact (proj1 (video_silence_has_the_size_of_its_excerpt
                      E sd clips w w' segs eq_refl Hrun))
  end.
Defined.

(** * main.py, stage by stage *)



(** ** The orchestrator, end to end *)













(** ** From the answer of the API to the timeline *)

Lemma downloads_make_nothing (dd : string) (l : list VideoClip) (lo hi : nat) :
  makes_within lo hi (flat_map (download_events dd) l).
Proof.
  intros ev h Hin Hm. apply in_flat_map in Hin as (c & _ & Hin).
  unfold download_events in Hin. cbn in Hin.
  destruct Hin as [<-|[<-|[<-|[]]]]; discriminate.
Qed.

Lemma downloads_write_nothing (dd : string) (l : list VideoClip) :
  written_files (flat_map (download_events dd) l) = [].
Proof. induction l as [|c l IH]; [reflexivity | exact IH]. Qed.

Section ReadingTheExcerpts.

Variable E : Engine.
Variables (clip_duration : spec_float) (output_dir start_strategy : string)
          (audio_only : bool).

(** The loop of [clip_videos], when it returns: the files it has written
    are the excerpts of the items, in their order, and what is written to
    each is a cut, not a concatenation. *)
Lemma clip_loop_renders :
  forall (clips : list VideoClip) (generated_files files : list string)
         (w w' : World),
    clip_loop E clip_duration output_dir start_strategy audio_only
      clips generated_files w = (Ok files, w') ->
    exists evs,
      trace w' = trace w ++ evs /\
      next_handle w <= next_handle w' /\
      makes_within (next_handle w) (next_handle w') evs /\
      forall before later,
        makes_within 0 (next_handle w) before ->
        renders_in (before ++ evs ++ later) evs =
          map (fun c => (excerpt_path output_dir audio_only c, None)) clips.
Proof.
  induction clips as [|clip rest IH]; intros acc files w w' H;
    cbn [clip_loop] in H.
  - injection H as _ <-. exists []. rewrite List.app_nil_r.
    split; [reflexivity|]. split; [lia|].
    split; [apply makes_within_nil | reflexivity].
  - apply bind_ok_inv in H as (c & w1 & Hopen & H).
    apply open_media_ok_inv in Hopen as (info & _ & Hc & ->).
    destruct (start_offset_run E (m_duration c) clip_duration start_strategy
                (after w [if audio_only
                          then EvAudioFileClip (next_handle w) (file_path clip)
                          else EvVideoFileClip (next_handle w) (file_path clip)] 1))
      as (start & w2 & Hstart & Ht2 & _ & Hh2).
    rewrite (bind_ok _ _ _ _ Hstart) in H.
    apply bind_ok_inv in H as (sc & w3 & Hsub & H).
    apply subclip_ok_inv in Hsub as (_ & Hsc & ->).
    rewrite target_of_excerpt_path in H.
    apply bind_ok_inv in H as ([] & w4 & Hwrite & H).
    apply write_ok_inv in Hwrite as (_ & ->).
    rewrite !(bind_ok _ _ _ _ (close_run _ _)) in H.
    apply IH in H as (evs & Ht & Hle & Hin & Hr).
    rewrite !after_after in Ht, Hle, Hin, Hr.
    cbn [after trace next_handle] in Ht, Hle, Hin, Hr, Hh2.
    rewrite Ht2 in Ht. cbn [after trace] in Ht.
    assert (Hh : m_handle c = next_handle w) by now rewrite Hc.
    assert (Hh' : m_handle sc = S (next_handle w)).
    { rewrite Hsc. cbn [m_handle]. rewrite Hh2. lia. }
    rewrite Hh, Hh' in *. clear Hsc Hc.
    rewrite ?Hh2 in Ht, Hle, Hin, Hr. cbn [Nat.add] in Ht, Hle, Hin, Hr.
    set (opened := if audio_only
                   then EvAudioFileClip (next_handle w) (file_path clip)
                   else EvVideoFileClip (next_handle w) (file_path clip)) in *.
    set (cut := EvSubclip (S (next_handle w)) (next_handle w) start
                  (PyFloat.add start clip_duration)) in *.
    set (wr := if audio_only
               then EvWriteAudiofile (S (next_handle w))
                      (excerpt_path output_dir audio_only clip)
               else EvWriteVideofile (S (next_handle w))
                      (excerpt_path output_dir audio_only clip)) in *.
    set (round := [opened; cut; wr; EvClose (next_handle w);
                   EvClose (S (next_handle w))]).
    assert (Hround : makes_within (next_handle w) (2 + next_handle w) round).
    { intros ev h Hev Hm. subst round opened cut wr. cbn [In] in Hev.
      destruct Hev as [<-|[<-|[<-|[<-|[<-|[]]]]]];
        destruct audio_only; cbn -[Nat.eqb] in Hm;
        try discriminate; apply Nat.eqb_eq in Hm; lia. }
    exists (round ++ evs). split; [|split; [lia|split]].
    + rewrite Ht. subst round. cbn [app]. rewrite <- !List.app_assoc.
      reflexivity.
    + apply (makes_within_app _ (2 + next_handle w)); [lia | lia | | ];
        assumption.
    + intros before later Hbefore. rewrite renders_in_app. cbn [map].
      replace (before ++ (round ++ evs) ++ later)
        with ((before ++ round) ++ evs ++ later)
        by now rewrite <- !List.app_assoc.
      rewrite Hr.
      2:{ apply (makes_within_app _ (next_handle w)); [lia | lia | | ];
            assumption. }
      enough (Hone : renders_in ((before ++ round) ++ evs ++ later) round
                     = [(excerpt_path output_dir audio_only clip, None)])
        by now rewrite Hone.
      assert (Hby : made_by ((before ++ round) ++ evs ++ later)
                      (S (next_handle w)) = Some cut).
      { rewrite <- List.app_assoc. rewrite made_by_skip.
        - unfold made_by. subst round opened cut. cbn -[Nat.eqb].
          replace (Nat.eqb (S (next_handle w)) (next_handle w)) with false
            by (symmetry; apply Nat.eqb_neq; lia).
          destruct audio_only; cbn -[Nat.eqb];
            replace (Nat.eqb (S (next_handle w)) (next_handle w)) with false
              by (symmetry; apply Nat.eqb_neq; lia);
            now rewrite Nat.eqb_refl.
        - intros ev Hev. destruct (makes (S (next_handle w)) ev) eqn:Hm;
            [|reflexivity].
          specialize (Hbefore ev _ Hev Hm). lia. }
      subst round wr. destruct audio_only; cbn; unfold timeline_in;
        now rewrite Hby.
Qed.

(** [clip_videos], when it returns. *)
Lemma clip_videos_renders (clips : list VideoClip) (files : list string)
    (w w' : World) :
  clip_videos E clip_duration output_dir start_strategy audio_only clips w
    = (Ok files, w') ->
  exists evs,
    trace w' = trace w ++ evs /\
    next_handle w <= next_handle w' /\
    makes_within (next_handle w) (next_handle w') evs /\
    forall before later,
      makes_within 0 (next_handle w) before ->
      renders_in (before ++ evs ++ later) evs =
        map (fun c => (excerpt_path output_dir audio_only c, None)) clips.
Proof.
  unfold clip_videos, clipper_load_moviepy.
  destruct (PyFloat.leb clip_duration PyFloat.zero); [discriminate|].
  destruct (moviepy_installed E); [|discriminate].
  rewrite (bind_ok _ _ _ _ (eq_refl : ret tt w = (Ok tt, w))).
  rewrite (bind_ok _ _ _ _ (mkdir_run output_dir w)).
  intros H. apply clip_loop_renders in H as (evs & Ht & Hle & Hin & Hr).
  cbn [trace next_handle] in Ht, Hle, Hin, Hr.
  exists ([EvMkdir output_dir] ++ evs).
  assert (Hmk : forall lo, makes_within lo (next_handle w) [EvMkdir output_dir]).
  { intros lo ev h [<-|[]] Hm. discriminate. }
  split; [now rewrite Ht, <- List.app_assoc|]. split; [exact Hle|]. split.
  - intros ev h [<-|Hev] Hm; [discriminate | exact (Hin ev h Hev Hm)].
  - intros before later Hbefore.
    assert (Hall : before ++ ([EvMkdir output_dir] ++ evs) ++ later
                   = (before ++ [EvMkdir output_dir]) ++ evs ++ later)
      by now rewrite <- !List.app_assoc.
    rewrite Hall, renders_in_app.
    rewrite (renders_in_no_write _ [EvMkdir output_dir] eq_refl).
    apply Hr.
    apply (makes_within_app _ (next_handle w)); [lia | lia | exact Hbefore |].
    apply Hmk.
Qed.

End ReadingTheExcerpts.

(** X21.  When the pipeline of [main] returns, the files it has written
    are the excerpts of the videos that the API listed with an id, one for
    each, under the clips directory, and then the output: in the order of
    the answer with [--no-random], in the order that [random.shuffle] gave
    them otherwise.  What is written to the output is the concatenation of
    these excerpts in this order, each followed by a silence if
    [if silence_duration:] succeeds.  Nothing between the shuffle and the
    render changes the order. *)
Theorem timeline_follows_the_selection
    (E : Engine) (args : Args) (w w' : World) (z : Z) :
  main_body E args w = (Ok z, w') ->
  exists (k : string) (resp : Response),
    env_api_key E = Some k /\
    http_get E (build_search_params (query args) k (max_results args) None)
      = Some resp /\
    renders (new_events (main_body E args) w) =
      (let l := flat_map (clips_of_item (downloads args)) (json_items resp) in
       let videos := if no_random args then l else shuffle E l in
       let excerpts :=
         map (excerpt_path (clips_arg args) (audio_only_arg args)) videos in
       map (fun p => (p, None)) excerpts ++
       [(output args,
         Some (flat_map (segments_of_excerpt (silence_duration_arg args))
                 excerpts))]).
Proof.
  intros H. pose proof H as Hbody. unfold main_body in H.
  apply bind_ok_inv in H as (videos & w1 & Hfetch & H).
  apply bind_ok_inv in H as (files & w2 & Hclip & H).
  apply bind_ok_inv in H as (p & w3 & Hbuild & H).
  injection H as _ <-.
  apply fetch_ok_inv in Hfetch
    as (k & resp & l & Hk & _ & _ & Hg & _ & _ & Hloop & Hvideos).
  apply fetch_loop_ok in Hloop as (Hl & _ & Ht1 & Hh1 & _).
  cbn [List.app] in Hl. subst l. cbn [after trace next_handle] in Ht1, Hh1.
  pose proof (clip_videos_ok E _ _ _ _ _ _ _ _ Hclip) as (Hfiles & _).
  apply clip_videos_renders in Hclip as (evs_c & Ht2 & Hle2 & Hin2 & Hr2).
  apply build_blindtest_renders in Hbuild as (evs_b & Ht3 & Hle3 & Hin3 & Hr3).
  exists k, resp. split; [exact Hk|]. split; [exact Hg|].
  set (evs_f := [EvHttpGet (query args)] ++
                flat_map (download_events (downloads args))
                  (flat_map (clips_of_item (downloads args))
                     (json_items resp))).
  assert (Hf : makes_within 0 (next_handle w1) evs_f).
  { apply (makes_within_app _ 0); [lia | lia | |apply downloads_make_nothing].
    intros ev h [<-|[]] Hm. discriminate. }
  erewrite new_events_app.
  2:{ rewrite Hbody. cbn [snd]. rewrite Ht3, Ht2, Ht1.
      rewrite <- !List.app_assoc. reflexivity. }
  fold evs_f.
  change ([EvHttpGet (query args)] ++
          flat_map (download_events (downloads args))
            (flat_map (clips_of_item (downloads args)) (json_items resp))
          ++ evs_c ++ evs_b)
    with (evs_f ++ evs_c ++ evs_b).
  unfold renders. rewrite !renders_in_app.
  rewrite (renders_in_no_write _ evs_f).
  2:{ unfold evs_f. cbn [app]. apply downloads_write_nothing. }
  rewrite (Hr2 evs_f evs_b Hf).
  replace (evs_f ++ evs_c ++ evs_b) with ((evs_f ++ evs_c) ++ evs_b ++ [])
    by now rewrite List.app_nil_r, <- List.app_assoc.
  rewrite Hr3.
  2:{ apply (makes_within_app _ (next_handle w1)); [lia | lia | exact Hf
                                                   | exact Hin2]. }
  cbn [app]. rewrite Hfiles, Hvideos, List.map_map.
  now destruct (no_random args).
Qed.

Lemma timeline_follows_the_selection_witness :
  renders (new_events
             (main_body
                (Scenarios.with_shuffle (@rev VideoClip) Scenarios.basic)
                {| query := "hits"; max_results := 2;
                   clip_duration_arg := Examples.ten;
                   output := "blindtest.mp4";
                   downloads := "downloads"; clips_arg := "clips";
                   no_random := false; audio_only_arg := false;
                   silence_duration_arg := PyFloat.zero |})
             Examples.empty_world)
  = [ ("clips/def456_clip.mp4", None); ("clips/abc123_clip.mp4", None);
      ("blindtest.mp4",
       Some [ Some (content "clips/def456_clip.mp4");
              Some (content "clips/abc123_clip.mp4") ]) ].
Proof.
  destruct (main_body (Scenarios.with_shuffle (@rev VideoClip) Scenarios.basic)
              {| query := "hits"; max_results := 2;
                 clip_duration_arg := Examples.ten; output := "blindtest.mp4";
                 downloads := "downloads"; clips_arg := "clips";
                 no_random := false; audio_only_arg := false;
                 silence_duration_arg := PyFloat.zero |}
              Examples.empty_world) as [[z|e] w'] eqn:Hrun;
    [|vm_compute in Hrun; discriminate].
  destruct (timeline_follows_the_selection _ _ _ _ _ Hrun)
    as (k & resp & Hk & Hg & Hr).
  injection Hk as <-. injection Hg as <-. exact Hr.
Defined.

(** ** Search requests *)

Lemma http_requests_app (evs1 evs2 : list event) :
  http_requests (evs1 ++ evs2) = http_requests evs1 ++ http_requests evs2.
Proof. apply flat_map_app. Qed.

Lemma no_http_requests (evs : list event) :
  Forall not_http_get evs -> http_requests evs = [].
Proof.
  induction 1 as [|ev evs Hev _ IH]; [reflexivity|].
  change (ev :: evs) with ([ev] ++ evs).
  now rewrite http_requests_app, Hev, IH.
Qed.

Lemma stage_calls_send_nothing (ev : event) :
  stage_call ev = true -> not_http_get ev.
Proof. now destruct ev. Qed.

Section Requests.

Variable E : Engine.

(** [fetch_video_clips] sends one request at most. *)
Lemma fetch_video_clips_requests (query : string) (max_results : Z)
    (api_key : option string) (download_dir : string)
    (published_after : option string) (randomize : bool)
    (w w' : World) (r : result (list VideoClip)) :
  fetch_video_clips E query max_results api_key download_dir published_after
    randomize w = (r, w') ->
  exists evs,
    trace w' = trace w ++ evs /\
    (http_requests evs = [] \/ http_requests evs = [query]).
Proof.
  unfold fetch_video_clips.
  destruct (match api_key with
            | Some k => if String.eqb k "" then env_api_key E else Some k
            | None => env_api_key E
            end) as [k|].
  2:{ intros [= <- <-]. exists []. rewrite List.app_nil_r. auto. }
  destruct (String.eqb k "").
  { intros [= <- <-]. exists []. rewrite List.app_nil_r. auto. }
  unfold bind at 1, call_youtube_api.
  destruct (requests_installed E).
  2:{ intros [= <- <-]. exists []. rewrite List.app_nil_r. auto. }
  rewrite (bind_ok _ _ _ _ (emit_after _ _)). cbn [sp_q build_search_params].
  destruct (http_get E _) as [resp|].
  2:{ intros [= <- <-]. exists [EvHttpGet query]. auto. }
  destruct (Z.eqb (status_code resp) 200).
  2:{ intros [= <- <-]. exists [EvHttpGet query]. auto. }
  unfold ret at 1.
  destruct (json_items resp) as [|item items].
  { intros [= <- <-]. exists [EvHttpGet query]. auto. }
  intros H.
  assert (Hrest : emits not_http_get
    (clips <- fetch_loop E download_dir (item :: items) [] ;;
     if randomize then ret (shuffle E clips) else ret clips)).
  { apply emits_bind;
      [apply (fetch_loop_emits E _ stage_calls_send_nothing); reflexivity
      | intros clips].
    destruct randomize; apply emits_ret. }
  destruct (Hrest _ _ _ H) as (evs & Ht & Hall).
  exists (EvHttpGet query :: evs). split.
  - rewrite Ht. cbn. now rewrite <- List.app_assoc.
  - right. change (EvHttpGet query :: evs) with ([EvHttpGet query] ++ evs).
    now rewrite http_requests_app, (no_http_requests _ Hall).
Qed.

Lemma main_body_requests (args : Args) (w w' : World) (r : result Z) :
  main_body E args w = (r, w') ->
  exists evs,
    trace w' = trace w ++ evs /\
    (http_requests evs = [] \/ http_requests evs = [query args]).
Proof.
  unfold main_body. unfold bind at 1.
  destruct (fetch_video_clips E _ _ _ _ _ _ w) as [[videos|e] w1] eqn:Hfetch;
    apply fetch_video_clips_requests in Hfetch as (evs & Ht & Hreq).
  2:{ intros [= <- <-]. now exists evs. }
  intros H.
  assert (Hrest : emits not_http_get
    (generated_clips <- clip_videos E (clip_duration_arg args) (clips_arg args)
                          "random" (audio_only_arg args) videos ;;
     build_blindtest E (output args) (silence_duration_arg args)
       (audio_only_arg args) generated_clips ;;;
     ret 0%Z)).
  { apply emits_bind;
      [apply (clip_videos_emits E _ stage_calls_send_nothing); reflexivity
      | intros generated].
    apply emits_bind;
      [apply (build_blindtest_emits E _ stage_calls_send_nothing); reflexivity
      | intros p].
    apply emits_ret. }
  destruct (Hrest _ _ _ H) as (evs2 & Ht2 & Hall).
  exists (evs ++ evs2). split.
  - now rewrite Ht2, Ht, List.app_assoc.
  - now rewrite http_requests_app, (no_http_requests _ Hall), List.app_nil_r.
Qed.

End Requests.

(** X22.  A run of [main] sends at most one search request, with the
    query it was given; the downloads, the media engine and the cleanup
    send none. *)
Theorem main_sends_at_most_one_request
    (E : Engine) (args : Args) (w : World) :
  http_requests (new_events (main E args) w) = [] \/
  http_requests (new_events (main E args) w) = [query args].
Proof.
  destruct (main_calls E args w)
    as (r & w' & evs_body & evs & _ & _ & Htb & _ & _ & -> & Hshape & _).
  destruct (main_body E args w) as [rb w1] eqn:Hbody. cbn [snd] in Htb.
  apply main_body_requests in Hbody as (evs' & Ht & Hreq).
  rewrite Htb in Ht. apply app_inv_head in Ht. subst evs'.
  rewrite http_requests_app.
  replace (http_requests evs) with (@nil string);
    [now rewrite List.app_nil_r|].
  now destruct Hshape as [-> | [-> | [-> | ->]]].
Qed.

(** ** The names of the excerpts *)





(** ** Clip objects over a whole run *)

Lemma balanced_without_handles (evs : list event) :
  flat_map handles_of evs = [] -> balanced evs.
Proof. intros H h Hin. rewrite H in Hin. destruct Hin. Qed.

Lemma downloads_hand_out_nothing (dd : string) (l : list VideoClip) :
  flat_map handles_of (flat_map (download_events dd) l) = [].
Proof. induction l as [|c l IH]; [reflexivity | exact IH]. Qed.

(** X24.  When its pipeline returns, [main] has closed every clip object
    that it was handed over the whole run: the source and the excerpt of
    every video, every segment of the timeline, and the composed clip. *)
Theorem main_releases_every_clip
    (E : Engine) (args : Args) (w w' : World) (z : Z) :
  main_body E args w = (Ok z, w') ->
  leaked (new_events (main E args) w) = [].
Proof.
  intros Hbody.
  destruct (main_calls E args w)
    as (r & w2 & evs_body & evs & _ & _ & Htb & _ & _ & -> & Hshape & _).
  rewrite Hbody in Htb. cbn [snd] in Htb.
  unfold main_body in Hbody.
  apply bind_ok_inv in Hbody as (videos & w1 & Hfetch & Hbody).
  apply bind_ok_inv in Hbody as (files & wc & Hclip & Hbody).
  apply bind_ok_inv in Hbody as (p & wb & Hbuild & Hbody).
  injection Hbody as _ <-.
  apply fetch_ok_inv in Hfetch
    as (k & resp & l & _ & _ & _ & _ & _ & _ & Hloop & _).
  apply fetch_loop_ok in Hloop as (_ & _ & Ht1 & _).
  apply clip_videos_ok in Hclip as (_ & evs_c & Htc2 & Hbal_c & _).
  apply build_blindtest_ok in Hbuild
    as (_ & segs & evs_b & hf & _ & Hincl & _ & Htb2).
  rewrite Htb2, Htc2, Ht1 in Htb. cbn [after trace] in Htb.
  rewrite <- !List.app_assoc in Htb. apply app_inv_head in Htb. subst evs_body.
  apply leaked_nil_iff.
  rewrite <- !List.app_assoc.
  apply (balanced_app [EvHttpGet (query args)]);
    [now apply balanced_without_handles|].
  apply balanced_app;
    [apply balanced_without_handles, downloads_hand_out_nothing|].
  apply (balanced_app (EvMkdir (clips_arg args) :: evs_c)).
  { apply (balanced_app [EvMkdir (clips_arg args)]);
      [now apply balanced_without_handles | exact Hbal_c]. }
  apply balanced_app.
  - now apply (balanced_build (audio_only_arg args)).
  - apply balanced_without_handles.
    now destruct Hshape as [-> | [-> | [-> | ->]]].
Qed.

Lemma main_releases_every_clip_witness :
  leaked (new_events (main Scenarios.basic (Examples.args false))
            Examples.empty_world) = [].
Proof.
  destruct (main_body Scenarios.basic (Examples.args false)
              Examples.empty_world) as [[z|e] w'] eqn:Hrun;
    [|vm_compute in Hrun; discriminate].
  exact (main_releases_every_clip _ _ _ _ _ Hrun).
Defined.
